(** * Blender shortcut tools (tools.py): a shallow embedding

    The module is a flat collection of helpers that drive Blender's Python
    API.  The embedding follows the code function by function:

    - Python floats are IEEE-754 binary64 numbers, embedded as Rocq's
      primitive floats; the wrappers of CPython's [math] module are written
      out with the exceptions they raise.  The two functions CPython takes
      from the C library ([pow], [acos]) are an interface, [Libm].
    - A Python call either returns or raises, and what it mutated before
      raising stays mutated: [Py S A := S -> outcome A * S].
    - The bmesh the decimation routine works on is a store of vertex
      coordinates indexed by vertex index plus an edge list; [print] output
      is kept as a list of printed values.
    - The scene ([bpy.data.objects], the selection, the active object, the
      interaction mode) is a record around a [gmap] from object names to
      objects.  The operators and attributes of the host ([bpy.ops....],
      [o.select], ...) that the functions call are embedded with their
      [poll], which raises [RuntimeError] outside object mode, and with
      their reach, the objects the viewport shows.  What the host keeps
      and the module never writes (which objects are hidden, which layers
      are shown) is an interface, [Viewport]; so is what the host
      computes on its own ([mathutils], the FBX importer).
    - The string methods the module calls ([replace], [find], [rfind],
      [rstrip]) and [os.path.dirname] are written out on Rocq strings.
    - The screen that [get_context_override_view3d] searches is a list of
      areas with their regions and spaces, and the context copy is a
      [gmap] from member names to members. *)

From Stdlib Require Import ZArith List String Ascii Floats Lia Bool.
From stdpp Require Import base option list gmap strings pretty fin_maps.

Open Scope string_scope.
Open Scope list_scope.

(** ** Exceptions and the monad of Python calls *)

Inductive exn : Type :=
| ValueError (msg : string)
| BaseException (msg : string)
| OverflowError (msg : string)
| ZeroDivisionError (msg : string)
| IndexError
| ReferenceError
| RuntimeError (msg : string).

Inductive outcome (A : Type) : Type :=
| Returns (a : A)
| Raises (e : exn).
Arguments Returns {A} a.
Arguments Raises {A} e.

Definition Py (S A : Type) : Type := S -> outcome A * S.

#[global] Instance outcome_ret : MRet outcome := fun A a => Returns a.
#[global] Instance outcome_bind : MBind outcome := fun A B f m =>
  match m with
  | Returns a => f a
  | Raises e => Raises e
  end.

#[global] Instance Py_ret {S} : MRet (Py S) := fun A a s => (Returns a, s).
#[global] Instance Py_bind {S} : MBind (Py S) := fun A B f m s =>
  match m s with
  | (Returns a, s') => f a s'
  | (Raises e, s') => (Raises e, s')
  end.

Definition raise {S A} (e : exn) : Py S A := fun s => (Raises e, s).
Definition lift {S A} (o : outcome A) : Py S A := fun s => (o, s).
Definition gets {S A} (f : S -> A) : Py S A := fun s => (Returns (f s), s).
Definition modify {S} (f : S -> S) : Py S unit := fun s => (Returns tt, f s).

(** [for x in l: body(x)] *)
Fixpoint for_each {S A} (l : list A) (body : A -> Py S unit) : Py S unit :=
  match l with
  | [] => mret tt
  | a :: l' => body a ;; for_each l' body
  end.

Definition returned {A} (o : outcome A) : Prop := exists a, o = Returns a.
Definition raised {A} (o : outcome A) : Prop := exists e, o = Raises e.

(** A call that only reads leaves the state as it was, whether it returns
    or raises. *)
Definition readonly {S A} (m : Py S A) : Prop := forall s, (m s).2 = s.

(** ** Python floats and the [math] module *)

Module math.

(** [Py_MATH_PI] and CPython's [radToDeg = 180.0 / Py_MATH_PI]. *)
Definition pi : float := 0x1.921fb54442d18p+1%float.
Definition radToDeg : float := (180 / pi)%float.

(** [math.degrees(x)] is [x * radToDeg]. *)
Definition degrees (x : float) : float := (x * radToDeg)%float.

(** CPython's [math_1]: call the C function, then turn a NaN that did not
    come from a NaN, or an infinity that did not come from an infinity, into
    an exception. *)
Definition math_1 (func : float -> float) (can_overflow : bool) (x : float)
  : outcome float :=
  let r := func x in
  if is_nan r && negb (is_nan x) then Raises (ValueError "math domain error")
  else if is_infinity r && is_finite x then
    if can_overflow then Raises (OverflowError "math range error")
    else Raises (ValueError "math domain error")
  else Returns r.

(** [math.sqrt]: the C [sqrt] is the correctly rounded IEEE square root. *)
Definition sqrt : float -> outcome float := math_1 PrimFloat.sqrt false.

(** What CPython takes from the C library and IEEE-754 does not fix. *)
Class Libm : Type := {
  libm_pow : float -> float -> float;
  libm_acos : float -> float
}.

Section with_libm.
Context {libm : Libm}.

(** [math.acos] *)
Definition acos : float -> outcome float := math_1 libm_acos false.

(** [math.pow(x, 2)], the only exponent the module uses.  Of CPython's
    [math_pow] these branches remain at [y = 2]: a NaN is returned as it
    is, an infinity gives [fabs(x)], and a finite [x] goes to the C [pow],
    whose NaN is a domain error and whose infinity is a range error (a
    domain error at [x = 0]). *)
Definition pow2 (x : float) : outcome float :=
  if is_nan x then Returns x
  else if is_infinity x then Returns (abs x)
  else
    let r := libm_pow x 2%float in
    if is_nan r then Raises (ValueError "math domain error")
    else if is_infinity r then
      if (x =? 0)%float then Raises (ValueError "math domain error")
      else Raises (OverflowError "math range error")
    else Returns r.
End with_libm.

End math.

(** [x / y] on Python floats. *)
Definition truediv (x y : float) : outcome float :=
  if (y =? 0)%float then Raises (ZeroDivisionError "float division by zero")
  else Returns (x / y)%float.

(** ** The bmesh and the planar decimation routine *)

(** [v.co]: the three coordinates of a vertex. *)
Record Vector : Type := { x : float; y : float; z : float }.

(** What [print] wrote, one entry per call. *)
Inductive printed : Type :=
| PFloat (f : float)
| PStr (s : string)
| PList (l : list nat).

(** The bmesh of [get_bmesh_for_object]: [verts] is the lookup table
    ([bm.verts[i]] has [index] [i]), an edge is the pair of the indices of
    [e.verts[0]] and [e.verts[1]].  A [BMVert] is a reference into the
    table, embedded as its index. *)
Record BMesh : Type := {
  verts : list Vector;
  edges : list (nat * nat);
  stdout : list printed
}.

Definition BMVert : Type := nat.

Definition print (p : printed) : Py BMesh unit :=
  modify (fun bm => {| verts := verts bm; edges := edges bm;
                       stdout := stdout bm ++ [p] |}).

(** [v.co]; bmesh raises [ReferenceError] on a vertex that is not in the
    mesh. *)
Definition co (v : BMVert) : Py BMesh Vector := fun bm =>
  match verts bm !! v with
  | Some c => (Returns c, bm)
  | None => (Raises ReferenceError, bm)
  end.

(** [v.co = c] copies the three numbers into the vertex. *)
Definition set_co (v : BMVert) (c : Vector) : Py BMesh unit := fun bm =>
  match verts bm !! v with
  | Some _ => (Returns tt, {| verts := <[v := c]> (verts bm);
                              edges := edges bm; stdout := stdout bm |})
  | None => (Raises ReferenceError, bm)
  end.

(** [bm.verts[i]] for a non-negative [i]. *)
Definition verts_getitem (i : nat) : Py BMesh BMVert := fun bm =>
  if decide (i < length (verts bm)) then (Returns i, bm)
  else (Raises IndexError, bm).

Section decimate.
Context {libm : math.Libm}.

Definition get_distance_between_points (v0 v1 : BMVert) : Py BMesh float :=
  c0 ← co v0;
  c1 ← co v1;
  dx ← lift (math.pow2 (x c0 - x c1)%float);
  dy ← lift (math.pow2 (y c0 - y c1)%float);
  dz ← lift (math.pow2 (z c0 - z c1)%float);
  lift (math.sqrt (dx + dy + dz)%float).

Definition get_planar_angle (v0 v1 v2 : BMVert) : Py BMesh float :=
  a ← get_distance_between_points v0 v2;
  b ← get_distance_between_points v0 v1;
  c ← get_distance_between_points v1 v2;
  if ((b =? 0) || (c =? 0))%float then mret 0%float
  else
    cos_a ← lift (truediv (b * b + c * c - a * a)%float (2 * b * c)%float);
    lift (math.acos cos_a).

Definition collapse_points_on_line (v0 v1 v2 : BMVert) (angle : float)
  : Py BMesh unit :=
  a ← get_planar_angle v0 v1 v2;
  print (PFloat (math.degrees a));;
  if (angle <? math.degrees a)%float then
    print (PStr "collapse");;
    c0 ← co v0;
    set_co v1 c0
  else mret tt.

(** The list [edges] that the loop over [bm.edges] builds. *)
Definition neighbors_of (es : list (nat * nat)) (v0 : nat) : list nat :=
  fold_left (fun acc e =>
               if decide (fst e = v0) then acc ++ [snd e]
               else if decide (snd e = v0) then acc ++ [fst e]
               else acc) es [].

Definition get_vertex_neighbors (v0 : nat) : Py BMesh (list nat) :=
  es ← gets edges;
  let edges := neighbors_of es v0 in
  print (PList edges);;
  mret edges.

(** The body of [for v in bm.verts] in [collapse_edges_in_order]. *)
Definition collapse_vertex (angle : float) (v : BMVert) : Py BMesh unit :=
  neighbors ← get_vertex_neighbors v;
  if decide (length neighbors = 2) then
    v0 ← verts_getitem (nth 0 neighbors 0);
    v2 ← verts_getitem (nth 1 neighbors 0);
    collapse_points_on_line v0 v v2 angle
  else
    print (PStr ("The length of the neighbors was " +:+
                 pretty (length neighbors))).

(** [collapse_edges_in_order] on the bmesh of the object: the loop over
    all vertices.  Loading the bmesh from the object before it and
    writing it back after it are calls into the host. *)
Definition collapse_edges_in_order (angle : float) : Py BMesh unit :=
  n ← gets (fun bm => length (verts bm));
  for_each (seq 0 n) (collapse_vertex angle).

(** The test of [collapse_points_on_line]: the angle at [v1] was computed
    and, converted to degrees, is greater than the threshold. *)
Definition angle_exceeds (v0 v1 v2 : BMVert) (angle : float) (bm : BMesh)
  : Prop :=
  exists a, (get_planar_angle v0 v1 v2 bm).1 = Returns a
            /\ (angle <? math.degrees a)%float = true.
End decimate.

(** ** [make_matrix] over mathutils *)

(** The vector and matrix operations of the host's [mathutils] library
    that [make_matrix] calls.  The host computes them in single precision
    and they are not part of the repository, so they are an interface;
    [magnitude] is the one whose result the code tests. *)
Class Mathutils : Type := {
  Matrix : Type;
  vsub : Vector -> Vector -> Vector;
  cross : Vector -> Vector -> Vector;
  magnitude : Vector -> float;
  normalized : Vector -> Vector;
  Matrix_rows : Vector -> Vector -> Vector -> Matrix;
  transposed : Matrix -> Matrix;
  to_4x4 : Matrix -> Matrix;
  Translation : Vector -> Matrix;
  Scale : float -> nat -> Matrix;
  matmul : Matrix -> Matrix -> Matrix
}.

Section make_matrix.
Context {mu : Mathutils}.

Definition make_matrix (v1 v2 v3 : Vector) : outcome Matrix :=
  let a := vsub v2 v1 in
  let b := vsub v3 v1 in
  let c := cross a b in
  c ← (if (0 <? magnitude c)%float then Returns (normalized c)
       else Raises (BaseException "A B C are colinear"));
  let b2 := normalized (cross c a) in
  let a2 := normalized a in
  let m := transposed (Matrix_rows a2 b2 c) in
  let s := magnitude a in
  let m := matmul (matmul (Translation v1) (Scale s 4)) (to_4x4 m) in
  Returns m.
End make_matrix.

(** ** The scene *)

(** An object of [bpy.data.objects]: its [type] ('MESH', 'CAMERA', ...),
    its location and its layer flags. *)
Record Object : Type := {
  type : string;
  location : Vector;
  layers : list bool
}.

(** The host state the module reads and writes.  An object is referred to
    by its name, the key of [bpy.data.objects].  The selection is kept by
    the scene (an object's [select] attribute reads and writes it), as are
    the active object and the interaction mode. *)
Record Scene : Type := {
  objects : gmap string Object;
  selected : gset string;
  active : option string;
  mode : string
}.

Inductive select_action : Type := SELECT | DESELECT.

(** What the 3D viewport shows and lets select is kept by the host: the
    [hide] and [hide_select] flags of an object, by its name, and the
    layers of the scene that are shown ([bpy.context.scene.layers]).  The
    module writes none of them.  Whether [bpy.ops.object.delete] also
    takes a selected object that is hidden depends on the context the
    operator runs in: the context of a 3D viewport lists the selected
    objects that are shown, the context of the screen lists the selected
    objects on a shown layer, hidden or not. *)
Class Viewport : Type := {
  hide : string -> bool;
  hide_select : string -> bool;
  scene_layers : list bool;
  delete_takes_hidden : bool
}.

Section viewport.
Context {vp : Viewport}.

(** The object is on a layer of the scene that is shown. *)
Definition on_scene_layer (o : Object) : bool :=
  existsb (fun p : bool * bool => p.1 && p.2) (zip (layers o) scene_layers).

(** The objects the viewport shows ([bpy.context.visible_objects]): those
    that are not hidden and are on a layer that is shown. *)
Definition visible (s : Scene) : gset string :=
  dom (filter (fun kv : string * Object =>
                 hide kv.1 = false /\ on_scene_layer kv.2 = true)
         (objects s)).

(** The exception of an operator whose [poll] refuses the context. *)
Definition poll_failed (op : string) : exn :=
  RuntimeError
    ("Operator bpy.ops." +:+ op +:+ ".poll() failed, context is incorrect").

(** The [poll] of the operators that need object mode. *)
Definition object_mode_poll (op : string) : Py Scene unit := fun s =>
  if decide (mode s = "OBJECT") then (Returns tt, s)
  else (Raises (poll_failed op), s).

(** The host operator [bpy.ops.object.select_all(action=...)]: it needs
    object mode, and it selects or deselects the objects that the
    viewport shows; an object that is not selectable is not selected. *)
Definition select_all (action : select_action) : Py Scene unit :=
  object_mode_poll "object.select_all";;
  modify (fun s =>
    {| objects := objects s;
       selected := match action with
                   | SELECT =>
                       selected s
                       ∪ filter (fun k => hide_select k = false) (visible s)
                   | DESELECT => selected s ∖ visible s
                   end;
       active := active s; mode := mode s |}).

(** The host attribute [o.select]: [o.select = b] selects or deselects an
    object of the scene; an object that is not selectable is not
    selected. *)
Definition set_select (o : string) (b : bool) : Py Scene unit :=
  modify (fun s =>
    {| objects := objects s;
       selected := if decide (o ∈ dom (objects s)) then
                     if b then
                       if hide_select o then selected s
                       else {[o]} ∪ selected s
                     else selected s ∖ {[o]}
                   else selected s;
       active := active s; mode := mode s |}).

(** The host attribute [bpy.context.scene.objects.active], assigned. *)
Definition set_active (o : option string) : Py Scene unit :=
  modify (fun s =>
    {| objects := objects s; selected := selected s;
       active := o; mode := mode s |}).

(** The host operator [bpy.ops.object.mode_set(mode=m)]: its [poll] needs
    an active object that is not hidden. *)
Definition mode_set (m : string) : Py Scene unit := fun s =>
  match active s with
  | Some a =>
      if decide (a ∈ dom (objects s) /\ hide a = false) then
        (Returns tt,
         {| objects := objects s; selected := selected s;
            active := active s; mode := m |})
      else (Raises (poll_failed "object.mode_set"), s)
  | None => (Raises (poll_failed "object.mode_set"), s)
  end.

(** The objects [bpy.ops.object.delete()] takes: the selected objects on
    a layer that is shown; of these, the hidden ones only in a context
    that lists them. *)
Definition delete_takes (s : Scene) : gset string :=
  dom (filter (fun kv : string * Object =>
                 kv.1 ∈ selected s
                 /\ on_scene_layer kv.2 = true
                 /\ (hide kv.1 = false \/ delete_takes_hidden = true))
         (objects s)).

(** The host operator [bpy.ops.object.delete()]: it needs object mode, and
    it removes from the scene the objects it takes; an active object that
    was deleted is no longer active. *)
Definition object_delete : Py Scene unit :=
  object_mode_poll "object.delete";;
  modify (fun s =>
    {| objects := filter (fun kv => kv.1 ∉ delete_takes s) (objects s);
       selected := selected s ∖ delete_takes s;
       active := match active s with
                 | Some a =>
                     if decide (a ∈ delete_takes s) then None else Some a
                 | None => None
                 end;
       mode := mode s |}).

(** [bpy.data.objects[i]]: with a single object in the scene, index 0 is
    that object. *)
Definition objects_getitem (i : nat) : Py Scene string := fun s =>
  match map_to_list (objects s) !! i with
  | Some kv => (Returns kv.1, s)
  | None => (Raises IndexError, s)
  end.

Definition delete_selected_objects : Py Scene unit := object_delete.

Definition delete_all : Py Scene unit :=
  select_all SELECT;;
  delete_selected_objects.

Definition delete_all_cameras : Py Scene unit :=
  select_all DESELECT;;
  os ← gets (fun s => map_to_list (objects s));
  for_each os (fun kv =>
    if decide (type kv.2 = "CAMERA") then set_select kv.1 true
    else mret tt);;
  delete_selected_objects.

Definition select_object (obj : option string) : Py Scene unit :=
  match obj with
  | None =>
      raise (ValueError
        "Error: the object that you are trying to select does not exist")
  | Some o =>
      select_all DESELECT;;
      set_active (Some o);;
      mode_set "OBJECT";;
      set_select o true;;
      a ← gets active;
      set_active a
  end.

Definition delete_object (obj : option string) : Py Scene unit :=
  select_object obj;;
  delete_selected_objects.
End viewport.

(** The host operator [bpy.ops.import_scene.fbx]: what it does to the
    scene, and whether it raises, is decided by the host and by the file,
    so it is an interface. *)
Class Host : Type := {
  import_scene_fbx : string -> Py Scene unit
}.

Section import.
Context {vp : Viewport} {host : Host}.

Definition import_fbx (fbx_filepath : string) : Py Scene unit :=
  import_scene_fbx fbx_filepath.

Definition import_agisoft_scan (fbx_filepath : string) : Py Scene string :=
  import_fbx fbx_filepath;;
  delete_all_cameras;;
  n ← gets (fun s => size (objects s));
  if decide (n ≠ 1) then
    raise (ValueError
      "Error: There should be only one object imported - check the contents of the fbx file")
  else objects_getitem 0.
End import.

(** The position a Python index denotes in a sequence of length [n]. *)
Definition py_index (n : nat) (i : Z) : option nat :=
  if decide (0 ≤ i < Z.of_nat n)%Z then Some (Z.to_nat i)
  else if decide (- Z.of_nat n ≤ i < 0)%Z
       then Some (Z.to_nat (Z.of_nat n + i))
  else None.

(** [len(obj.layers)] *)
Definition layers_len (obj : string) : Py Scene nat := fun s =>
  match objects s !! obj with
  | Some o => (Returns (length (layers o)), s)
  | None => (Raises ReferenceError, s)
  end.

(** [obj.layers[i] = b] *)
Definition layers_setitem (obj : string) (i : Z) (b : bool) : Py Scene unit :=
  fun s =>
  match objects s !! obj with
  | Some o =>
      match py_index (length (layers o)) i with
      | Some j =>
          (Returns tt,
           {| objects := <[obj := {| type := type o;
                                     location := location o;
                                     layers := <[j := b]> (layers o) |}]>
                           (objects s);
              selected := selected s; active := active s; mode := mode s |})
      | None => (Raises IndexError, s)
      end
  | None => (Raises ReferenceError, s)
  end.

Definition move_object_to_layer (obj : string) (layer : Z) : Py Scene unit :=
  let i := (layer - 1)%Z in
  let i := if decide (layer = 0%Z) then 9%Z else i in
  layers_setitem obj i true;;
  n ← layers_len obj;
  for_each (seq 0 n) (fun index =>
    if decide (Z.of_nat index ≠ i)
    then layers_setitem obj (Z.of_nat index) false
    else mret tt).

(** The layer index the editor's layer number stands for. *)
Definition layer_index (layer : Z) : nat :=
  if decide (layer = 0%Z) then 9 else Z.to_nat (layer - 1).

(** ** The UV coordinates of the cubemap proxy *)

(** The host keeps a UV coordinate in single precision: assigning a Python
    float rounds it to the nearest binary32 number. *)
Definition to_single (f : float) : float :=
  match Prim2SF f with
  | S754_finite s m e => SF2Prim (binary_round 24 128 s m e)
  | _ => f
  end.

(** [m.uv_layers.active.data]: one [uv] pair per face corner. *)
Definition UVData : Type := list (float * float).

(** [m.uv_layers.active.data[i].uv = (u, v)] *)
Definition set_uv (i : nat) (u v : float) : Py UVData unit := fun data =>
  if decide (i < length data) then
    (Returns tt, <[i := (to_single u, to_single v)]> data)
  else (Raises IndexError, data).

(** The UV block of [render_360_for_camera]; the calls before it create the
    cube in the host, the calls after it build the material and bake. *)
Definition render_360_for_camera_uv : Py UVData unit :=
  let x_pos := 0%float in
  (* +X (8, 11, 9, 10) *)
  set_uv 8 x_pos 0;;
  set_uv 11 x_pos 1;;
  let x_pos := (x_pos + 1 / 6)%float in
  set_uv 9 x_pos 0;;
  set_uv 10 x_pos 1;;
  (* -X (0, 3, 1, 2) *)
  set_uv 0 x_pos 0;;
  set_uv 3 x_pos 1;;
  let x_pos := (x_pos + 1 / 6)%float in
  set_uv 1 x_pos 0;;
  set_uv 2 x_pos 1;;
  (* +Y (4, 7, 5, 6) *)
  set_uv 4 x_pos 0;;
  set_uv 7 x_pos 1;;
  let x_pos := (x_pos + 1 / 6)%float in
  set_uv 5 x_pos 0;;
  set_uv 6 x_pos 1;;
  (* -Y (12, 15, 13, 14) *)
  set_uv 12 x_pos 0;;
  set_uv 15 x_pos 1;;
  let x_pos := (x_pos + 1 / 6)%float in
  set_uv 13 x_pos 0;;
  set_uv 14 x_pos 1;;
  (* +Z (20, 23, 21, 22) *)
  set_uv 20 x_pos 0;;
  set_uv 23 x_pos 1;;
  let x_pos := (x_pos + 1 / 6)%float in
  set_uv 21 x_pos 0;;
  set_uv 22 x_pos 1;;
  (* -Z (16, 19, 17, 18) *)
  set_uv 16 x_pos 0;;
  set_uv 19 x_pos 1;;
  let x_pos := (x_pos + 1 / 6)%float in
  set_uv 17 x_pos 0;;
  set_uv 18 x_pos 1.

(** The faces of the cube in the order of the code, and the four loop
    indices the code writes for each: the two on the left edge of the
    strip (v = 0, v = 1), then the two on the right edge. *)
Inductive face : Type := PosX | NegX | PosY | NegY | PosZ | NegZ.

Definition strip (f : face) : nat :=
  match f with
  | PosX => 0 | NegX => 1 | PosY => 2 | NegY => 3 | PosZ => 4 | NegZ => 5
  end.

Definition face_loops (f : face) : nat * nat * nat * nat :=
  match f with
  | PosX => (8, 11, 9, 10)
  | NegX => (0, 3, 1, 2)
  | PosY => (4, 7, 5, 6)
  | NegY => (12, 15, 13, 14)
  | PosZ => (20, 23, 21, 22)
  | NegZ => (16, 19, 17, 18)
  end.

Definition float_of_nat (n : nat) : float :=
  PrimFloat.of_uint63 (Uint63.of_Z (Z.of_nat n)).

(** [k / 6] as the single precision number the host stores. *)
Definition sixths (k : nat) : float := to_single (float_of_nat k / 6)%float.

(** ** Magnitudes of binary floats *)

(** The magnitude of a float that is not zero (the position of its leading
    bit) is at least [k]; infinities and NaN count as large. *)
Definition magnitude_ge (k : Z) (f : spec_float) : Prop :=
  match f with
  | S754_finite _ m e => (k <= Zdigits2 (Zpos m) + e)%Z
  | S754_infinity _ => True
  | S754_nan => True
  | S754_zero _ => False
  end.

(** ** Assumptions on the C library *)

(** The C library squares a number and its opposite to the same value. *)
Definition pow_is_even {libm : math.Libm} : Prop :=
  forall t : float,
    math.libm_pow (- t)%float 2%float = math.libm_pow t 2%float.

(** The C library reports the domain error of [acos], an argument below
    -1 or above 1, by a NaN. *)
Definition acos_domain_error {libm : math.Libm} : Prop :=
  forall t : float,
    ((t <? -1) || (1 <? t))%float = true -> is_nan (math.libm_acos t) = true.

(** ** What the decimation routine prints *)

(** The lists among what was printed, in the order of printing.
    [get_vertex_neighbors] prints one list per call, and nothing else in
    the routine prints a list. *)
Definition printed_lists (out : list printed) : list (list nat) :=
  omap (fun p => match p with PList l => Some l | _ => None end) out.

(** ** Python strings *)

Module str.

(** [s.rfind(c)] for a one-character [c]: the highest index at which [c]
    occurs in [s], or -1. *)
Fixpoint rfind (s : string) (c : ascii) : Z :=
  match s with
  | EmptyString => (-1)%Z
  | String a s' =>
      let i := rfind s' c in
      if (0 <=? i)%Z then (i + 1)%Z
      else if Ascii.eqb a c then 0%Z else (-1)%Z
  end.

(** [s[:i]] for an [i] that is not negative. *)
Definition slice_to (s : string) (i : Z) : string :=
  substring 0 (Z.to_nat i) s.

(** [s.rstrip(c)]: [s] without the [c]s at its end. *)
Fixpoint rstrip (s : string) (c : ascii) : string :=
  match s with
  | EmptyString => EmptyString
  | String a s' =>
      match rstrip s' c with
      | EmptyString =>
          if Ascii.eqb a c then EmptyString else String a EmptyString
      | t => String a t
      end
  end.

(** [c * n] *)
Fixpoint mul (c : ascii) (n : nat) : string :=
  match n with
  | O => EmptyString
  | S n' => String c (mul c n')
  end.

(** [s.replace(old, new)] for one-character [old] and [new]: every [old]
    in [s] becomes [new]. *)
Fixpoint replace (s : string) (old new : ascii) : string :=
  match s with
  | EmptyString => EmptyString
  | String a s' =>
      String (if Ascii.eqb a old then new else a) (replace s' old new)
  end.

(** [s.find(sub)]: the lowest index at which [sub] occurs in [s], or -1. *)
Definition find (s sub : string) : Z :=
  match String.index 0 sub s with
  | Some i => Z.of_nat i
  | None => (-1)%Z
  end.

End str.

(** [os.path.dirname] where Blender runs on a POSIX system
    ([posixpath.dirname]): everything up to the last slash, without the
    slashes at its end unless it consists of slashes only. *)
Module posixpath.

Definition sep : ascii := "/"%char.

Definition dirname (p : string) : string :=
  let i := (str.rfind p sep + 1)%Z in
  let head := str.slice_to p i in
  if negb (head =? "")%string
     && negb (head =? str.mul sep (String.length head))%string
  then str.rstrip head sep
  else head.

End posixpath.

(** ** The file of the exported camera proxies *)

(** The [filepath] that [render_360_images_for_cameras] hands to the FBX
    exporter: [directory + '360_cameras.fbx'], with [directory] the
    [os.path.dirname] of [bpy.data.filepath]. *)
Definition cameras_fbx_filepath (filepath : string) : string :=
  let directory := posixpath.dirname filepath in
  directory +:+ "360_cameras.fbx".

(** ** The names of a camera proxy and the cleanup *)

(** The string [render_360_for_camera] assigns to [o.name] for the camera
    named [name]: [c.name.replace('.', '_') + '_360'].  The name the
    proxy then has is the host's: the host keeps the names of its
    datablocks unique and stores the assigned string with a suffix
    ('.001') when the name is taken.  The code reads [o.name] back and
    asks for an image and a material of that name, which the host names
    in the same way. *)
Definition proxy_name (name : string) : string :=
  str.replace name "."%char "_"%char +:+ "_360".

(** [bpy.data] as far as [cleanup_360_cameras] reaches: the scene, and the
    number of users of every image and of every material, by name. *)
Record BlendData : Type := {
  scene : Scene;
  images : gmap string nat;
  materials : gmap string nat
}.

(** A call that works on the scene. *)
Definition in_scene {A} (m : Py Scene A) : Py BlendData A := fun d =>
  let r := m (scene d) in
  (r.1, {| scene := r.2; images := images d; materials := materials d |}).

(** The host method [user_clear()] of an image and of a material: the
    datablock has no users afterwards. *)
Definition image_user_clear (name : string) : Py BlendData unit :=
  modify (fun d =>
    {| scene := scene d; images := alter (fun _ => 0) name (images d);
       materials := materials d |}).

Definition material_user_clear (name : string) : Py BlendData unit :=
  modify (fun d =>
    {| scene := scene d; images := images d;
       materials := alter (fun _ => 0) name (materials d) |}).

Definition cleanup_360_cameras {vp : Viewport} : Py BlendData unit :=
  in_scene object_delete;;
  imgs ← gets (fun d => map_to_list (images d));
  for_each imgs (fun i =>
    if decide (str.find i.1 "Camera" = 0%Z) then image_user_clear i.1
    else mret tt);;
  mats ← gets (fun d => map_to_list (materials d));
  for_each mats (fun m =>
    if decide (str.find m.1 "Camera" = 0%Z) then material_user_clear m.1
    else mret tt).

(** ** The context of the 3D viewport *)

(** [for x in l: if test(x): break]: the loop variable after the loop,
    given what it was bound to before.  A Python loop leaves its variable
    bound to the last item it took. *)
Fixpoint for_break {A} (test : A -> bool) (l : list A) (var : option A)
  : option A :=
  match l with
  | [] => var
  | a :: l' => if test a then Some a else for_break test l' (Some a)
  end.

Module Region.
Record t : Type := { type : string }.
End Region.

Module Space.
Record t : Type := { type : string }.
End Space.

Module Area.
Record t : Type := {
  type : string;
  regions : list Region.t;
  spaces : list Space.t
}.
End Area.

(** A member of the context dictionary; [MOther] stands for the members
    the module does not touch (window, screen, scene, ...). *)
Inductive member : Type :=
| MArea (a : Area.t)
| MRegion (r : Region.t)
| MSpace (s : Space.t)
| MOther (name : string).

(** [bpy.context]: the areas of its screen, and the dictionary that
    [bpy.context.copy()] returns. *)
Record Context : Type := {
  screen_areas : list Area.t;
  copy : gmap string member
}.

(** The exceptions of [get_context_override_view3d]: reading a local
    variable that no loop turn has bound, and those of [exn]. *)
Inductive view3d_exn : Type :=
| UnboundLocalError (name : string)
| Exn (e : exn).

Definition get_context_override_view3d (context : Context)
  : view3d_exn + gmap string member :=
  match for_break (fun area => bool_decide (Area.type area = "VIEW_3D"))
          (screen_areas context) None with
  | None => inl (UnboundLocalError "area")
  | Some area =>
      match for_break (fun region =>
                         bool_decide (Region.type region = "WINDOW"))
              (Area.regions area) None with
      | None => inl (UnboundLocalError "region")
      | Some region =>
          let context_override_view3d := copy context in
          let context_override_view3d :=
            <["area" := MArea area]> context_override_view3d in
          let context_override_view3d :=
            <["region" := MRegion region]> context_override_view3d in
          match Area.spaces area !! 0 with
          | None => inl (Exn IndexError)
          | Some space_data =>
              inr (<["space_data" := MSpace space_data]>
                     context_override_view3d)
          end
      end
  end.

(** ** A C library to run examples with

    [pow] at exponent 2 is the rounded square, which is what a C library
    returns whenever the square is a binary64 number, as it is in every
    example below.  [acos] has the values the C standard fixes: a NaN
    outside [-1, 1], [+0] at [1]; at [-1] and [0] it is [pi] and [pi / 2]
    rounded, and between these points the first-order value. *)
Definition sample_libm : math.Libm := {|
  math.libm_pow := fun x _ => (x * x)%float;
  math.libm_acos := fun x =>
    if (x =? 1)%float then 0%float
    else if (x =? -1)%float then math.pi
    else if ((-1 <? x) && (x <? 1))%float then (math.pi / 2 - x)%float
    else nan
|}.

Definition vec (a b c : float) : Vector := {| x := a; y := b; z := c |}.

(** Three vertices on a diagonal line, joined in order. *)
Definition diagonal_line : BMesh := {|
  verts := [vec 0 0 0; vec 1 1 1; vec 3 3 3];
  edges := [(0, 1); (1, 2)];
  stdout := []
|}.

(** Three vertices on an axis, joined in order. *)
Definition axis_line : BMesh := {|
  verts := [vec 0 0 0; vec 1 0 0; vec 3 0 0];
  edges := [(0, 1); (1, 2)];
  stdout := []
|}.

(** ** Scenes and importers to run examples with *)

Definition first_layer_only : list bool := true :: replicate 19 false.

Definition mesh_object : Object :=
  {| type := "MESH"; location := vec 0 0 0; layers := first_layer_only |}.

Definition camera_object : Object :=
  {| type := "CAMERA"; location := vec 7.5 (-6.5) 5;
     layers := first_layer_only |}.

Definition empty_scene : Scene :=
  {| objects := ∅; selected := ∅; active := None; mode := "OBJECT" |}.

(** A scene with a selected cube and a camera. *)
Definition cube_and_camera : Scene :=
  {| objects := <["Cube" := mesh_object]> {["Camera" := camera_object]};
     selected := {["Cube"]}; active := Some "Cube"; mode := "OBJECT" |}.

(** An importer that finds the model and two cameras in the file, and
    leaves what it imported selected. *)
Definition agisoft_host : Host := {|
  import_scene_fbx := fun _ =>
    modify (fun s =>
      {| objects := <["Model" := mesh_object]>
                      (<["Camera" := camera_object]>
                         (<["Camera.001" := camera_object]> (objects s)));
         selected := {["Model"; "Camera"; "Camera.001"]};
         active := active s; mode := mode s |})
|}.

(** An importer that finds two models in the file. *)
Definition two_models_host : Host := {|
  import_scene_fbx := fun _ =>
    modify (fun s =>
      {| objects := <["Model" := mesh_object]>
                      (<["Model.001" := mesh_object]> (objects s));
         selected := {["Model"; "Model.001"]};
         active := active s; mode := mode s |})
|}.

(** An importer that finds one camera and no model in the file. *)
Definition camera_only_host : Host := {|
  import_scene_fbx := fun _ =>
    modify (fun s =>
      {| objects := <["Camera" := camera_object]> (objects s);
         selected := {["Camera"]};
         active := active s; mode := mode s |})
|}.

(** ** A mathutils to run examples with: the same formulas in binary64 *)

Definition dot (r c : list float) : float :=
  fold_left (fun acc p => (acc + p.1 * p.2)%float) (zip r c) 0%float.

Fixpoint columns (n : nat) (m : list (list float)) : list (list float) :=
  match n with
  | O => []
  | S n' => map (fun r => hd 0%float r) m :: columns n' (map (@tl float) m)
  end.

Definition sample_mathutils : Mathutils := {|
  Matrix := list (list float);
  vsub := fun a b => vec (x a - x b) (y a - y b) (z a - z b);
  cross := fun a b =>
    vec (y a * z b - z a * y b) (z a * x b - x a * z b)
        (x a * y b - y a * x b);
  magnitude := fun a =>
    PrimFloat.sqrt (x a * x a + y a * y a + z a * z a);
  normalized := fun a =>
    let m := PrimFloat.sqrt (x a * x a + y a * y a + z a * z a) in
    if (m =? 0)%float then vec 0 0 0 else vec (x a / m) (y a / m) (z a / m);
  Matrix_rows := fun a b c =>
    [[x a; y a; z a]; [x b; y b; z b]; [x c; y c; z c]];
  transposed := fun m => columns (length m) m;
  to_4x4 := fun m =>
    map (fun r => r ++ [0%float]) m ++ [[0; 0; 0; 1]%float];
  Translation := fun v =>
    [[1; 0; 0; x v]; [0; 1; 0; y v]; [0; 0; 1; z v]; [0; 0; 0; 1]]%float;
  Scale := fun s _ =>
    [[s; 0; 0; 0]; [0; s; 0; 0]; [0; 0; s; 0]; [0; 0; 0; 1]]%float;
  matmul := fun a b =>
    map (fun r => map (fun c => dot r c) (columns (length b) b)) a
|}.

(** A mesh whose second vertex lies on its first. *)
Definition doubled_vertex : BMesh := {|
  verts := [vec 1 2 3; vec 1 2 3; vec 4 6 3];
  edges := [(0, 1); (1, 2)];
  stdout := []
|}.

(** A right angle at vertex 1. *)
Definition corner : BMesh := {|
  verts := [vec 3 0 0; vec 0 0 0; vec 0 4 0];
  edges := [(0, 1); (1, 2)];
  stdout := []
|}.

(** ** More scenes and a screen to run examples with *)

(** A scene with a cube and no camera. *)
Definition cube_only : Scene :=
  {| objects := {["Cube" := mesh_object]}; selected := {["Cube"]};
     active := Some "Cube"; mode := "OBJECT" |}.

(** The same scene while the cube is edited. *)
Definition cube_and_camera_edit : Scene :=
  {| objects := objects cube_and_camera; selected := selected cube_and_camera;
     active := active cube_and_camera; mode := "EDIT" |}.

(** The viewport of the default scene: the first layer is shown, nothing
    is hidden, every object is selectable. *)
Definition default_viewport : Viewport :=
  {| hide := fun _ => false; hide_select := fun _ => false;
     scene_layers := first_layer_only; delete_takes_hidden := false |}.

(** The same viewport with the cube hidden. *)
Definition hidden_cube_viewport : Viewport :=
  {| hide := fun k => String.eqb k "Cube"; hide_select := fun _ => false;
     scene_layers := first_layer_only; delete_takes_hidden := false |}.

(** An importer that adds the model to what is in the scene. *)
Definition model_host : Host := {|
  import_scene_fbx := fun _ =>
    modify (fun s =>
      {| objects := <["Model" := mesh_object]> (objects s);
         selected := {["Model"]};
         active := active s; mode := mode s |})
|}.

Definition region (t : string) : Region.t := {| Region.type := t |}.
Definition space (t : string) : Space.t := {| Space.type := t |}.

(** The 3D viewport of the default layout, with its header, its tool
    shelf and its window. *)
Definition view3d_area : Area.t :=
  {| Area.type := "VIEW_3D";
     Area.regions := [region "HEADER"; region "TOOLS"; region "WINDOW"];
     Area.spaces := [space "VIEW_3D"; space "IMAGE_EDITOR"] |}.

Definition info_area : Area.t :=
  {| Area.type := "INFO";
     Area.regions := [region "HEADER"; region "WINDOW"];
     Area.spaces := [space "INFO"] |}.

Definition text_area : Area.t :=
  {| Area.type := "TEXT_EDITOR";
     Area.regions := [region "HEADER"; region "UI"];
     Area.spaces := [space "TEXT_EDITOR"] |}.

(** The context of a script that runs from the text editor. *)
Definition script_members : gmap string member :=
  <["area" := MArea text_area]>
    (<["region" := MRegion (region "WINDOW")]>
       (<["space_data" := MSpace (space "TEXT_EDITOR")]>
          {["window" := MOther "window"]})).

Definition default_layout : Context :=
  {| screen_areas := [info_area; view3d_area; text_area];
     copy := script_members |}.

(** A layout without a 3D viewport. *)
Definition scripting_layout : Context :=
  {| screen_areas := [info_area; text_area]; copy := script_members |}.

(** The datablocks after two cameras were rendered, beside an image and a
    material of the user's. *)
Definition rendered : BlendData :=
  {| scene := cube_and_camera;
     images := {["Camera_360" := 1; "Cam_2_360" := 1; "Camera ref" := 2]};
     materials := {["Camera_360" := 1; "Cam_2_360" := 1; "Wood" := 3]} |}.

(** Two vertices joined by an edge. *)
Definition single_edge : BMesh := {|
  verts := [vec 0 0 0; vec 1 0 0];
  edges := [(0, 1)];
  stdout := []
|}.

(** * Properties *)

(** ** The monad *)

Lemma bind_run {S A B} (m : Py S A) (f : A -> Py S B) (s : S) :
  (m ≫= f) s =
  match m s with
  | (Returns a, s') => f a s'
  | (Raises e, s') => (Raises e, s')
  end.
Proof. reflexivity. Qed.

Lemma readonly_ret {S A} (a : A) : readonly (mret a : Py S A).
Proof. intros s. reflexivity. Qed.

Lemma readonly_lift {S A} (o : outcome A) : readonly (lift o : Py S A).
Proof. intros s. reflexivity. Qed.

Lemma readonly_gets {S A} (f : S -> A) : readonly (gets f).
Proof. intros s. reflexivity. Qed.

Lemma readonly_bind {S A B} (m : Py S A) (f : A -> Py S B) :
  readonly m -> (forall a, readonly (f a)) -> readonly (m ≫= f).
Proof.
  intros Hm Hf s. rewrite bind_run.
  specialize (Hm s). destruct (m s) as [[a|e] s']; simpl in Hm; subst s'.
  - apply Hf.
  - reflexivity.
Qed.

Lemma readonly_co (v : BMVert) : readonly (co v).
Proof. intros bm. unfold co. destruct (verts bm !! v); reflexivity. Qed.

Create HintDb readonly.
#[global] Hint Resolve readonly_ret readonly_lift readonly_gets readonly_co
  : readonly.

Ltac readonly :=
  repeat first
    [ apply readonly_bind; [ | intros ? ]
    | solve [ auto with readonly ]
    | match goal with |- readonly (if ?b then _ else _) => destruct b end ].

(** ** The bmesh store *)

Lemma co_run (v : BMVert) (c : Vector) (bm : BMesh) :
  verts bm !! v = Some c -> co v bm = (Returns c, bm).
Proof. intros H. unfold co. rewrite H. reflexivity. Qed.

Lemma set_co_run (v : BMVert) (c c' : Vector) (bm : BMesh) :
  verts bm !! v = Some c' ->
  set_co v c bm =
  (Returns tt, {| verts := <[v := c]> (verts bm); edges := edges bm;
                  stdout := stdout bm |}).
Proof. intros H. unfold set_co. rewrite H. reflexivity. Qed.

Lemma print_run (p : printed) (bm : BMesh) :
  print p bm =
  (Returns tt, {| verts := verts bm; edges := edges bm;
                  stdout := stdout bm ++ [p] |}).
Proof. reflexivity. Qed.

Section decimate_facts.
Context {libm : math.Libm}.

Lemma readonly_get_distance_between_points (v0 v1 : BMVert) :
  readonly (get_distance_between_points v0 v1).
Proof. unfold get_distance_between_points. readonly. Qed.

Lemma readonly_get_planar_angle (v0 v1 v2 : BMVert) :
  readonly (get_planar_angle v0 v1 v2).
Proof.
  unfold get_planar_angle.
  pose proof readonly_get_distance_between_points.
  readonly; auto.
Qed.

(** A distance that was computed was computed from two vertices of the
    mesh. *)
Lemma get_distance_between_points_returns (v0 v1 : BMVert) bm d bm' :
  get_distance_between_points v0 v1 bm = (Returns d, bm') ->
  is_Some (verts bm !! v0) /\ is_Some (verts bm !! v1).
Proof.
  unfold get_distance_between_points. rewrite bind_run. unfold co at 1.
  destruct (verts bm !! v0) as [c0|] eqn:E0; [ | discriminate ].
  rewrite bind_run. unfold co at 1.
  destruct (verts bm !! v1) as [c1|] eqn:E1; [ | discriminate ].
  intros _. split; eauto.
Qed.

Lemma get_planar_angle_returns (v0 v1 v2 : BMVert) bm a bm' :
  get_planar_angle v0 v1 v2 bm = (Returns a, bm') ->
  bm' = bm /\ is_Some (verts bm !! v0) /\ is_Some (verts bm !! v1)
  /\ is_Some (verts bm !! v2).
Proof.
  intros H.
  pose proof (readonly_get_planar_angle v0 v1 v2 bm) as Hr.
  rewrite H in Hr. simpl in Hr. subst bm'. split; [ reflexivity | ].
  unfold get_planar_angle in H. rewrite bind_run in H.
  pose proof (readonly_get_distance_between_points v0 v2 bm) as R1.
  destruct (get_distance_between_points v0 v2 bm) as [[d1|e] s1] eqn:E1;
    [ | discriminate ].
  simpl in R1. subst s1.
  apply get_distance_between_points_returns in E1 as [H0 H2].
  rewrite bind_run in H.
  pose proof (readonly_get_distance_between_points v0 v1 bm) as R2.
  destruct (get_distance_between_points v0 v1 bm) as [[d2|e] s2] eqn:E2;
    [ | discriminate ].
  apply get_distance_between_points_returns in E2 as [_ H1].
  auto.
Qed.

(** C1. [collapse_points_on_line] copies the coordinates of [v0] into [v1]
    exactly when the angle at [v1] that [get_planar_angle] computes is, in
    degrees, strictly greater than the threshold: then the call returns,
    [v1] has the coordinates of [v0] and every other vertex keeps its own;
    in every other case (the angle is not greater, or computing it raised)
    the coordinates of all vertices, [v1] among them, are what they were. *)
Theorem collapse_points_on_line_collapses_iff
    (v0 v1 v2 : BMVert) (angle : float) (bm : BMesh) :
  let r := collapse_points_on_line v0 v1 v2 angle bm in
  (angle_exceeds v0 v1 v2 angle bm ->
     r.1 = Returns tt
     /\ is_Some (verts bm !! v0)
     /\ verts r.2 !! v1 = verts bm !! v0
     /\ (forall j, j <> v1 -> verts r.2 !! j = verts bm !! j))
  /\ (~ angle_exceeds v0 v1 v2 angle bm -> verts r.2 = verts bm)
  /\ edges r.2 = edges bm.
Proof.
  unfold angle_exceeds, collapse_points_on_line. cbv zeta.
  rewrite bind_run.
  destruct (get_planar_angle v0 v1 v2 bm) as [[a|e] bm1] eqn:Ea; simpl.
  - apply get_planar_angle_returns in Ea as (-> & [c0 H0] & [c1 H1] & _).
    rewrite bind_run.
    destruct (angle <? math.degrees a)%float eqn:Hlt.
    + rewrite print_run, bind_run, print_run, bind_run.
      erewrite co_run by exact H0.
      erewrite set_co_run by exact H1. simpl.
      split; [ | split ]; [ | | reflexivity ].
      * intros _. split; [ reflexivity | ]. split; [ eauto | ]. split.
        -- rewrite H0. apply list_lookup_insert_eq.
           apply lookup_lt_Some in H1. exact H1.
        -- intros j Hj. apply list_lookup_insert_ne. congruence.
      * intros Hn. exfalso. apply Hn. exists a.
        split; [ reflexivity | exact Hlt ].
    + rewrite print_run. simpl. split; [ | split ]; [ | | reflexivity ].
      * intros (a' & Heq & Hlt'). injection Heq as <-. congruence.
      * reflexivity.
  - pose proof (readonly_get_planar_angle v0 v1 v2 bm) as Hr.
    rewrite Ea in Hr. simpl in Hr. subst bm1.
    split; [ | split ]; [ | reflexivity | reflexivity ].
    intros (a' & Heq & _). discriminate.
Qed.

End decimate_facts.

(** ** Binary floating-point arithmetic

    What the decimation routine needs from IEEE-754: a square root that is
    not zero is at least [2^-537], so twice the product of two of them does
    not underflow to zero. *)

Section binary_digits.
Local Open Scope Z_scope.

Lemma digits2_pos_size (p : positive) : digits2_pos p = Pos.size p.
Proof. induction p; simpl; congruence. Qed.

Lemma Zdigits2_log2 (m : Z) : 0 < m -> Zdigits2 m = Z.log2 m + 1.
Proof.
  destruct m as [|p|p]; try lia. intros _. simpl.
  rewrite digits2_pos_size. destruct p; simpl; lia.
Qed.

Lemma shr_m_shr_1 (mrs : shr_record) :
  0 <= shr_m mrs -> shr_m (shr_1 mrs) = Z.div2 (shr_m mrs).
Proof.
  destruct mrs as [m r s]. simpl. intros Hm.
  destruct m as [|[p|p|]|p]; try reflexivity; lia.
Qed.

Lemma shr_m_iter_pos (p : positive) (mrs : shr_record) :
  0 <= shr_m mrs ->
  shr_m (SpecFloat.iter_pos shr_1 p mrs) = Z.shiftr (shr_m mrs) (Zpos p).
Proof.
  revert mrs. induction p as [p IH|p IH|]; intros mrs Hm;
    simpl SpecFloat.iter_pos.
  - assert (H1 : 0 <= shr_m (shr_1 mrs)).
    { rewrite shr_m_shr_1 by assumption. apply Z.div2_nonneg. assumption. }
    assert (H2 : 0 <= shr_m (SpecFloat.iter_pos shr_1 p (shr_1 mrs))).
    { rewrite IH by assumption. apply Z.shiftr_nonneg. assumption. }
    rewrite IH by assumption. rewrite IH by assumption.
    rewrite shr_m_shr_1 by assumption.
    rewrite Z.div2_spec. rewrite !Z.shiftr_shiftr by lia.
    f_equal. lia.
  - assert (H2 : 0 <= shr_m (SpecFloat.iter_pos shr_1 p mrs)).
    { rewrite IH by assumption. apply Z.shiftr_nonneg. assumption. }
    rewrite IH by assumption. rewrite IH by assumption.
    rewrite !Z.shiftr_shiftr by lia. f_equal. lia.
  - rewrite shr_m_shr_1 by assumption. apply Z.div2_spec.
Qed.

Lemma shiftr_pos_digits (m n : Z) :
  0 < m -> 0 <= n -> n < Zdigits2 m ->
  0 < Z.shiftr m n /\ Zdigits2 (Z.shiftr m n) = Zdigits2 m - n.
Proof.
  intros Hm Hn Hd. rewrite Zdigits2_log2 in Hd by assumption.
  assert (Hpos : 0 < Z.shiftr m n).
  { rewrite Z.shiftr_div_pow2 by assumption.
    apply Z.div_str_pos. split; [ apply Z.pow_pos_nonneg; lia | ].
    transitivity (2 ^ Z.log2 m).
    - apply Z.pow_le_mono_r; lia.
    - apply Z.log2_spec. assumption. }
  split; [ assumption | ].
  rewrite !Zdigits2_log2 by assumption.
  rewrite Z.log2_shiftr by assumption. lia.
Qed.

Section rounding.
Variables prec emax : Z.
Hypothesis prec_pos : 0 < prec.

Lemma shr_m_shr_record_of_loc m l : shr_m (shr_record_of_loc m l) = m.
Proof. destruct l as [|[]]; reflexivity. Qed.

(** Shifting to the canonical exponent keeps a mantissa above the smallest
    subnormal positive and keeps its magnitude. *)
Lemma shr_fexp_magnitude (m e : Z) (l : SpecFloat.location) :
  0 < m -> SpecFloat.emin prec emax < Zdigits2 m + e ->
  let '(mrs, e1) := shr_fexp prec emax m e l in
  0 < shr_m mrs /\ Zdigits2 (shr_m mrs) + e1 = Zdigits2 m + e.
Proof.
  intros Hm He. unfold shr_fexp, shr.
  destruct (fexp prec emax (Zdigits2 m + e) - e) as [|p|p] eqn:En.
  - rewrite shr_m_shr_record_of_loc. auto.
  - rewrite shr_m_iter_pos by (rewrite shr_m_shr_record_of_loc; lia).
    rewrite shr_m_shr_record_of_loc.
    unfold SpecFloat.fexp, SpecFloat.emin in *.
    destruct (shiftr_pos_digits m (Zpos p)) as [H1 H2]; lia.
  - rewrite shr_m_shr_record_of_loc. auto.
Qed.

Lemma round_nearest_even_bounds (m : Z) (l : SpecFloat.location) :
  m <= round_nearest_even m l <= m + 1.
Proof. destruct l as [|[]]; simpl; try lia. destruct (Z.even m); lia. Qed.

Lemma Zdigits2_mono (a b : Z) : 0 < a -> a <= b -> Zdigits2 a <= Zdigits2 b.
Proof.
  intros Ha Hab. rewrite !Zdigits2_log2 by lia.
  apply Z.add_le_mono_r. apply Z.log2_le_mono. assumption.
Qed.

Lemma binary_round_aux_magnitude
    (sx : bool) (mx ex : Z) (lx : SpecFloat.location) :
  0 < mx -> SpecFloat.emin prec emax < Zdigits2 mx + ex ->
  magnitude_ge (Zdigits2 mx + ex) (binary_round_aux prec emax sx mx ex lx).
Proof.
  intros Hm He. unfold binary_round_aux.
  pose proof (shr_fexp_magnitude mx ex lx Hm He) as H1.
  destruct (shr_fexp prec emax mx ex lx) as [mrs1 e1]. destruct H1 as [P1 D1].
  set (m2 := round_nearest_even (shr_m mrs1) (loc_of_shr_record mrs1)).
  pose proof (round_nearest_even_bounds (shr_m mrs1) (loc_of_shr_record mrs1))
    as Hr. fold m2 in Hr.
  assert (Hd : Zdigits2 (shr_m mrs1) <= Zdigits2 m2)
    by (apply Zdigits2_mono; lia).
  assert (P2 : 0 < m2) by lia.
  assert (E2 : SpecFloat.emin prec emax < Zdigits2 m2 + e1) by lia.
  pose proof (shr_fexp_magnitude m2 e1 loc_Exact P2 E2) as H2.
  destruct (shr_fexp prec emax m2 e1 loc_Exact) as [mrs2 e2].
  destruct H2 as [P3 D3].
  destruct (shr_m mrs2) as [|m|m]; try lia.
  destruct (e2 <=? emax - prec); unfold magnitude_ge; [ lia | exact I ].
Qed.

Lemma SFmul_magnitude (s1 s2 : bool) (m1 m2 : positive) (e1 e2 : Z) :
  SpecFloat.emin prec emax
  < (Zdigits2 (Zpos m1) + e1) + (Zdigits2 (Zpos m2) + e2) - 1 ->
  magnitude_ge ((Zdigits2 (Zpos m1) + e1) + (Zdigits2 (Zpos m2) + e2) - 1)
    (SFmul prec emax (S754_finite s1 m1 e1) (S754_finite s2 m2 e2)).
Proof.
  intros H. unfold SFmul.
  assert (Hd : Zdigits2 (Zpos m1) + Zdigits2 (Zpos m2) - 1
               <= Zdigits2 (Zpos (m1 * m2))).
  { rewrite !Zdigits2_log2 by lia. rewrite Pos2Z.inj_mul.
    pose proof (Z.log2_mul_below (Zpos m1) (Zpos m2)). lia. }
  pose proof (binary_round_aux_magnitude (xorb s1 s2) (Zpos (m1 * m2))
                (e1 + e2) loc_Exact) as Hb.
  assert (SpecFloat.emin prec emax < Zdigits2 (Zpos (m1 * m2)) + (e1 + e2))
    by lia.
  specialize (Hb ltac:(lia) ltac:(lia)).
  destruct (binary_round_aux prec emax (xorb s1 s2) (Zpos (m1 * m2)) (e1 + e2)
              loc_Exact); unfold magnitude_ge in *; try exact I; try lia.
Qed.

Hypothesis emin_nonpos : SpecFloat.emin prec emax <= 0.

Lemma magnitude_ge_weaken (k k' : Z) (f : spec_float) :
  k <= k' -> magnitude_ge k' f -> magnitude_ge k f.
Proof. intros Hk. destruct f; simpl; auto. lia. Qed.

Lemma pow2_le_sqrt (k n : Z) : 0 <= k -> 2 ^ (2 * k) <= n -> 2 ^ k <= Z.sqrt n.
Proof.
  intros Hk Hn.
  assert (0 < 2 ^ (2 * k)) by (apply Z.pow_pos_nonneg; lia).
  assert (H0 : 0 <= 2 ^ k) by (apply Z.pow_nonneg; lia).
  apply (proj1 (Z.sqrt_le_square n (2 ^ k) ltac:(lia) H0)).
  rewrite <- Z.pow_add_r by lia. replace (k + k) with (2 * k) by lia.
  assumption.
Qed.

Lemma sqrt_shift (m : positive) (s : Z) :
  0 <= s ->
  match s with
  | Z0 => Zpos m
  | Zpos _ => Z.shiftl (Zpos m) s
  | Zneg _ => 0
  end = Zpos m * 2 ^ s.
Proof.
  intros Hs. destruct s as [|p|p].
  - rewrite Z.pow_0_r. lia.
  - apply Z.shiftl_mul_pow2. lia.
  - lia.
Qed.

(** The square root of a positive float whose magnitude is above that of
    the smallest subnormal has at least half that magnitude. *)
Lemma SFsqrt_magnitude (mx : positive) (ex : Z) :
  SpecFloat.emin prec emax < Zdigits2 (Zpos mx) + ex ->
  magnitude_ge (Z.div2 (Zdigits2 (Zpos mx) + ex - 1) + 1)
    (SFsqrt prec emax (S754_finite false mx ex)).
Proof.
  intros Hv. unfold SFsqrt, SFsqrt_core_binary.
  set (d := Zdigits2 (Zpos mx)) in *.
  set (e' := Z.min (fexp prec emax (Z.div2 (d + ex + 1))) (Z.div2 ex)).
  set (s := ex - 2 * e').
  pose proof (Z.div2_odd ex) as Hex.
  assert (Hb : 0 <= Z.b2z (Z.odd ex) <= 1) by (destruct (Z.odd ex); simpl; lia).
  assert (Hs : 0 <= s) by (unfold s, e'; lia).
  set (m' := match s with
             | Z0 => Zpos mx
             | Zpos _ => Z.shiftl (Zpos mx) s
             | Zneg _ => 0
             end).
  assert (Hm' : m' = Zpos mx * 2 ^ s) by (apply sqrt_shift; assumption).
  clearbody m'.
  pose proof (Z.sqrtrem_sqrt m') as Hq.
  destruct (Z.sqrtrem m') as [q r]. simpl in Hq. subst q.
  set (l := if r =? 0 then loc_Exact
            else loc_Inexact (if r <=? Z.sqrt m' then Lt else Gt)).
  clearbody l.
  assert (Hd : d = Z.log2 (Zpos mx) + 1) by (apply Zdigits2_log2; lia).
  pose proof (Z.log2_spec (Zpos mx) ltac:(lia)) as [Hlo _].
  pose proof (Z.log2_nonneg (Zpos mx)) as Hl0.
  set (k := Z.div2 (d - 1 + s)).
  pose proof (Z.div2_odd (d - 1 + s)) as Hk. fold k in Hk.
  assert (Hkb : 0 <= Z.b2z (Z.odd (d - 1 + s)) <= 1)
    by (destruct (Z.odd (d - 1 + s)); simpl; lia).
  assert (Hk0 : 0 <= k) by lia.
  assert (Hpow : 2 ^ (2 * k) <= m').
  { rewrite Hm'. transitivity (2 ^ (d - 1 + s)).
    - apply Z.pow_le_mono_r; lia.
    - rewrite Z.pow_add_r by lia.
      apply Z.mul_le_mono_nonneg_r; [ apply Z.pow_nonneg; lia | ].
      replace (d - 1) with (Z.log2 (Zpos mx)) by lia. assumption. }
  pose proof (pow2_le_sqrt k m' Hk0 Hpow) as Hsq.
  assert (Hqpos : 0 < Z.sqrt m').
  { assert (0 < 2 ^ k) by (apply Z.pow_pos_nonneg; lia). lia. }
  assert (Hlog : k <= Z.log2 (Z.sqrt m')) by (apply Z.log2_le_pow2; lia).
  pose proof (Zdigits2_log2 (Z.sqrt m') Hqpos) as Hdq.
  pose proof (Z.div2_odd (d + ex - 1)) as HL.
  assert (HLb : 0 <= Z.b2z (Z.odd (d + ex - 1)) <= 1)
    by (destruct (Z.odd (d + ex - 1)); simpl; lia).
  assert (Hge : Z.div2 (d + ex - 1) + 1 <= Zdigits2 (Z.sqrt m') + e')
    by (unfold s in *; lia).
  apply (magnitude_ge_weaken _ _ _ Hge).
  apply binary_round_aux_magnitude; [ assumption | lia ].
Qed.

Lemma SFmul_magnitude_ge (k1 k2 : Z) (f1 f2 : spec_float) :
  magnitude_ge k1 f1 -> magnitude_ge k2 f2 ->
  SpecFloat.emin prec emax < k1 + k2 - 1 ->
  magnitude_ge (k1 + k2 - 1) (SFmul prec emax f1 f2).
Proof.
  intros H1 H2 Hk.
  destruct f1 as [s1|s1| |s1 m1 e1], f2 as [s2|s2| |s2 m2 e2];
    try contradiction; try exact I.
  unfold magnitude_ge in H1, H2.
  eapply magnitude_ge_weaken; [ | apply SFmul_magnitude; lia ]. lia.
Qed.

Lemma magnitude_ge_nonzero (k : Z) (f : spec_float) (s : bool) :
  magnitude_ge k f -> SFeqb f (S754_zero s) = false.
Proof.
  destruct f as [?|[]| |[] ? ?]; simpl; intros H; try contradiction;
    reflexivity.
Qed.

End rounding.

(** ** binary64 *)

Lemma valid_binary_magnitude (s : bool) (m : positive) (e : Z) :
  valid_binary (S754_finite s m e) = true ->
  SpecFloat.emin prec emax < Zdigits2 (Zpos m) + e.
Proof.
  simpl. unfold bounded, canonical_mantissa, SpecFloat.fexp.
  intros H. apply andb_prop in H as [H _]. apply Z.eqb_eq in H.
  change (SpecFloat.emin prec emax) with (-1074) in *.
  change (Zdigits2 (Zpos m)) with (Zpos (digits2_pos m)). lia.
Qed.

Lemma SF64sqrt_magnitude (f : spec_float) :
  valid_binary f = true ->
  match SF64sqrt f with
  | S754_zero _ => True
  | r => magnitude_ge (-536) r
  end.
Proof.
  intros Hv. destruct f as [s|[]| |[] m e]; try exact I.
  pose proof (valid_binary_magnitude _ _ _ Hv) as Hm.
  pose proof (SFsqrt_magnitude prec emax ltac:(reflexivity) ltac:(discriminate)
                m e Hm) as H.
  change (SpecFloat.emin prec emax) with (-1074) in Hm.
  assert (Hk : -536 <= Z.div2 (Zdigits2 (Zpos m) + e - 1) + 1).
  { pose proof (Z.div2_odd (Zdigits2 (Zpos m) + e - 1)).
    destruct (Z.odd (Zdigits2 (Zpos m) + e - 1)); simpl Z.b2z in *; lia. }
  apply (magnitude_ge_weaken _ _ _ Hk) in H.
  unfold SF64sqrt.
  destruct (SFsqrt prec emax (S754_finite false m e)); try exact I; exact H.
Qed.

(** The divisor of [get_planar_angle]: twice the product of two square
    roots that are not zero is not zero, in binary64 arithmetic. *)
Lemma sqrt_product_nonzero (s t : float) :
  (PrimFloat.sqrt s =? 0)%float = false ->
  (PrimFloat.sqrt t =? 0)%float = false ->
  (2 * PrimFloat.sqrt s * PrimFloat.sqrt t =? 0)%float = false.
Proof.
  rewrite !FloatAxioms.eqb_spec, !FloatAxioms.mul_spec, !FloatAxioms.sqrt_spec.
  change (Prim2SF 0) with (S754_zero false).
  change (Prim2SF 2) with (S754_finite false 4503599627370496 (-51)).
  pose proof (SF64sqrt_magnitude _ (Prim2SF_valid s)) as Hb.
  pose proof (SF64sqrt_magnitude _ (Prim2SF_valid t)) as Hc.
  intros Nb Nc.
  assert (Mb : magnitude_ge (-536) (SF64sqrt (Prim2SF s))).
  { destruct (SF64sqrt (Prim2SF s)); try exact Hb. discriminate. }
  assert (Mc : magnitude_ge (-536) (SF64sqrt (Prim2SF t))).
  { destruct (SF64sqrt (Prim2SF t)); try exact Hc. discriminate. }
  assert (M2 : magnitude_ge 2 (S754_finite false 4503599627370496 (-51)))
    by (simpl; lia).
  pose proof (SFmul_magnitude_ge prec emax ltac:(reflexivity) _ _ _ _ M2 Mb
                ltac:(reflexivity)) as M2b.
  pose proof (SFmul_magnitude_ge prec emax ltac:(reflexivity) _ _ _ _ M2b Mc
                ltac:(reflexivity)) as M2bc.
  apply (magnitude_ge_nonzero _ _ _ M2bc).
Qed.

Lemma is_finite_Prim2SF (f : float) :
  is_finite f = true ->
  match Prim2SF f with
  | S754_zero _ | S754_finite _ _ _ => True
  | _ => False
  end.
Proof.
  unfold is_finite, Prim2SF. intros H.
  apply negb_true_iff, orb_false_iff in H as [Hn Hi].
  rewrite Hn, Hi. destruct (is_zero f); [ exact I | ].
  destruct (Z.frexp f) as [r ex].
  destruct (shr_fexp prec emax _ _ _) as [mrs e'].
  destruct (shr_m mrs); exact I.
Qed.

Lemma sub_self_finite (f : float) :
  is_finite f = true -> (f - f)%float = 0%float.
Proof.
  intros H. apply Prim2SF_inj. rewrite FloatAxioms.sub_spec.
  change (Prim2SF 0) with (S754_zero false).
  pose proof (is_finite_Prim2SF f H) as Hf.
  destruct (Prim2SF f) as [[]|?| |s m e]; try contradiction; try reflexivity.
  unfold SF64sub, SFsub.
  unfold shl_align. rewrite Z.min_id, Z.sub_diag. simpl fst.
  reflexivity.
Qed.


End binary_digits.

(** ** The guard of [get_planar_angle] *)

Section planar_angle.
Context {libm : math.Libm}.

Lemma math_1_returns (func : float -> float) (b : bool) (x r : float) :
  math.math_1 func b x = Returns r -> r = func x.
Proof.
  unfold math.math_1. intros H.
  repeat case_match; congruence.
Qed.

Lemma math_1_raises (func : float -> float) (b : bool) (x : float) (e : exn) :
  math.math_1 func b x = Raises e ->
  e = ValueError "math domain error" \/ e = OverflowError "math range error".
Proof.
  unfold math.math_1. intros H.
  repeat case_match; simplify_eq; auto.
Qed.

Lemma pow2_raises (x : float) (e : exn) :
  math.pow2 x = Raises e ->
  e = ValueError "math domain error" \/ e = OverflowError "math range error".
Proof.
  unfold math.pow2. intros H.
  repeat case_match; simplify_eq; auto.
Qed.

(** The two geometric functions read the store and compute; written
    without the store they are the following. *)
Lemma get_distance_between_points_run (v0 v1 : BMVert) (bm : BMesh) :
  get_distance_between_points v0 v1 bm =
  (match verts bm !! v0, verts bm !! v1 with
   | Some c0, Some c1 =>
       dx ← math.pow2 (x c0 - x c1)%float;
       dy ← math.pow2 (y c0 - y c1)%float;
       dz ← math.pow2 (z c0 - z c1)%float;
       math.sqrt (dx + dy + dz)%float
   | _, _ => Raises ReferenceError
   end, bm).
Proof.
  unfold get_distance_between_points. rewrite bind_run. unfold co at 1.
  destruct (verts bm !! v0) as [c0|]; [ | reflexivity ].
  rewrite bind_run. unfold co at 1.
  destruct (verts bm !! v1) as [c1|]; [ | reflexivity ].
  cbv [mbind Py_bind outcome_bind lift].
  destruct (math.pow2 (x c0 - x c1)); [ | reflexivity ].
  destruct (math.pow2 (y c0 - y c1)); [ | reflexivity ].
  destruct (math.pow2 (z c0 - z c1)); reflexivity.
Qed.

Lemma get_planar_angle_run (v0 v1 v2 : BMVert) (bm : BMesh) :
  get_planar_angle v0 v1 v2 bm =
  (a ← (get_distance_between_points v0 v2 bm).1;
   b ← (get_distance_between_points v0 v1 bm).1;
   c ← (get_distance_between_points v1 v2 bm).1;
   if ((b =? 0) || (c =? 0))%float then Returns 0%float
   else
     cos_a ← truediv (b * b + c * c - a * a)%float (2 * b * c)%float;
     math.acos cos_a, bm).
Proof.
  unfold get_planar_angle.
  rewrite bind_run, (get_distance_between_points_run v0 v2). simpl.
  destruct (match verts bm !! v0 with Some _ => _ | None => _ end)
    as [a|e]; [ | reflexivity ].
  rewrite bind_run, (get_distance_between_points_run v0 v1). simpl.
  destruct (match verts bm !! v0 with Some _ => _ | None => _ end)
    as [b|e]; [ | reflexivity ].
  rewrite bind_run, (get_distance_between_points_run v1 v2). simpl.
  destruct (match verts bm !! v1 with Some _ => _ | None => _ end)
    as [c|e]; [ | reflexivity ].
  cbv [mbind Py_bind outcome_bind lift mret Py_ret].
  destruct ((b =? 0) || (c =? 0))%float; [ reflexivity | ].
  destruct (truediv _ _); reflexivity.
Qed.

(** A distance is a square root. *)
Lemma get_distance_between_points_sqrt
    (v0 v1 : BMVert) (bm : BMesh) (d : float) :
  (get_distance_between_points v0 v1 bm).1 = Returns d ->
  exists s, d = PrimFloat.sqrt s.
Proof.
  rewrite get_distance_between_points_run. simpl.
  destruct (verts bm !! v0) as [c0|]; [ | discriminate ].
  destruct (verts bm !! v1) as [c1|]; [ | discriminate ].
  cbv [mbind outcome_bind].
  destruct (math.pow2 (x c0 - x c1)) as [dx|]; [ | discriminate ].
  destruct (math.pow2 (y c0 - y c1)) as [dy|]; [ | discriminate ].
  destruct (math.pow2 (z c0 - z c1)) as [dz|]; [ | discriminate ].
  intros H. exists (dx + dy + dz)%float. exact (math_1_returns _ _ _ _ H).
Qed.

Lemma get_distance_between_points_raises
    (v0 v1 : BMVert) (bm : BMesh) (e : exn) :
  (get_distance_between_points v0 v1 bm).1 = Raises e ->
  e = ReferenceError \/ e = ValueError "math domain error"
  \/ e = OverflowError "math range error".
Proof.
  rewrite get_distance_between_points_run. simpl.
  destruct (verts bm !! v0) as [c0|]; [ | intros [= <-]; auto ].
  destruct (verts bm !! v1) as [c1|]; [ | intros [= <-]; auto ].
  cbv [mbind outcome_bind].
  destruct (math.pow2 (x c0 - x c1)) as [dx|] eqn:Ex;
    [ | intros [= <-]; apply pow2_raises in Ex; tauto ].
  destruct (math.pow2 (y c0 - y c1)) as [dy|] eqn:Ey;
    [ | intros [= <-]; apply pow2_raises in Ey; tauto ].
  destruct (math.pow2 (z c0 - z c1)) as [dz|] eqn:Ez;
    [ | intros [= <-]; apply pow2_raises in Ez; tauto ].
  intros H. apply math_1_raises in H. tauto.
Qed.

End planar_angle.

(** ** Coincident vertices *)

Section coincident.
Context {libm : math.Libm}.

(** The distance between two vertices that have the same finite
    coordinates is zero, for a C library whose [pow] maps 0 to 0. *)
Lemma get_distance_between_points_coincident
    (v0 v1 : BMVert) (bm : BMesh) (p : Vector) :
  math.libm_pow 0%float 2%float = 0%float ->
  is_finite (x p) && is_finite (y p) && is_finite (z p) = true ->
  verts bm !! v0 = Some p -> verts bm !! v1 = Some p ->
  get_distance_between_points v0 v1 bm = (Returns 0%float, bm).
Proof.
  intros Hpow Hfin H0 H1.
  apply andb_prop in Hfin as [Hfin Hz]. apply andb_prop in Hfin as [Hx Hy].
  rewrite get_distance_between_points_run, H0, H1.
  rewrite !sub_self_finite by assumption.
  assert (Hp : math.pow2 0%float = Returns 0%float).
  { unfold math.pow2. change (is_nan 0) with false.
    change (is_infinity 0) with false. cbv iota zeta. rewrite Hpow.
    reflexivity. }
  rewrite Hp. reflexivity.
Qed.

(** The distance depends on the coordinates only. *)
Lemma get_distance_between_points_same_co
    (v0 v0' v1 v1' : BMVert) (bm : BMesh) :
  verts bm !! v0 = verts bm !! v0' -> verts bm !! v1 = verts bm !! v1' ->
  get_distance_between_points v0 v1 bm = get_distance_between_points v0' v1' bm.
Proof.
  intros H0 H1. rewrite !get_distance_between_points_run, H0, H1.
  reflexivity.
Qed.

(** When the middle vertex has the coordinates of [v0] or of [v2] and the
    distance from [v0] to [v2] can be computed, the angle is 0. *)
Lemma get_planar_angle_coincident
    (v0 v1 v2 : BMVert) (bm : BMesh) (p : Vector) :
  math.libm_pow 0%float 2%float = 0%float ->
  is_finite (x p) && is_finite (y p) && is_finite (z p) = true ->
  verts bm !! v1 = Some p ->
  verts bm !! v0 = Some p \/ verts bm !! v2 = Some p ->
  returned (get_distance_between_points v0 v2 bm).1 ->
  get_planar_angle v0 v1 v2 bm = (Returns 0%float, bm).
Proof.
  intros Hpow Hfin H1 Hco [a Ha].
  rewrite get_planar_angle_run, Ha.
  destruct Hco as [H0|H2].
  - rewrite (get_distance_between_points_coincident v0 v1 bm p) by assumption.
    rewrite (get_distance_between_points_same_co v1 v0 v2 v2 bm)
      by congruence.
    rewrite Ha. reflexivity.
  - rewrite (get_distance_between_points_same_co v0 v0 v1 v2 bm)
      by congruence.
    rewrite Ha.
    rewrite (get_distance_between_points_coincident v1 v2 bm p) by assumption.
    cbv [mbind outcome_bind fst]. rewrite orb_true_r. reflexivity.
Qed.

(** C8. With [a], [b], [c] the three distances [get_planar_angle]
    computes: when [b] or [c] is zero the function returns 0 and the
    quotient is not evaluated; otherwise the divisor [2*b*c] is not zero
    and the result is the arc cosine of the quotient.  Whatever the
    vertices, the call never raises [ZeroDivisionError].  The distance is
    zero, and the angle 0, in particular when the middle vertex has the
    finite coordinates of [v0] or of [v2] (for a C library whose [pow]
    maps 0 to 0, as the C standard has it). *)
Theorem get_planar_angle_never_divides_by_zero
    (v0 v1 v2 : BMVert) (bm : BMesh) :
  (forall a b c : float,
     (get_distance_between_points v0 v2 bm).1 = Returns a ->
     (get_distance_between_points v0 v1 bm).1 = Returns b ->
     (get_distance_between_points v1 v2 bm).1 = Returns c ->
     if ((b =? 0) || (c =? 0))%float
     then get_planar_angle v0 v1 v2 bm = (Returns 0%float, bm)
     else (2 * b * c =? 0)%float = false
          /\ get_planar_angle v0 v1 v2 bm =
             (math.acos ((b * b + c * c - a * a) / (2 * b * c))%float, bm))
  /\ (forall msg : string,
        (get_planar_angle v0 v1 v2 bm).1 <> Raises (ZeroDivisionError msg))
  /\ (forall p : Vector,
        math.libm_pow 0%float 2%float = 0%float ->
        is_finite (x p) && is_finite (y p) && is_finite (z p) = true ->
        verts bm !! v1 = Some p ->
        verts bm !! v0 = Some p \/ verts bm !! v2 = Some p ->
        returned (get_distance_between_points v0 v2 bm).1 ->
        get_planar_angle v0 v1 v2 bm = (Returns 0%float, bm)).
Proof.
  assert (Hdiv : forall a b c : float,
    (exists s, b = PrimFloat.sqrt s) -> (exists t, c = PrimFloat.sqrt t) ->
    ((b =? 0) || (c =? 0))%float = false ->
    truediv (b * b + c * c - a * a)%float (2 * b * c)%float =
    Returns ((b * b + c * c - a * a) / (2 * b * c))%float
    /\ (2 * b * c =? 0)%float = false).
  { intros a b c [s ->] [t ->] Hz.
    apply orb_false_iff in Hz as [Hs Ht].
    pose proof (sqrt_product_nonzero s t Hs Ht) as Hn.
    unfold truediv. rewrite Hn. auto. }
  split; [ | split ].
  3:{ intros p. apply get_planar_angle_coincident. }
  - intros a b c Ha Hb Hc. rewrite get_planar_angle_run, Ha, Hb, Hc.
    cbv [mbind outcome_bind].
    destruct ((b =? 0) || (c =? 0))%float eqn:Hz; [ reflexivity | ].
    apply get_distance_between_points_sqrt in Hb, Hc.
    destruct (Hdiv a b c Hb Hc Hz) as [-> Hn]. auto.
  - intros msg. rewrite get_planar_angle_run. simpl.
    destruct (get_distance_between_points v0 v2 bm).1 as [a|e] eqn:Ha.
    2:{ apply get_distance_between_points_raises in Ha.
        simpl. intros [= ->]. intuition discriminate. }
    destruct (get_distance_between_points v0 v1 bm).1 as [b|e] eqn:Hb.
    2:{ apply get_distance_between_points_raises in Hb.
        simpl. intros [= ->]. intuition discriminate. }
    destruct (get_distance_between_points v1 v2 bm).1 as [c|e] eqn:Hc.
    2:{ apply get_distance_between_points_raises in Hc.
        simpl. intros [= ->]. intuition discriminate. }
    cbv [mbind outcome_bind].
    destruct ((b =? 0) || (c =? 0))%float eqn:Hz; [ discriminate | ].
    apply get_distance_between_points_sqrt in Hb, Hc.
    destruct (Hdiv a b c Hb Hc Hz) as [-> Hn].
    intros H. apply math_1_raises in H. intuition discriminate.
Qed.

End coincident.

(** ** The loop of [collapse_edges_in_order] *)

Section collapse_loop.
Context {libm : math.Libm}.

(** [collapse_points_on_line] writes to [v1] and to nothing else. *)
Lemma collapse_points_on_line_frame
    (v0 v1 v2 : BMVert) (angle : float) (bm : BMesh) :
  let r := collapse_points_on_line v0 v1 v2 angle bm in
  edges r.2 = edges bm
  /\ length (verts r.2) = length (verts bm)
  /\ (forall j, j <> v1 -> verts r.2 !! j = verts bm !! j).
Proof.
  unfold collapse_points_on_line. cbv zeta. rewrite bind_run.
  pose proof (readonly_get_planar_angle v0 v1 v2 bm) as Hr.
  destruct (get_planar_angle v0 v1 v2 bm) as [[a|e] bm1]; simpl in Hr;
    subst bm1; [ | auto ].
  rewrite bind_run, print_run.
  destruct (angle <? math.degrees a)%float; [ | simpl; auto ].
  rewrite bind_run, print_run, bind_run. unfold co, set_co. simpl.
  destruct (verts bm !! v0) as [c0|]; simpl; [ | auto ].
  destruct (verts bm !! v1) as [c1|]; simpl; [ | auto ].
  split; [ reflexivity | ]. split; [ apply length_insert | ].
  intros j Hj. apply list_lookup_insert_ne. congruence.
Qed.

Lemma get_vertex_neighbors_run (v : nat) (bm : BMesh) :
  get_vertex_neighbors v bm =
  (Returns (neighbors_of (edges bm) v),
   {| verts := verts bm; edges := edges bm;
      stdout := stdout bm ++ [PList (neighbors_of (edges bm) v)] |}).
Proof. reflexivity. Qed.

Lemma collapse_vertex_run (angle : float) (v : BMVert) (bm : BMesh) :
  collapse_vertex angle v bm =
  let ns := neighbors_of (edges bm) v in
  let bm1 := {| verts := verts bm; edges := edges bm;
                stdout := stdout bm ++ [PList ns] |} in
  if decide (length ns = 2) then
    if decide (nth 0 ns 0 < length (verts bm)) then
      if decide (nth 1 ns 0 < length (verts bm)) then
        collapse_points_on_line (nth 0 ns 0) v (nth 1 ns 0) angle bm1
      else (Raises IndexError, bm1)
    else (Raises IndexError, bm1)
  else
    print (PStr ("The length of the neighbors was " +:+ pretty (length ns)))
      bm1.
Proof.
  unfold collapse_vertex. rewrite bind_run, get_vertex_neighbors_run.
  cbv zeta. destruct (decide (length (neighbors_of (edges bm) v) = 2));
    [ | reflexivity ].
  rewrite bind_run. unfold verts_getitem at 1. simpl.
  destruct (decide (nth 0 (neighbors_of (edges bm) v) 0 < length (verts bm)));
    [ | reflexivity ].
  rewrite bind_run. unfold verts_getitem at 1. simpl.
  destruct (decide (nth 1 (neighbors_of (edges bm) v) 0 < length (verts bm)));
    reflexivity.
Qed.

(** One turn of the loop: a vertex whose neighbour list does not have two
    entries is left alone, and no other vertex is written in any case. *)
Lemma collapse_vertex_frame (angle : float) (v : BMVert) (bm : BMesh) :
  let r := collapse_vertex angle v bm in
  edges r.2 = edges bm
  /\ length (verts r.2) = length (verts bm)
  /\ (forall j, j <> v -> verts r.2 !! j = verts bm !! j)
  /\ (length (neighbors_of (edges bm) v) <> 2 -> verts r.2 = verts bm).
Proof.
  cbv zeta. rewrite collapse_vertex_run. cbv zeta.
  set (ns := neighbors_of (edges bm) v).
  set (bm1 := {| verts := verts bm; edges := edges bm;
                 stdout := stdout bm ++ [PList ns] |}).
  destruct (decide (length ns = 2)) as [H2|H2].
  - destruct (decide (nth 0 ns 0 < length (verts bm))); [ | simpl; auto 6 ].
    destruct (decide (nth 1 ns 0 < length (verts bm))); [ | simpl; auto 6 ].
    destruct (collapse_points_on_line_frame (nth 0 ns 0) v (nth 1 ns 0)
                angle bm1) as (He & Hl & Hf).
    split; [ exact He | ]. split; [ exact Hl | ]. split; [ exact Hf | ].
    intros Hn. contradiction.
  - rewrite print_run. simpl. auto.
Qed.

(** The loop leaves alone every vertex whose neighbour list does not have
    exactly two entries, whether it runs to the end or is cut short by an
    exception. *)
Lemma for_each_collapse_vertex_frame
    (angle : float) (l : list nat) (bm : BMesh) (i : nat) :
  let r := for_each l (collapse_vertex angle) bm in
  edges r.2 = edges bm
  /\ length (verts r.2) = length (verts bm)
  /\ (length (neighbors_of (edges bm) i) <> 2 ->
      verts r.2 !! i = verts bm !! i).
Proof.
  revert bm. induction l as [|v l IH]; intros bm; cbv zeta.
  - simpl. auto.
  - simpl for_each. rewrite bind_run.
    destruct (collapse_vertex_frame angle v bm) as (He & Hl & Hf & Hs).
    destruct (collapse_vertex angle v bm) as [[[]|e] bm1]; simpl in *.
    + destruct (IH bm1) as (He' & Hl' & Hi').
      rewrite He', Hl', He, Hl. split; [ reflexivity | ].
      split; [ reflexivity | ].
      intros Hn. rewrite Hi' by (rewrite He; exact Hn).
      destruct (decide (i = v)) as [->|Hne].
      * rewrite Hs by exact Hn. reflexivity.
      * apply Hf. exact Hne.
    + split; [ exact He | ]. split; [ exact Hl | ].
      intros Hn. destruct (decide (i = v)) as [->|Hne].
      * rewrite Hs by exact Hn. reflexivity.
      * apply Hf. exact Hne.
Qed.

(** X2. A vertex whose neighbour list does not have exactly two entries
    has the same coordinates after [collapse_edges_in_order], however the
    call ends. *)
Lemma collapse_edges_in_order_frame (angle : float) (bm : BMesh) (i : nat) :
  length (neighbors_of (edges bm) i) <> 2 ->
  verts (collapse_edges_in_order angle bm).2 !! i = verts bm !! i.
Proof.
  intros Hn. unfold collapse_edges_in_order. rewrite bind_run. simpl.
  apply for_each_collapse_vertex_frame. exact Hn.
Qed.

Lemma printed_lists_app (out1 out2 : list printed) :
  printed_lists (out1 ++ out2) = printed_lists out1 ++ printed_lists out2.
Proof. apply omap_app. Qed.

(** What [collapse_points_on_line] prints is added at the end of what was
    printed, and there is no list in it. *)
Lemma collapse_points_on_line_stdout
    (v0 v1 v2 : BMVert) (angle : float) (bm : BMesh) :
  exists out,
    stdout (collapse_points_on_line v0 v1 v2 angle bm).2 = stdout bm ++ out
    /\ printed_lists out = [].
Proof.
  unfold collapse_points_on_line. rewrite bind_run.
  pose proof (readonly_get_planar_angle v0 v1 v2 bm) as Hr.
  destruct (get_planar_angle v0 v1 v2 bm) as [[a|e] bm1]; simpl in Hr;
    subst bm1;
    [ | exists []; simpl; rewrite app_nil_r; split; reflexivity ].
  rewrite bind_run, print_run.
  destruct (angle <? math.degrees a)%float;
    [ | eexists; simpl; split; reflexivity ].
  rewrite bind_run, print_run, bind_run. unfold co, set_co. simpl.
  destruct (verts bm !! v0) as [c0|]; simpl;
    [ | eexists; rewrite <- app_assoc; split; reflexivity ].
  destruct (verts bm !! v1) as [c1|]; simpl;
    eexists; rewrite <- app_assoc; split; reflexivity.
Qed.

(** One turn of the loop prints the neighbour list of its vertex first,
    and no other list. *)
Lemma collapse_vertex_stdout (angle : float) (v : BMVert) (bm : BMesh) :
  exists out,
    stdout (collapse_vertex angle v bm).2 =
    stdout bm ++ PList (neighbors_of (edges bm) v) :: out
    /\ printed_lists out = [].
Proof.
  rewrite collapse_vertex_run. cbv zeta.
  set (ns := neighbors_of (edges bm) v).
  set (bm1 := {| verts := verts bm; edges := edges bm;
                 stdout := stdout bm ++ [PList ns] |}).
  assert (H1 : forall out, stdout bm1 ++ out = stdout bm ++ PList ns :: out).
  { intros out. simpl. rewrite <- app_assoc. reflexivity. }
  destruct (decide (length ns = 2)).
  - destruct (decide (nth 0 ns 0 < length (verts bm)));
      [ | exists []; rewrite <- H1, app_nil_r; split; reflexivity ].
    destruct (decide (nth 1 ns 0 < length (verts bm)));
      [ | exists []; rewrite <- H1, app_nil_r; split; reflexivity ].
    destruct (collapse_points_on_line_stdout (nth 0 ns 0) v (nth 1 ns 0)
                angle bm1) as (out & Hout & Hl).
    exists out. rewrite Hout. split; [ apply H1 | exact Hl ].
  - rewrite print_run. eexists. simpl. rewrite <- app_assoc.
    split; reflexivity.
Qed.

(** The lists the loop prints are the neighbour lists of the vertices it
    took, one per vertex and in the order of the loop; when the loop runs
    to its end it took every vertex of the list. *)
Lemma for_each_collapse_vertex_visits
    (angle : float) (l : list nat) (bm : BMesh) :
  let r := for_each l (collapse_vertex angle) bm in
  exists out l1 l2,
    l = l1 ++ l2
    /\ stdout r.2 = stdout bm ++ out
    /\ printed_lists out = map (neighbors_of (edges bm)) l1
    /\ (r.1 = Returns tt -> l2 = []).
Proof.
  revert bm. induction l as [|v l IH]; intros bm; cbv zeta.
  - exists [], [], []. simpl. rewrite app_nil_r. auto.
  - simpl for_each. rewrite bind_run.
    destruct (collapse_vertex_frame angle v bm) as (He & _).
    destruct (collapse_vertex_stdout angle v bm) as (out & Hout & Hl).
    destruct (collapse_vertex angle v bm) as [[[]|e] bm1]; simpl in *.
    + destruct (IH bm1) as (out' & l1 & l2 & Hl12 & Hout' & Hl' & Hr).
      exists (PList (neighbors_of (edges bm) v) :: out ++ out'), (v :: l1), l2.
      split; [ rewrite Hl12; reflexivity | ].
      split; [ rewrite Hout', Hout, <- app_assoc; reflexivity | ].
      split; [ | exact Hr ].
      change (PList (neighbors_of (edges bm) v) :: out ++ out')
        with ([PList (neighbors_of (edges bm) v)] ++ out ++ out').
      rewrite !printed_lists_app, Hl, Hl', He. reflexivity.
    + exists (PList (neighbors_of (edges bm) v) :: out), [v], l.
      split; [ reflexivity | ]. split; [ exact Hout | ].
      split; [ | discriminate ].
      change (PList (neighbors_of (edges bm) v) :: out)
        with ([PList (neighbors_of (edges bm) v)] ++ out).
      rewrite printed_lists_app, Hl. reflexivity.
Qed.

(** X1. What [collapse_edges_in_order] prints is added at the end of what
    was printed, and the lists in it are the neighbour lists of the
    vertices 0, 1, ..., k - 1, one per vertex and in this order, for the
    number k of vertices the loop took.  When the call returns, k is the
    number of vertices of the mesh: every vertex was visited, once, in the
    order of the indices. *)
Lemma collapse_edges_in_order_visits_every_vertex
    (angle : float) (bm : BMesh) :
  let r := collapse_edges_in_order angle bm in
  exists out k,
    stdout r.2 = stdout bm ++ out
    /\ k <= length (verts bm)
    /\ printed_lists out = map (neighbors_of (edges bm)) (seq 0 k)
    /\ (r.1 = Returns tt -> k = length (verts bm)).
Proof.
  cbv zeta. unfold collapse_edges_in_order. rewrite bind_run. simpl.
  destruct (for_each_collapse_vertex_visits angle
              (seq 0 (length (verts bm))) bm)
    as (out & l1 & l2 & Hl12 & Hout & Hl & Hr).
  cbv zeta in Hout, Hr.
  assert (Hlen : length l1 + length l2 = length (verts bm)).
  { rewrite <- length_app, <- Hl12, length_seq. reflexivity. }
  assert (H1 : l1 = seq 0 (length l1)).
  { transitivity (take (length l1) (seq 0 (length (verts bm)))).
    - rewrite Hl12. symmetry. apply take_app_length.
    - rewrite take_seq. f_equal. lia. }
  exists out, (length l1).
  split; [ exact Hout | ]. split; [ lia | ].
  split; [ rewrite <- H1; exact Hl | ].
  intros H. apply Hr in H. subst l2. simpl in Hlen. lia.
Qed.

Lemma neighbors_of_app (es1 es2 : list (nat * nat)) (v : nat) :
  neighbors_of (es1 ++ es2) v = neighbors_of es1 v ++ neighbors_of es2 v.
Proof.
  unfold neighbors_of.
  rewrite fold_left_app.
  generalize (fold_left
    (fun acc e => if decide (e.1 = v) then acc ++ [e.2]
                  else if decide (e.2 = v) then acc ++ [e.1] else acc)
    es1 []).
  induction es2 as [|e es2 IH] using rev_ind; intros acc.
  - simpl. rewrite app_nil_r. reflexivity.
  - rewrite !fold_left_app. simpl. rewrite IH.
    repeat case_decide; rewrite ?app_assoc; reflexivity.
Qed.

Lemma neighbors_of_cons (e : nat * nat) (es : list (nat * nat)) (v : nat) :
  neighbors_of (e :: es) v =
  (if decide (e.1 = v) then [e.2]
   else if decide (e.2 = v) then [e.1] else [])
  ++ neighbors_of es v.
Proof.
  change (e :: es) with ([e] ++ es). rewrite neighbors_of_app.
  unfold neighbors_of at 1. simpl.
  repeat case_decide; reflexivity.
Qed.

(** X3. The neighbour list of a vertex holds exactly the other ends of
    the edges that have the vertex at one of their ends. *)
Lemma elem_of_neighbors_of (es : list (nat * nat)) (v n : nat) :
  n ∈ neighbors_of es v <->
  exists e, e ∈ es
            /\ ((e.1 = v /\ n = e.2) \/ (e.1 <> v /\ e.2 = v /\ n = e.1)).
Proof.
  induction es as [|e es IH].
  - unfold neighbors_of. simpl. split.
    + intros H. inversion H.
    + intros (e & He & _). inversion He.
  - rewrite neighbors_of_cons, elem_of_app, IH. split.
    + intros [H|(e' & He' & H)].
      * exists e. split; [ left | ].
        destruct (decide (e.1 = v)) as [H1|H1].
        -- apply list_elem_of_singleton in H. auto.
        -- destruct (decide (e.2 = v)) as [H2|H2].
           ++ apply list_elem_of_singleton in H. auto.
           ++ inversion H.
      * exists e'. split; [ right; exact He' | exact H ].
    + intros (e' & He' & H). apply elem_of_cons in He' as [->|He'].
      * left. destruct H as [[H1 ->]|(H1 & H2 & ->)].
        -- rewrite decide_True by exact H1. apply list_elem_of_singleton.
           reflexivity.
        -- rewrite decide_False by exact H1. rewrite decide_True by exact H2.
           apply list_elem_of_singleton. reflexivity.
      * right. exists e'. auto.
Qed.

(** C5, at the failing input.  On three vertices on a diagonal line the
    cosine the code computes at vertex 1 is -1.0000000000000002, for every
    C library that squares -1, -2 and -3 exactly and reports the domain
    error of [acos] by a NaN: [math.acos] raises [ValueError], the loop
    stops at vertex 1 and vertex 2 is never visited. *)
Theorem collapse_edges_in_order_raises_on_diagonal_line (angle : float) :
  math.libm_pow (-1)%float 2%float = 1%float ->
  math.libm_pow (-2)%float 2%float = 4%float ->
  math.libm_pow (-3)%float 2%float = 9%float ->
  math.libm_acos (-0x1.0000000000001p+0)%float = nan ->
  collapse_edges_in_order angle diagonal_line =
  (Raises (ValueError "math domain error"),
   {| verts := verts diagonal_line; edges := edges diagonal_line;
      stdout := [PList [1]; PStr "The length of the neighbors was 1";
                 PList [0; 2]] |}).
Proof.
  destruct libm as [pw ac]. simpl. intros H1 H2 H3 Hac.
  unfold collapse_edges_in_order, diagonal_line.
  repeat (vm_compute;
          first [ rewrite H1 | rewrite H2 | rewrite H3 | rewrite Hac ]).
  reflexivity.
Qed.

End collapse_loop.

(** Python's floats at the failing input: the three distances are the
    square roots of 27, 3 and 12, and the quotient is below -1. *)
Example diagonal_line_cosine :
  let a := PrimFloat.sqrt 27 in
  let b := PrimFloat.sqrt 3 in
  let c := PrimFloat.sqrt 12 in
  ((b * b + c * c - a * a) / (2 * b * c))%float = (-0x1.0000000000001p+0)%float.
Proof. reflexivity. Qed.

(** The same with the C library of the examples. *)
Lemma collapse_edges_in_order_raises_on_diagonal_line_sample :
  collapse_edges_in_order (libm := sample_libm) 170 diagonal_line =
  (Raises (ValueError "math domain error"),
   {| verts := verts diagonal_line; edges := edges diagonal_line;
      stdout := [PList [1]; PStr "The length of the neighbors was 1";
                 PList [0; 2]] |}).
Proof.
  apply (collapse_edges_in_order_raises_on_diagonal_line (libm := sample_libm));
    reflexivity.
Defined.

(** On an axis the same line is decimated: vertex 1 is moved onto
    vertex 0. *)
Example collapse_edges_in_order_axis_line :
  collapse_edges_in_order (libm := sample_libm) 170 axis_line =
  (Returns tt,
   {| verts := [vec 0 0 0; vec 0 0 0; vec 3 0 0];
      edges := edges axis_line;
      stdout := [PList [1]; PStr "The length of the neighbors was 1";
                 PList [0; 2]; PFloat 180; PStr "collapse";
                 PList [1]; PStr "The length of the neighbors was 1"] |}).
Proof. reflexivity. Qed.

(** ** Selection and deletion *)

Lemma modify_run {S} (f : S -> S) (s : S) : modify f s = (Returns tt, f s).
Proof. reflexivity. Qed.

Section scene.
Context {vp : Viewport}.

Lemma elem_of_visible (s : Scene) (k : string) :
  k ∈ visible s <->
  exists o, objects s !! k = Some o
            /\ hide k = false /\ on_scene_layer o = true.
Proof.
  unfold visible. rewrite elem_of_dom. split.
  - intros [o H]. apply map_lookup_filter_Some in H as (H & Hh & Hl).
    exists o. auto.
  - intros (o & H & Hh & Hl). exists o. apply map_lookup_filter_Some.
    split; [ exact H | ]. split; assumption.
Qed.

Lemma elem_of_delete_takes (s : Scene) (k : string) :
  k ∈ delete_takes s <->
  exists o, objects s !! k = Some o
            /\ k ∈ selected s
            /\ on_scene_layer o = true
            /\ (hide k = false \/ delete_takes_hidden = true).
Proof.
  unfold delete_takes. rewrite elem_of_dom. split.
  - intros [o H]. apply map_lookup_filter_Some in H as (H & Hs & Hl & Hh).
    exists o. auto.
  - intros (o & H & Hs & Hl & Hh). exists o. apply map_lookup_filter_Some.
    split; [ exact H | ]. split; [ exact Hs | ]. split; assumption.
Qed.

(** An operator that needs object mode: outside it the [poll] raises and
    the scene is left as it was. *)
Lemma object_mode_poll_run (op : string) (s : Scene) :
  mode s = "OBJECT" -> object_mode_poll op s = (Returns tt, s).
Proof. intros H. unfold object_mode_poll. rewrite decide_True; auto. Qed.

Lemma object_mode_poll_fails (op : string) (s : Scene) :
  mode s <> "OBJECT" -> object_mode_poll op s = (Raises (poll_failed op), s).
Proof. intros H. unfold object_mode_poll. rewrite decide_False; auto. Qed.

Lemma select_all_run (action : select_action) (s : Scene) :
  mode s = "OBJECT" ->
  select_all action s =
  (Returns tt,
   {| objects := objects s;
      selected := match action with
                  | SELECT =>
                      selected s
                      ∪ filter (fun k => hide_select k = false) (visible s)
                  | DESELECT => selected s ∖ visible s
                  end;
      active := active s; mode := mode s |}).
Proof.
  intros H. unfold select_all. rewrite bind_run, object_mode_poll_run by exact H.
  reflexivity.
Qed.

Lemma select_all_fails (action : select_action) (s : Scene) :
  mode s <> "OBJECT" ->
  select_all action s = (Raises (poll_failed "object.select_all"), s).
Proof.
  intros H. unfold select_all.
  rewrite bind_run, object_mode_poll_fails by exact H. reflexivity.
Qed.

Lemma object_delete_run (s : Scene) :
  mode s = "OBJECT" ->
  object_delete s =
  (Returns tt,
   {| objects := filter (fun kv => kv.1 ∉ delete_takes s) (objects s);
      selected := selected s ∖ delete_takes s;
      active := match active s with
                | Some a =>
                    if decide (a ∈ delete_takes s) then None else Some a
                | None => None
                end;
      mode := mode s |}).
Proof.
  intros H. unfold object_delete.
  rewrite bind_run, object_mode_poll_run by exact H. reflexivity.
Qed.


(** What [bpy.ops.object.delete()] leaves of the objects. *)
Lemma object_delete_lookup (s : Scene) (k : string) :
  mode s = "OBJECT" ->
  objects (object_delete s).2 !! k =
  if decide (k ∈ delete_takes s) then None else objects s !! k.
Proof.
  intros H. rewrite object_delete_run by exact H. cbn [snd objects].
  destruct (decide (k ∈ delete_takes s)) as [Hk|Hk].
  - apply map_lookup_filter_None. right. intros o _ Hn. apply Hn. exact Hk.
  - destruct (objects s !! k) as [o|] eqn:E.
    + apply map_lookup_filter_Some. split; [ exact E | exact Hk ].
    + apply map_lookup_filter_None. left. exact E.
Qed.

(** The loop of [delete_all_cameras]: it selects the selectable cameras
    among the listed objects and touches nothing else. *)
Lemma select_cameras_run (l : list (string * Object)) (s : Scene) :
  let r := for_each l (fun kv =>
             if decide (type kv.2 = "CAMERA") then set_select kv.1 true
             else mret tt) s in
  r.1 = Returns tt
  /\ objects r.2 = objects s
  /\ active r.2 = active s
  /\ mode r.2 = mode s
  /\ (forall k, k ∈ selected r.2 <->
        k ∈ selected s
        \/ (k ∈ dom (objects s) /\ hide_select k = false
            /\ exists o, (k, o) ∈ l /\ type o = "CAMERA")).
Proof.
  revert s. induction l as [|[k0 o0] l IH]; intros s; cbv zeta.
  - simpl. repeat split; auto.
    intros [H|(_ & _ & o & H & _)]; [ exact H | inversion H ].
  - simpl for_each. rewrite bind_run. simpl.
    destruct (decide (type o0 = "CAMERA")) as [Hc|Hc].
    + unfold set_select. rewrite modify_run.
      match goal with |- context [for_each l _ ?s1] =>
        destruct (IH s1) as (Hr & Ho & Ha & Hm & Hs) end.
      simpl in Ho, Ha, Hm, Hs.
      split; [ exact Hr | ]. split; [ exact Ho | ].
      split; [ exact Ha | ]. split; [ exact Hm | ].
      intros k. rewrite Hs. clear Hs IH Hr.
      destruct (decide (k0 ∈ dom (objects s))) as [Hd|Hd];
        [ destruct (hide_select k0) eqn:Hh | ].
      * split.
        -- intros [Hk|(Hk & Hsel & o & Hin & Ht)]; [ auto | ].
           right. split; [ exact Hk | ]. split; [ exact Hsel | ].
           exists o. split; [ right; exact Hin | exact Ht ].
        -- intros [Hk|(Hk & Hsel & o & Hin & Ht)]; [ auto | ].
           apply elem_of_cons in Hin as [Heq|Hin].
           ++ injection Heq as -> ->. congruence.
           ++ right. split; [ exact Hk | ]. split; [ exact Hsel | ].
              exists o. auto.
      * split.
        -- intros [Hk|(Hk & Hsel & o & Hin & Ht)].
           ++ apply elem_of_union in Hk as [Hk|Hk]; [ | auto ].
              apply elem_of_singleton in Hk as ->.
              right. split; [ exact Hd | ]. split; [ exact Hh | ].
              exists o0. split; [ left | exact Hc ].
           ++ right. split; [ exact Hk | ]. split; [ exact Hsel | ].
              exists o. split; [ right; exact Hin | exact Ht ].
        -- intros [Hk|(Hk & Hsel & o & Hin & Ht)].
           ++ left. apply elem_of_union. auto.
           ++ apply elem_of_cons in Hin as [Heq|Hin].
              ** injection Heq as -> ->. left. apply elem_of_union. left.
                 apply elem_of_singleton. reflexivity.
              ** right. split; [ exact Hk | ]. split; [ exact Hsel | ].
                 exists o. auto.
      * split.
        -- intros [Hk|(Hk & Hsel & o & Hin & Ht)]; [ auto | ].
           right. split; [ exact Hk | ]. split; [ exact Hsel | ].
           exists o. split; [ right; exact Hin | exact Ht ].
        -- intros [Hk|(Hk & Hsel & o & Hin & Ht)]; [ auto | ].
           apply elem_of_cons in Hin as [Heq|Hin].
           ++ injection Heq as -> ->. contradiction.
           ++ right. split; [ exact Hk | ]. split; [ exact Hsel | ].
              exists o. auto.
    + destruct (IH s) as (Hr & Ho & Ha & Hm & Hs).
      split; [ exact Hr | ]. split; [ exact Ho | ].
      split; [ exact Ha | ]. split; [ exact Hm | ].
      intros k. rewrite Hs. clear Hs IH Hr. split.
      * intros [Hk|(Hk & Hsel & o & Hin & Ht)]; [ auto | ].
        right. split; [ exact Hk | ]. split; [ exact Hsel | ].
        exists o. split; [ right; exact Hin | exact Ht ].
      * intros [Hk|(Hk & Hsel & o & Hin & Ht)]; [ auto | ].
        apply elem_of_cons in Hin as [Heq|Hin].
        -- injection Heq as -> ->. contradiction.
        -- right. split; [ exact Hk | ]. split; [ exact Hsel | ].
           exists o. auto.
Qed.

(** Outside object mode [delete_all_cameras] stops at its first call. *)
Lemma delete_all_cameras_fails (s : Scene) :
  mode s <> "OBJECT" ->
  delete_all_cameras s = (Raises (poll_failed "object.select_all"), s).
Proof.
  intros H. unfold delete_all_cameras.
  rewrite bind_run, select_all_fails by exact H. reflexivity.
Qed.

(** The scene right before [delete_all_cameras] calls
    [delete_selected_objects]: the selectable cameras of the scene are
    selected, and of the other objects those that were selected and are
    not shown. *)
Lemma delete_all_cameras_selects_cameras (s : Scene) :
  mode s = "OBJECT" ->
  exists s2,
    delete_all_cameras s = delete_selected_objects s2
    /\ objects s2 = objects s /\ active s2 = active s /\ mode s2 = mode s
    /\ forall k, k ∈ selected s2 <->
         (k ∈ selected s /\ k ∉ visible s)
         \/ (hide_select k = false
             /\ exists o, objects s !! k = Some o /\ type o = "CAMERA").
Proof.
  intros Hmode.
  set (s1 := {| objects := objects s; selected := selected s ∖ visible s;
                active := active s; mode := mode s |}).
  assert (Heq : delete_all_cameras s =
                (for_each (map_to_list (objects s1)) (fun kv =>
                   if decide (type kv.2 = "CAMERA") then set_select kv.1 true
                   else mret tt);;
                 delete_selected_objects) s1).
  { unfold delete_all_cameras.
    rewrite bind_run, (select_all_run DESELECT s Hmode). reflexivity. }
  rewrite Heq, bind_run. clear Heq.
  destruct (select_cameras_run (map_to_list (objects s1)) s1)
    as (Hr & Ho & Ha & Hm & Hs).
  destruct (for_each (map_to_list (objects s1)) _ s1) as [[[]|e] s2];
    simpl in Hr; [ | discriminate ].
  simpl in Ho, Ha, Hm, Hs.
  exists s2. split; [ reflexivity | ]. split; [ exact Ho | ].
  split; [ exact Ha | ]. split; [ exact Hm | ].
  intros k. rewrite Hs, elem_of_difference. split.
  - intros [Hk|(_ & Hsel & o & Hin & Hc)]; [ left; exact Hk | ].
    apply elem_of_map_to_list in Hin. right. eauto.
  - intros [Hk|(Hsel & o & Hko & Hc)]; [ left; exact Hk | ].
    right. split; [ apply elem_of_dom; eauto | ]. split; [ exact Hsel | ].
    exists o. split; [ | exact Hc ]. apply elem_of_map_to_list. exact Hko.
Qed.

(** The active object after [bpy.ops.object.delete()]: the one before,
    unless it was deleted. *)
Lemma object_delete_active (s : Scene) :
  mode s = "OBJECT" ->
  active (object_delete s).2 =
  match active s with
  | Some a =>
      if decide (is_Some (objects s !! a)
                 /\ objects (object_delete s).2 !! a = None)
      then None else Some a
  | None => None
  end.
Proof.
  intros Hmode. destruct (active s) as [a|] eqn:Ea;
    [ | rewrite object_delete_run by exact Hmode; cbn [snd active];
        rewrite Ea; reflexivity ].
  rewrite (object_delete_lookup s a Hmode).
  rewrite object_delete_run by exact Hmode. cbn [snd active]. rewrite Ea.
  destruct (decide (a ∈ delete_takes s)) as [Hin|Hin].
  - rewrite decide_True; [ reflexivity | ]. split; [ | reflexivity ].
    apply elem_of_delete_takes in Hin as (o & -> & _). eauto.
  - rewrite decide_False; [ reflexivity | ].
    intros [[o Ho] Hn]. congruence.
Qed.

(** [delete_all_cameras] in object mode. *)
Lemma delete_all_cameras_run (s : Scene) :
  mode s = "OBJECT" ->
  let r := delete_all_cameras s in
  r.1 = Returns tt
  /\ (forall k o, objects s !! k = Some o -> type o = "CAMERA" ->
        k ∈ visible s -> hide_select k = false ->
        objects r.2 !! k = None)
  /\ (forall k o, objects s !! k = Some o -> type o <> "CAMERA" ->
        k ∈ visible s \/ k ∉ selected s ->
        objects r.2 !! k = Some o)
  /\ (forall k o, objects r.2 !! k = Some o -> objects s !! k = Some o)
  /\ (forall k, k ∈ visible s -> k ∉ selected r.2)
  /\ mode r.2 = mode s.
Proof.
  intros Hmode. cbv zeta.
  destruct (delete_all_cameras_selects_cameras s Hmode)
    as (s2 & -> & Ho & Ha & Hm & Hs).
  unfold delete_selected_objects.
  assert (Hmode2 : mode s2 = "OBJECT") by congruence.
  split; [ rewrite object_delete_run by exact Hmode2; reflexivity | ].
  split; [ | split; [ | split; [ | split ] ] ].
  - intros k o Hko Hc Hv Hsel. rewrite object_delete_lookup by exact Hmode2.
    rewrite decide_True; [ reflexivity | ].
    apply elem_of_visible in Hv as (o' & Hko' & Hh & Hl).
    apply elem_of_delete_takes. exists o'. rewrite Ho.
    split; [ exact Hko' | ]. split; [ | auto ].
    apply Hs. right. split; [ exact Hsel | ]. exists o. auto.
  - intros k o Hko Hc Hv. rewrite object_delete_lookup by exact Hmode2.
    rewrite decide_False; [ rewrite Ho; exact Hko | ].
    intros Hin. apply elem_of_delete_takes in Hin as (_ & _ & Hin & _).
    apply Hs in Hin as [[H1 H2]|(_ & o' & Hko' & Hc')].
    + destruct Hv; contradiction.
    + congruence.
  - intros k o. rewrite object_delete_lookup by exact Hmode2.
    destruct (decide (k ∈ delete_takes s2)); [ discriminate | ].
    rewrite Ho. auto.
  - intros k Hv. rewrite object_delete_run by exact Hmode2. cbn [snd selected].
    rewrite elem_of_difference. intros [Hin Hn].
    apply Hs in Hin as Hin'. destruct Hin' as [[_ H2]|(_ & o' & Hko' & Hc')];
      [ contradiction | ].
    apply Hn. apply elem_of_visible in Hv as (o & Hko & Hh & Hl).
    apply elem_of_delete_takes. exists o. rewrite Ho. auto.
  - rewrite object_delete_run by exact Hmode2. exact Hm.
Qed.

(** C9. Outside object mode [delete_all_cameras] raises [RuntimeError] at
    its first call and leaves the scene as it was.  In object mode it
    returns, and afterwards: every camera that the viewport shows and
    that is selectable is gone; every object that is not a camera and
    that the viewport shows, or that was not selected, is still in the
    scene under its name and is what it was; nothing else is in the
    scene; no object that the viewport shows is selected.  When the
    viewport shows every object of the scene and every object is
    selectable, no camera is left. *)
Theorem delete_all_cameras_deletes_exactly_the_cameras (s : Scene) :
  (mode s <> "OBJECT" ->
   delete_all_cameras s = (Raises (poll_failed "object.select_all"), s))
  /\ (mode s = "OBJECT" ->
      let r := delete_all_cameras s in
      r.1 = Returns tt
      /\ (forall k o, objects s !! k = Some o -> type o = "CAMERA" ->
            k ∈ visible s -> hide_select k = false ->
            objects r.2 !! k = None)
      /\ (forall k o, objects s !! k = Some o -> type o <> "CAMERA" ->
            k ∈ visible s \/ k ∉ selected s ->
            objects r.2 !! k = Some o)
      /\ (forall k o, objects r.2 !! k = Some o -> objects s !! k = Some o)
      /\ (forall k, k ∈ visible s -> k ∉ selected r.2)
      /\ ((forall k, k ∈ dom (objects s) ->
             k ∈ visible s /\ hide_select k = false) ->
          forall k o, objects r.2 !! k = Some o -> type o <> "CAMERA")).
Proof.
  split; [ apply delete_all_cameras_fails | ].
  intros Hmode. cbv zeta.
  destruct (delete_all_cameras_run s Hmode)
    as (Hr & Hgone & Hkept & Hsub & Hsel & _).
  split; [ exact Hr | ]. split; [ exact Hgone | ]. split; [ exact Hkept | ].
  split; [ exact Hsub | ]. split; [ exact Hsel | ].
  intros Hall k o Hko Hc. pose proof (Hsub k o Hko) as Hko'.
  destruct (Hall k) as [Hv Hs]; [ apply elem_of_dom; eauto | ].
  rewrite (Hgone k o Hko' Hc Hv Hs) in Hko. discriminate.
Qed.

(** [select_object] on an object that the viewport shows and that is
    selectable, in object mode. *)
Lemma select_object_run (o : string) (s : Scene) :
  mode s = "OBJECT" -> o ∈ visible s -> hide_select o = false ->
  select_object (Some o) s =
  (Returns tt,
   {| objects := objects s; selected := {[o]} ∪ (selected s ∖ visible s);
      active := Some o; mode := "OBJECT" |}).
Proof.
  intros Hmode Hv Hsel.
  apply elem_of_visible in Hv as (ob & Hob & Hh & _).
  assert (Hd : o ∈ dom (objects s)) by (apply elem_of_dom; eauto).
  unfold select_object.
  rewrite bind_run, (select_all_run DESELECT s Hmode).
  rewrite bind_run. unfold set_active at 1. rewrite modify_run.
  rewrite bind_run. unfold mode_set. cbn [active objects].
  rewrite decide_True by (split; assumption).
  rewrite bind_run. unfold set_select. rewrite modify_run.
  cbn [objects selected active mode]. rewrite decide_True by exact Hd.
  rewrite Hsel. reflexivity.
Qed.

(** C4. [select_object] raises [ValueError] on [None].  Outside object
    mode it raises [RuntimeError] at its first call and leaves the scene
    as it was.  In object mode, on an object that the viewport shows and
    that is selectable, it returns; the object is then selected and
    active, no other object that the viewport shows is selected, and the
    scene is in object mode. *)
Theorem select_object_selects_only_the_object :
  (forall s : Scene,
     select_object None s =
     (Raises (ValueError
        "Error: the object that you are trying to select does not exist"), s))
  /\ (forall (o : string) (s : Scene),
        mode s <> "OBJECT" ->
        select_object (Some o) s =
        (Raises (poll_failed "object.select_all"), s))
  /\ (forall (o : string) (s : Scene),
        mode s = "OBJECT" -> o ∈ visible s -> hide_select o = false ->
        let r := select_object (Some o) s in
        r.1 = Returns tt
        /\ objects r.2 = objects s
        /\ active r.2 = Some o
        /\ mode r.2 = "OBJECT"
        /\ selected r.2 = {[o]} ∪ (selected s ∖ visible s)
        /\ (forall k, k ∈ visible s -> (k ∈ selected r.2 <-> k = o))).
Proof.
  split; [ reflexivity | ]. split.
  - intros o s Hmode. unfold select_object.
    rewrite bind_run, select_all_fails by exact Hmode. reflexivity.
  - intros o s Hmode Hv Hsel. cbv zeta.
    rewrite (select_object_run o s Hmode Hv Hsel). cbn [fst snd].
    repeat (split; [ reflexivity | ]).
    intros k Hk. cbn [selected].
    rewrite elem_of_union, elem_of_singleton, elem_of_difference. tauto.
Qed.

End scene.

(** ** Layers *)

Ltac layer_cases :=
  repeat case_decide; try reflexivity; exfalso;
  rewrite ?elem_of_cons in *; intuition congruence.

(** What the loop of [move_object_to_layer] does to the layer flags. *)
Lemma clear_layers_lookup (t : nat) (l : list nat) (ls : list bool) (j : nat) :
  j < length ls ->
  fold_left (fun ls index =>
               if decide (index ≠ t) then <[index := false]> ls else ls) l ls
    !! j
  = if decide (j ∈ l /\ j ≠ t) then Some false else ls !! j.
Proof.
  revert ls. induction l as [|a l IH]; intros ls Hj.
  - cbn [fold_left]. destruct (decide (j ∈ [] /\ j ≠ t)) as [H|H];
      [ | reflexivity ].
    destruct H as [H _]. inversion H.
  - cbn [fold_left]. destruct (decide (a ≠ t)) as [Hat|Hat].
    + rewrite IH by (rewrite length_insert; exact Hj).
      destruct (decide (j = a)) as [->|Hja].
      * rewrite list_lookup_insert_eq by exact Hj.
        layer_cases.
      * rewrite list_lookup_insert_ne by congruence.
        layer_cases.
    + rewrite IH by exact Hj.
      layer_cases.
Qed.

Lemma clear_layers_length (t : nat) (l : list nat) (ls : list bool) :
  length (fold_left (fun ls index =>
                       if decide (index ≠ t) then <[index := false]> ls
                       else ls) l ls) = length ls.
Proof.
  revert ls. induction l as [|a l IH]; intros ls; simpl; [ reflexivity | ].
  rewrite IH. case_decide; [ apply length_insert | reflexivity ].
Qed.

Lemma py_index_nonneg (n j : nat) : j < n -> py_index n (Z.of_nat j) = Some j.
Proof.
  intros H. unfold py_index.
  destruct (decide (0 ≤ Z.of_nat j < Z.of_nat n)%Z); [ | lia ].
  rewrite Nat2Z.id. reflexivity.
Qed.

Lemma layers_setitem_run (obj : string) (j : nat) (b : bool) (s : Scene)
    (o : Object) :
  objects s !! obj = Some o -> j < length (layers o) ->
  layers_setitem obj (Z.of_nat j) b s =
  (Returns tt,
   {| objects := <[obj := {| type := type o; location := location o;
                             layers := <[j := b]> (layers o) |}]> (objects s);
      selected := selected s; active := active s; mode := mode s |}).
Proof.
  intros Ho Hj. unfold layers_setitem. rewrite Ho, py_index_nonneg by exact Hj.
  reflexivity.
Qed.

Lemma clear_layers_run (obj : string) (t : nat) (l : list nat) (s : Scene)
    (o : Object) :
  objects s !! obj = Some o ->
  (forall index, index ∈ l -> index < length (layers o)) ->
  for_each l (fun index =>
    if decide (Z.of_nat index ≠ Z.of_nat t)
    then layers_setitem obj (Z.of_nat index) false
    else mret tt) s =
  (Returns tt,
   {| objects :=
        <[obj := {| type := type o; location := location o;
                    layers := fold_left (fun ls index =>
                                if decide (index ≠ t)
                                then <[index := false]> ls else ls)
                                l (layers o) |}]> (objects s);
      selected := selected s; active := active s; mode := mode s |}).
Proof.
  revert s o. induction l as [|a l IH]; intros s o Ho Hl.
  - simpl. destruct s as [os sel act md], o as [ty loc ls]. simpl in *.
    rewrite insert_id by exact Ho. reflexivity.
  - simpl for_each. rewrite bind_run.
    assert (Ha : a < length (layers o)) by (apply Hl; left).
    destruct (decide (Z.of_nat a ≠ Z.of_nat t)) as [Hat|Hat].
    + rewrite (layers_setitem_run obj a false s o Ho Ha).
      rewrite (IH _ {| type := type o; location := location o;
                       layers := <[a := false]> (layers o) |}).
      * simpl. rewrite insert_insert_eq.
        destruct (decide (a ≠ t)); [ reflexivity | lia ].
      * simpl. apply lookup_insert_eq.
      * simpl. intros index Hin. rewrite length_insert. apply Hl.
        right. exact Hin.
    + simpl. rewrite (IH s o Ho) by (intros index Hin; apply Hl; right;
                                     exact Hin).
      simpl. destruct (decide (a ≠ t)); [ lia | reflexivity ].
Qed.

(** C10. For an object of the scene with [n] layer flags and a layer
    number of the editor (1 to [n], or 0 for layer 10 when there are at
    least 10 flags), [move_object_to_layer] returns and leaves exactly one
    flag set: the one at index [layer - 1], or 9 for layer 0. *)
Theorem move_object_to_layer_sets_exactly_one_layer
    (obj : string) (layer : Z) (s : Scene) (o : Object) :
  objects s !! obj = Some o ->
  (layer = 0%Z /\ 10 <= length (layers o))
  \/ (1 <= layer <= Z.of_nat (length (layers o)))%Z ->
  let r := move_object_to_layer obj layer s in
  r.1 = Returns tt
  /\ exists o', objects r.2 !! obj = Some o'
       /\ type o' = type o
       /\ location o' = location o
       /\ length (layers o') = length (layers o)
       /\ forall j, j < length (layers o) ->
            layers o' !! j = Some (bool_decide (j = layer_index layer)).
Proof.
  intros Ho Hlayer. cbv zeta.
  set (n := length (layers o)) in *.
  set (t := layer_index layer).
  assert (Ht : t < n).
  { unfold t, layer_index. case_decide; lia. }
  assert (Hi : (if decide (layer = 0%Z) then 9%Z else (layer - 1)%Z)
               = Z.of_nat t).
  { unfold t, layer_index. case_decide; lia. }
  set (o1 := {| type := type o; location := location o;
                layers := <[t := true]> (layers o) |}).
  set (s1 := {| objects := <[obj := o1]> (objects s); selected := selected s;
                active := active s; mode := mode s |}).
  assert (Ho1 : objects s1 !! obj = Some o1) by apply lookup_insert_eq.
  assert (Hn1 : length (layers o1) = n) by apply length_insert.
  assert (Hrun : move_object_to_layer obj layer s =
    (Returns tt,
     {| objects :=
          <[obj := {| type := type o1; location := location o1;
                      layers := fold_left (fun ls index =>
                                  if decide (index ≠ t)
                                  then <[index := false]> ls else ls)
                                  (seq 0 n) (layers o1) |}]> (objects s1);
        selected := selected s1; active := active s1; mode := mode s1 |})).
  { unfold move_object_to_layer. cbv zeta. rewrite Hi.
    rewrite bind_run, (layers_setitem_run obj t true s o Ho Ht).
    fold o1. fold s1. rewrite bind_run. unfold layers_len.
    rewrite Ho1, Hn1. apply clear_layers_run; [ exact Ho1 | ].
    intros index Hin. apply elem_of_seq in Hin. lia. }
  rewrite Hrun. clear Hrun.
  simpl. split; [ reflexivity | ].
  eexists. split; [ apply lookup_insert_eq | ]. simpl.
  split; [ reflexivity | ]. split; [ reflexivity | ]. split.
  - rewrite clear_layers_length. apply length_insert.
  - intros j Hj.
    rewrite clear_layers_lookup by (rewrite length_insert; exact Hj).
    destruct (decide (j = t)) as [->|Hjt].
    + rewrite bool_decide_eq_true_2 by reflexivity.
      destruct (decide (t ∈ seq 0 n /\ t ≠ t)) as [[_ H]|_];
        [ exfalso; apply H; reflexivity | ].
      apply list_lookup_insert_eq. exact Hj.
    + rewrite bool_decide_eq_false_2 by exact Hjt.
      destruct (decide (j ∈ seq 0 n /\ j ≠ t)) as [_|H]; [ reflexivity | ].
      exfalso. apply H. split; [ | exact Hjt ].
      apply elem_of_seq. lia.
Qed.

(** ** Importing a scan *)

Lemma map_size_one {A} (m : gmap string A) :
  size m = 1 -> exists k a, m = {[k := a]}.
Proof.
  intros H. rewrite <- length_map_to_list in H.
  rewrite <- (list_to_map_to_list m).
  destruct (map_to_list m) as [|[k a] [|? ?]]; simpl in H; try discriminate.
  exists k, a. simpl. apply insert_empty.
Qed.

Section import_facts.
Context {vp : Viewport} {host : Host}.

Lemma objects_getitem_singleton (k : string) (o : Object) (s : Scene) :
  objects s = {[k := o]} -> objects_getitem 0 s = (Returns k, s).
Proof.
  intros H. unfold objects_getitem. rewrite H, map_to_list_singleton.
  reflexivity.
Qed.

(** [import_agisoft_scan] once the importer and [delete_all_cameras] have
    returned: it raises or returns by the number of objects in the scene
    they leave. *)
Lemma import_agisoft_scan_run (fbx_filepath : string) (s s1 s2 : Scene) :
  import_fbx fbx_filepath s = (Returns tt, s1) ->
  delete_all_cameras s1 = (Returns tt, s2) ->
  import_agisoft_scan fbx_filepath s =
  if decide (size (objects s2) ≠ 1) then
    (Raises (ValueError
       "Error: There should be only one object imported - check the contents of the fbx file"),
     s2)
  else objects_getitem 0 s2.
Proof.
  intros Hi Hd. unfold import_agisoft_scan.
  rewrite bind_run, Hi, bind_run, Hd, bind_run. simpl.
  destruct (decide (size (objects s2) ≠ 1)); reflexivity.
Qed.

(** An exception of the importer is the exception of the call. *)
Lemma import_agisoft_scan_import_raises
    (fbx_filepath : string) (s s1 : Scene) (e : exn) :
  import_fbx fbx_filepath s = (Raises e, s1) ->
  import_agisoft_scan fbx_filepath s = (Raises e, s1).
Proof.
  intros Hi. unfold import_agisoft_scan. rewrite bind_run, Hi. reflexivity.
Qed.

(** So is an exception of [delete_all_cameras]. *)
Lemma import_agisoft_scan_delete_raises
    (fbx_filepath : string) (s s1 s2 : Scene) (e : exn) :
  import_fbx fbx_filepath s = (Returns tt, s1) ->
  delete_all_cameras s1 = (Raises e, s2) ->
  import_agisoft_scan fbx_filepath s = (Raises e, s2).
Proof.
  intros Hi Hd. unfold import_agisoft_scan.
  rewrite bind_run, Hi, bind_run, Hd. reflexivity.
Qed.

(** C2, as amended.  When the importer has returned and
    [delete_all_cameras] has returned, [import_agisoft_scan] raises
    exactly when the number of objects then in the scene is not one, be it
    none or several; with one object left it returns that object.  The
    scene is the one [delete_all_cameras] left. *)
Theorem import_agisoft_scan_raises_unless_one_object
    (fbx_filepath : string) (s s1 s2 : Scene) :
  import_fbx fbx_filepath s = (Returns tt, s1) ->
  delete_all_cameras s1 = (Returns tt, s2) ->
  let remaining := objects s2 in
  let r := import_agisoft_scan fbx_filepath s in
  (raised r.1 <-> size remaining ≠ 1)
  /\ (forall k o, remaining = {[k := o]} -> r.1 = Returns k)
  /\ r.2 = s2.
Proof.
  intros Hi Hd. cbv zeta. rewrite (import_agisoft_scan_run _ _ _ _ Hi Hd).
  destruct (decide (size (objects s2) ≠ 1)) as [Hn|Hn].
  - simpl. split; [ | split ]; [ | | reflexivity ].
    + split; [ intros _; exact Hn | intros _; eexists; reflexivity ].
    + intros k o Hk. rewrite Hk, map_size_singleton in Hn. contradiction.
  - assert (H1 : size (objects s2) = 1).
    { destruct (decide (size (objects s2) = 1)); [ assumption | ].
      contradiction. }
    apply map_size_one in H1 as (k & o & Hk).
    rewrite (objects_getitem_singleton k o s2 Hk). simpl.
    split; [ | split ]; [ | | reflexivity ].
    + split; [ intros [e He]; discriminate | intros H; contradiction ].
    + intros k' o' Hk'. rewrite Hk in Hk'.
      apply (f_equal (fun m => m !! k)) in Hk'.
      rewrite lookup_singleton_eq in Hk'.
      destruct (decide (k' = k)) as [->|Hne]; [ reflexivity | ].
      rewrite lookup_singleton_ne in Hk' by exact Hne. discriminate.
Qed.

End import_facts.

(** The Agisoft file of the docstring, imported into the empty scene of
    the default viewport: the model comes back. *)
Lemma import_agisoft_scan_returns_the_model :
  let s1 := (import_fbx (host := agisoft_host) "scan.fbx" empty_scene).2 in
  let s2 := (delete_all_cameras (vp := default_viewport) s1).2 in
  let r := import_agisoft_scan (vp := default_viewport) (host := agisoft_host)
             "scan.fbx" empty_scene in
  (raised r.1 <-> size (objects s2) ≠ 1)
  /\ (forall k o, objects s2 = {[k := o]} -> r.1 = Returns k)
  /\ r.2 = s2.
Proof.
  apply (import_agisoft_scan_raises_unless_one_object
           (vp := default_viewport) (host := agisoft_host)
           "scan.fbx" empty_scene
           (import_fbx (host := agisoft_host) "scan.fbx" empty_scene).2
           (delete_all_cameras (vp := default_viewport)
              (import_fbx (host := agisoft_host) "scan.fbx" empty_scene).2).2);
    vm_compute; reflexivity.
Defined.

(** C2 as stated fails when nothing but cameras was imported: the importer
    and [delete_all_cameras] return, no object is left, which is not more
    than one, and the call raises. *)
Lemma import_agisoft_scan_raises_when_no_object_is_left :
  let s1 := (import_fbx (host := camera_only_host) "scan.fbx" empty_scene).2 in
  let remaining := objects (delete_all_cameras (vp := default_viewport) s1).2 in
  let r := import_agisoft_scan (vp := default_viewport)
             (host := camera_only_host) "scan.fbx" empty_scene in
  ~ (raised r.1 <-> 1 < size remaining).
Proof.
  cbv zeta. intros [H _].
  assert (Hr : raised (import_agisoft_scan (vp := default_viewport)
                         (host := camera_only_host)
                         "scan.fbx" empty_scene).1).
  { eexists. vm_compute. reflexivity. }
  apply H in Hr. vm_compute in Hr. lia.
Qed.

(** At that input the importer and [delete_all_cameras] have returned. *)
Example import_agisoft_scan_camera_only_steps :
  let i := import_fbx (host := camera_only_host) "scan.fbx" empty_scene in
  i.1 = Returns tt
  /\ (delete_all_cameras (vp := default_viewport) i.2).1 = Returns tt.
Proof. split; vm_compute; reflexivity. Qed.

(** One model, two models, no model; and a scene that is not in object
    mode. *)
Example import_agisoft_scan_agisoft_file :
  (import_agisoft_scan (vp := default_viewport) (host := agisoft_host)
     "scan.fbx" empty_scene).1
  = Returns "Model".
Proof. vm_compute. reflexivity. Qed.

Example import_agisoft_scan_two_models :
  (import_agisoft_scan (vp := default_viewport) (host := two_models_host)
     "scan.fbx" empty_scene).1
  = Raises (ValueError
      "Error: There should be only one object imported - check the contents of the fbx file").
Proof. vm_compute. reflexivity. Qed.

Example import_agisoft_scan_camera_only :
  (import_agisoft_scan (vp := default_viewport) (host := camera_only_host)
     "scan.fbx" empty_scene).1
  = Raises (ValueError
      "Error: There should be only one object imported - check the contents of the fbx file").
Proof. vm_compute. reflexivity. Qed.

Example import_agisoft_scan_edit_mode :
  import_agisoft_scan (vp := default_viewport) (host := model_host)
    "scan.fbx" cube_and_camera_edit
  = (Raises (poll_failed "object.select_all"),
     (import_fbx (host := model_host) "scan.fbx" cube_and_camera_edit).2).
Proof. vm_compute. reflexivity. Qed.

(** ** [make_matrix] *)

Section make_matrix_facts.
Context {mu : Mathutils}.





End make_matrix_facts.

Section make_matrix_sample.
#[local] Existing Instance sample_mathutils.



(** At that input the coordinates are finite and the magnitude is not a
    number. *)
Example make_matrix_overflow_magnitude :
  let v1 := vec 0 0 0 in
  let v2 := vec 0x1p+600 0x1p+600 0 in
  let v3 := vec 0x1p+600 0x1p+601 0 in
  is_finite 0x1p+600 = true /\ is_finite 0x1p+601 = true
  /\ is_nan (magnitude (cross (vsub v2 v1) (vsub v3 v1))) = true
  /\ make_matrix v1 v2 v3 = Raises (BaseException "A B C are colinear").
Proof. repeat split; reflexivity. Qed.

Example make_matrix_colinear :
  make_matrix (vec 0 0 0) (vec 1 1 1) (vec 3 3 3)
  = Raises (BaseException "A B C are colinear").
Proof. reflexivity. Qed.

Example make_matrix_not_colinear :
  make_matrix (vec 0 0 0) (vec 2 0 0) (vec 0 1 0)
  = Returns [[2; 0; 0; 0]; [0; 2; 0; 0]; [0; 0; 2; 0]; [0; 0; 0; 1]]%float.
Proof. reflexivity. Qed.

End make_matrix_sample.

(** ** The UV strips of the cubemap proxy *)

(** C6. On the 24 face corners of the cube the UV block returns, and the
    k-th face in the order +X, -X, +Y, -Y, +Z, -Z has [k/6] as the u of
    its first two loop indices and [(k+1)/6] as the u of its last two,
    with v = 0 and v = 1 in each pair; the numbers are the single
    precision ones the host stores. *)
Theorem render_360_for_camera_uv_strips (data : UVData) (f : face) :
  length data = 24 ->
  let r := render_360_for_camera_uv data in
  r.1 = Returns tt
  /\ length r.2 = 24
  /\ r.2 !! (face_loops f).1.1.1 = Some (sixths (strip f), 0%float)
  /\ r.2 !! (face_loops f).1.1.2 = Some (sixths (strip f), 1%float)
  /\ r.2 !! (face_loops f).1.2 = Some (sixths (S (strip f)), 0%float)
  /\ r.2 !! (face_loops f).2 = Some (sixths (S (strip f)), 1%float).
Proof.
  intros Hlen. cbv zeta.
  do 24 (destruct data as [|? data]; [ discriminate Hlen | ]).
  destruct data; [ | discriminate Hlen ].
  destruct f; vm_compute; repeat split; reflexivity.
Qed.

(** The +Z face on a fresh UV layer. *)
Lemma render_360_for_camera_uv_strips_sample :
  let r := render_360_for_camera_uv (replicate 24 (0%float, 0%float)) in
  r.1 = Returns tt
  /\ length r.2 = 24
  /\ r.2 !! (face_loops PosZ).1.1.1 = Some (sixths (strip PosZ), 0%float)
  /\ r.2 !! (face_loops PosZ).1.1.2 = Some (sixths (strip PosZ), 1%float)
  /\ r.2 !! (face_loops PosZ).1.2 = Some (sixths (S (strip PosZ)), 0%float)
  /\ r.2 !! (face_loops PosZ).2 = Some (sixths (S (strip PosZ)), 1%float).
Proof.
  apply (render_360_for_camera_uv_strips
           (replicate 24 (0%float, 0%float)) PosZ).
  reflexivity.
Defined.

(** The stored numbers are the quotients [k/6] rounded once, to single
    precision, although [x_pos] is a running binary64 sum. *)
Lemma sixths_correctly_rounded (k : nat) :
  k <= 6 ->
  sixths k = SF2Prim (SFdiv 24 128 (Prim2SF (float_of_nat k)) (Prim2SF 6)).
Proof.
  intros Hk. do 7 (destruct k as [|k]; [ reflexivity | ]). lia.
Qed.

(** The running sums [x_pos] in binary64: the quotient [k/6] up to the
    fourth step, one unit in the last place below it after that. *)
Example x_pos_running_sums :
  let step := (1 / 6)%float in
  let x1 := (0 + step)%float in
  let x2 := (x1 + step)%float in
  let x3 := (x2 + step)%float in
  let x4 := (x3 + step)%float in
  let x5 := (x4 + step)%float in
  let x6 := (x5 + step)%float in
  [x1; x2; x3; x4] = [1 / 6; 2 / 6; 3 / 6; 4 / 6]%float
  /\ x5 = next_down (5 / 6)%float /\ x6 = next_down 1%float
  /\ map to_single [x1; x2; x3; x4; x5; x6] = map sixths [1; 2; 3; 4; 5; 6].
Proof. repeat split; reflexivity. Qed.

Example x_pos_after_six_steps :
  (0 + 1/6 + 1/6 + 1/6 + 1/6 + 1/6 + 1/6)%float = 0x1.fffffffffffffp-1%float
  /\ to_single 0x1.fffffffffffffp-1 = 1%float.
Proof. split; reflexivity. Qed.

(** ** The theorems at work *)

Section examples.
#[local] Existing Instance sample_libm.

(** On the axis the angle at vertex 1 is 180 degrees: the vertex is moved
    onto vertex 0. *)
Lemma collapse_points_on_line_collapses_iff_sample :
  let r := collapse_points_on_line 0 1 2 170 axis_line in
  r.1 = Returns tt
  /\ is_Some (verts axis_line !! 0)
  /\ verts r.2 !! 1 = verts axis_line !! 0
  /\ (forall j, j <> 1 -> verts r.2 !! j = verts axis_line !! j).
Proof.
  apply (proj1 (collapse_points_on_line_collapses_iff 0 1 2 170 axis_line)).
  exists math.pi. split; reflexivity.
Defined.

(** At a right angle the test fails and nothing moves. *)
Example collapse_points_on_line_corner :
  collapse_points_on_line 0 1 2 170 corner =
  (Returns tt,
   {| verts := verts corner; edges := edges corner;
      stdout := [PFloat 90] |}).
Proof. reflexivity. Qed.

(** On the diagonal the angle cannot be computed and nothing moves. *)
Example collapse_points_on_line_diagonal :
  collapse_points_on_line 0 1 2 170 diagonal_line =
  (Raises (ValueError "math domain error"), diagonal_line).
Proof. reflexivity. Qed.

(** A vertex that lies on its neighbour: the distance is zero and the
    angle is 0, without a division. *)
Lemma get_planar_angle_never_divides_by_zero_sample :
  get_planar_angle 0 1 2 doubled_vertex = (Returns 0%float, doubled_vertex).
Proof.
  exact (proj1 (get_planar_angle_never_divides_by_zero 0 1 2 doubled_vertex)
           5%float 0%float 5%float eq_refl eq_refl eq_refl).
Defined.

(** The run on the axis: three vertices, three lists. *)
Lemma collapse_edges_in_order_visits_every_vertex_sample :
  let r := collapse_edges_in_order 170 axis_line in
  exists out k,
    stdout r.2 = stdout axis_line ++ out
    /\ k <= length (verts axis_line)
    /\ printed_lists out = map (neighbors_of (edges axis_line)) (seq 0 k)
    /\ (r.1 = Returns tt -> k = length (verts axis_line)).
Proof.
  exact (collapse_edges_in_order_visits_every_vertex 170 axis_line).
Defined.

Example collapse_edges_in_order_axis_line_lists :
  printed_lists (stdout (collapse_edges_in_order 170 axis_line).2)
  = [[1]; [0; 2]; [1]].
Proof. reflexivity. Qed.

(** Vertex 0 of the diagonal line has one neighbour: it is where it was
    after the run that raised. *)
Lemma collapse_edges_in_order_frame_sample :
  verts (collapse_edges_in_order 170 diagonal_line).2 !! 0
  = verts diagonal_line !! 0.
Proof.
  apply (collapse_edges_in_order_frame 170 diagonal_line 0).
  simpl. lia.
Defined.

End examples.

(** The cube moved to layer 3 of the editor: only flag 2 is set. *)
Lemma move_object_to_layer_sets_exactly_one_layer_sample :
  let r := move_object_to_layer "Cube" 3 cube_and_camera in
  r.1 = Returns tt
  /\ exists o', objects r.2 !! "Cube" = Some o'
       /\ type o' = type mesh_object
       /\ location o' = location mesh_object
       /\ length (layers o') = length (layers mesh_object)
       /\ forall j, j < length (layers mesh_object) ->
            layers o' !! j = Some (bool_decide (j = layer_index 3)).
Proof.
  apply (move_object_to_layer_sets_exactly_one_layer "Cube" 3 cube_and_camera
           mesh_object).
  - reflexivity.
  - right. simpl. lia.
Defined.

(** Layer 0 of the editor is the tenth flag. *)
Example move_object_to_layer_0 :
  (layers <$> objects (move_object_to_layer "Cube" 0 cube_and_camera).2
                !! "Cube")
  = Some (replicate 9 false ++ true :: replicate 10 false).
Proof. reflexivity. Qed.

(** Selecting the camera deselects the cube. *)
Lemma select_object_selects_only_the_object_sample :
  let r := select_object (vp := default_viewport) (Some "Camera")
             cube_and_camera in
  r.1 = Returns tt
  /\ objects r.2 = objects cube_and_camera
  /\ active r.2 = Some "Camera"
  /\ mode r.2 = "OBJECT"
  /\ selected r.2 =
     {["Camera"]}
     ∪ (selected cube_and_camera
        ∖ visible (vp := default_viewport) cube_and_camera)
  /\ (forall k, k ∈ visible (vp := default_viewport) cube_and_camera ->
        (k ∈ selected r.2 <-> k = "Camera")).
Proof.
  apply (proj2 (proj2
           (select_object_selects_only_the_object (vp := default_viewport)))
           "Camera" cube_and_camera).
  - reflexivity.
  - apply elem_of_visible. exists camera_object.
    split; [ vm_compute; reflexivity | split; reflexivity ].
  - reflexivity.
Defined.

Example select_object_camera :
  select_object (vp := default_viewport) (Some "Camera") cube_and_camera =
  (Returns tt,
   {| objects := objects cube_and_camera; selected := {["Camera"]};
      active := Some "Camera"; mode := "OBJECT" |}).
Proof. vm_compute. reflexivity. Qed.

(** C4 as stated fails while an object is edited: the object is not
    [None], and the call raises. *)
Lemma select_object_raises_in_edit_mode :
  ~ (select_object (vp := default_viewport) (Some "Camera")
       cube_and_camera_edit).1 = Returns tt.
Proof. vm_compute. discriminate. Qed.

Example select_object_edit_mode :
  select_object (vp := default_viewport) (Some "Camera") cube_and_camera_edit
  = (Raises (RuntimeError
       "Operator bpy.ops.object.select_all.poll() failed, context is incorrect"),
     cube_and_camera_edit).
Proof. vm_compute. reflexivity. Qed.

(** In the default scene the camera is deleted and the cube survives
    [delete_all_cameras]; it is no longer selected. *)
Lemma delete_all_cameras_deletes_exactly_the_cameras_sample :
  let s := cube_and_camera in
  let r := delete_all_cameras (vp := default_viewport) s in
  r.1 = Returns tt
  /\ (forall k o, objects s !! k = Some o -> type o = "CAMERA" ->
        k ∈ visible (vp := default_viewport) s ->
        hide_select (Viewport := default_viewport) k = false ->
        objects r.2 !! k = None)
  /\ (forall k o, objects s !! k = Some o -> type o <> "CAMERA" ->
        k ∈ visible (vp := default_viewport) s \/ k ∉ selected s ->
        objects r.2 !! k = Some o)
  /\ (forall k o, objects r.2 !! k = Some o -> objects s !! k = Some o)
  /\ (forall k, k ∈ visible (vp := default_viewport) s -> k ∉ selected r.2)
  /\ ((forall k, k ∈ dom (objects s) ->
         k ∈ visible (vp := default_viewport) s
         /\ hide_select (Viewport := default_viewport) k = false) ->
      forall k o, objects r.2 !! k = Some o -> type o <> "CAMERA").
Proof.
  apply (proj2 (delete_all_cameras_deletes_exactly_the_cameras
                  (vp := default_viewport) cube_and_camera)).
  reflexivity.
Defined.

Example delete_all_cameras_cube_and_camera :
  delete_all_cameras (vp := default_viewport) cube_and_camera =
  (Returns tt,
   {| objects := {["Cube" := mesh_object]}; selected := ∅;
      active := Some "Cube"; mode := "OBJECT" |}).
Proof. vm_compute. reflexivity. Qed.

(** C9 as stated fails while an object is edited: the call raises and the
    camera is still in the scene. *)
Lemma delete_all_cameras_keeps_the_camera_in_edit_mode :
  let r := delete_all_cameras (vp := default_viewport) cube_and_camera_edit in
  ~ (forall k o, objects r.2 !! k = Some o -> type o <> "CAMERA").
Proof.
  cbv zeta. intros H. apply (H "Camera" camera_object); reflexivity.
Qed.

Example delete_all_cameras_edit_mode :
  delete_all_cameras (vp := default_viewport) cube_and_camera_edit
  = (Raises (RuntimeError
       "Operator bpy.ops.object.select_all.poll() failed, context is incorrect"),
     cube_and_camera_edit).
Proof. vm_compute. reflexivity. Qed.

(** ** More on selection and deletion *)

Section more_scene.
Context {vp : Viewport}.

Lemma filter_not_in_singleton (m : gmap string Object) (k : string) :
  filter (fun kv : string * Object => kv.1 ∉ ({[k]} : gset string)) m
  = delete k m.
Proof.
  apply map_eq. intros j. destruct (decide (j = k)) as [->|Hne].
  - rewrite lookup_delete_eq. apply map_lookup_filter_None. right.
    intros o _ Hn. simpl in Hn. apply Hn. apply elem_of_singleton.
    reflexivity.
  - rewrite lookup_delete_ne by congruence.
    destruct (m !! j) as [o|] eqn:E.
    + apply map_lookup_filter_Some. split; [ exact E | ]. simpl.
      intros Hin. apply elem_of_singleton in Hin. contradiction.
    + apply map_lookup_filter_None. left. exact E.
Qed.

(** A scene is its four fields. *)
Lemma scene_eq (s t : Scene) :
  objects s = objects t -> selected s = selected t ->
  active s = active t -> mode s = mode t -> s = t.
Proof. destruct s, t. simpl. intros -> -> -> ->. reflexivity. Qed.

(** [bpy.ops.object.delete()] where it takes nothing. *)
Lemma object_delete_nothing (s : Scene) :
  mode s = "OBJECT" -> delete_takes s = ∅ ->
  object_delete s = (Returns tt, s).
Proof.
  intros Hmode He. rewrite object_delete_run by exact Hmode. rewrite He.
  f_equal. apply scene_eq; cbn [objects selected active mode].
  - apply map_filter_id. intros k o _. apply not_elem_of_empty.
  - apply difference_empty_L.
  - destruct (active s) as [a|]; [ | reflexivity ].
    rewrite decide_False by apply not_elem_of_empty. reflexivity.
  - reflexivity.
Qed.

(** X4. Outside object mode [delete_all] raises [RuntimeError] at its
    first call and leaves the scene as it was.  In object mode it returns
    and keeps the mode; every object that the viewport shows and that is
    selectable is gone; an object that was not selected and that the
    viewport does not show, or that is not selectable, stays what it was;
    nothing is added.  When the viewport shows every object of the scene
    and every object is selectable, no object is left. *)
Lemma delete_all_deletes_every_object (s : Scene) :
  (mode s <> "OBJECT" ->
   delete_all s = (Raises (poll_failed "object.select_all"), s))
  /\ (mode s = "OBJECT" ->
      let r := delete_all s in
      r.1 = Returns tt
      /\ mode r.2 = mode s
      /\ (forall k, k ∈ visible s -> hide_select k = false ->
            objects r.2 !! k = None)
      /\ (forall k, k ∉ selected s ->
            k ∉ visible s \/ hide_select k = true ->
            objects r.2 !! k = objects s !! k)
      /\ (forall k o, objects r.2 !! k = Some o -> objects s !! k = Some o)
      /\ ((forall k, k ∈ dom (objects s) ->
             k ∈ visible s /\ hide_select k = false) ->
          objects r.2 = ∅)).
Proof.
  split.
  - intros Hmode. unfold delete_all.
    rewrite bind_run, select_all_fails by exact Hmode. reflexivity.
  - intros Hmode. cbv zeta. unfold delete_all, delete_selected_objects.
    rewrite bind_run, (select_all_run SELECT s Hmode).
    set (s1 := {| objects := objects s;
                  selected := selected s
                              ∪ filter (fun k => hide_select k = false)
                                  (visible s);
                  active := active s; mode := mode s |}).
    assert (Hmode1 : mode s1 = "OBJECT") by exact Hmode.
    assert (Hgone : forall k, k ∈ visible s -> hide_select k = false ->
              objects (object_delete s1).2 !! k = None).
    { intros k Hv Hsel. rewrite object_delete_lookup by exact Hmode1.
      rewrite decide_True; [ reflexivity | ].
      apply elem_of_delete_takes.
      pose proof Hv as Hv'. apply elem_of_visible in Hv' as (o & Hko & Hh & Hl).
      exists o. split; [ exact Hko | ]. split; [ | auto ].
      cbn [s1 selected]. apply elem_of_union. right.
      apply elem_of_filter. auto. }
    assert (Hsub : forall k o, objects (object_delete s1).2 !! k = Some o ->
              objects s !! k = Some o).
    { intros k o. rewrite object_delete_lookup by exact Hmode1.
      destruct (decide (k ∈ delete_takes s1)); [ discriminate | auto ]. }
    split; [ rewrite object_delete_run by exact Hmode1; reflexivity | ].
    split; [ rewrite object_delete_run by exact Hmode1; reflexivity | ].
    split; [ exact Hgone | ]. split; [ | split; [ exact Hsub | ] ].
    + intros k Hk Hv. rewrite object_delete_lookup by exact Hmode1.
      rewrite decide_False; [ reflexivity | ].
      intros Hin. apply elem_of_delete_takes in Hin as (_ & _ & Hin & _).
      cbn [s1 selected] in Hin. apply elem_of_union in Hin as [Hin|Hin];
        [ contradiction | ].
      apply elem_of_filter in Hin as [H1 H2].
      destruct Hv as [Hv|Hv]; [ contradiction | congruence ].
    + intros Hall. apply map_empty. intros k.
      destruct (objects (object_delete s1).2 !! k) as [o|] eqn:E;
        [ | reflexivity ].
      pose proof (Hsub k o E) as Hko.
      destruct (Hall k) as [Hv Hsel]; [ apply elem_of_dom; eauto | ].
      rewrite (Hgone k Hv Hsel) in E. discriminate.
Qed.

(** [delete_object] in object mode, on an object that the viewport shows
    and that is selectable. *)
Lemma delete_object_run (o : string) (s : Scene) :
  mode s = "OBJECT" -> o ∈ visible s -> hide_select o = false ->
  delete_object (Some o) s =
  object_delete
    {| objects := objects s; selected := {[o]} ∪ (selected s ∖ visible s);
       active := Some o; mode := "OBJECT" |}.
Proof.
  intros Hmode Hv Hsel. unfold delete_object.
  rewrite bind_run, (select_object_run o s Hmode Hv Hsel). reflexivity.
Qed.

(** X5. [delete_object] on [None] raises [ValueError] and deletes
    nothing, whatever is selected.  Outside object mode it raises
    [RuntimeError] at its first call and deletes nothing.  In object mode,
    on an object that the viewport shows and that is selectable, it
    returns and has deleted that object; every other object that the
    viewport shows, or that was not selected, stays what it was, also when
    it was selected before the call; nothing is added; afterwards no
    object is active and the scene is in object mode.  When every object
    that was selected is shown, the object is the only one deleted and
    nothing is selected afterwards. *)
Lemma delete_object_deletes_only_the_object :
  (forall s : Scene,
     delete_object None s =
     (Raises (ValueError
        "Error: the object that you are trying to select does not exist"), s))
  /\ (forall (o : string) (s : Scene),
        mode s <> "OBJECT" ->
        delete_object (Some o) s =
        (Raises (poll_failed "object.select_all"), s))
  /\ (forall (o : string) (s : Scene),
        mode s = "OBJECT" -> o ∈ visible s -> hide_select o = false ->
        let r := delete_object (Some o) s in
        r.1 = Returns tt
        /\ objects r.2 !! o = None
        /\ (forall k, k <> o -> k ∈ visible s \/ k ∉ selected s ->
              objects r.2 !! k = objects s !! k)
        /\ (forall k ob, objects r.2 !! k = Some ob ->
              objects s !! k = Some ob)
        /\ active r.2 = None
        /\ mode r.2 = "OBJECT"
        /\ (selected s ⊆ visible s ->
            r.2 = {| objects := delete o (objects s); selected := ∅;
                     active := None; mode := "OBJECT" |})).
Proof.
  split; [ reflexivity | ]. split.
  - intros o s Hmode. unfold delete_object, select_object.
    rewrite !bind_run, select_all_fails by exact Hmode. reflexivity.
  - intros o s Hmode Hv Hsel. cbv zeta.
    rewrite (delete_object_run o s Hmode Hv Hsel).
    set (s1 := {| objects := objects s;
                  selected := {[o]} ∪ (selected s ∖ visible s);
                  active := Some o; mode := "OBJECT" |}).
    assert (Hmode1 : mode s1 = "OBJECT") by reflexivity.
    assert (Ho : o ∈ delete_takes s1).
    { pose proof Hv as Hv'.
      apply elem_of_visible in Hv' as (ob & Hob & Hh & Hl).
      apply elem_of_delete_takes. exists ob. split; [ exact Hob | ].
      split; [ | auto ]. cbn [s1 selected]. apply elem_of_union. left.
      apply elem_of_singleton. reflexivity. }
    split; [ rewrite object_delete_run by exact Hmode1; reflexivity | ].
    split; [ rewrite object_delete_lookup by exact Hmode1;
             rewrite decide_True by exact Ho; reflexivity | ].
    split; [ | split; [ | split; [ | split ] ] ].
    + intros k Hk Hkv. rewrite object_delete_lookup by exact Hmode1.
      rewrite decide_False; [ reflexivity | ].
      intros Hin. apply elem_of_delete_takes in Hin as (_ & _ & Hin & _).
      cbn [s1 selected] in Hin. apply elem_of_union in Hin as [Hin|Hin].
      * apply elem_of_singleton in Hin. contradiction.
      * apply elem_of_difference in Hin as [H1 H2].
        destruct Hkv; contradiction.
    + intros k ob. rewrite object_delete_lookup by exact Hmode1.
      destruct (decide (k ∈ delete_takes s1)); [ discriminate | auto ].
    + rewrite object_delete_run by exact Hmode1. cbn [snd active s1].
      rewrite decide_True by exact Ho. reflexivity.
    + rewrite object_delete_run by exact Hmode1. reflexivity.
    + intros Hsub.
      assert (Hsel1 : selected s1 = {[o]}).
      { cbn [s1 selected]. apply set_eq. intros k.
        rewrite elem_of_union, elem_of_difference, elem_of_singleton.
        split; [ intros [H|[H1 H2]]; [ exact H | ] | auto ].
        exfalso. apply H2. apply Hsub. exact H1. }
      assert (Htakes : delete_takes s1 = {[o]}).
      { apply set_eq. intros k. rewrite elem_of_singleton. split.
        - intros Hin. apply elem_of_delete_takes in Hin as (_ & _ & Hin & _).
          rewrite Hsel1 in Hin. apply elem_of_singleton in Hin. exact Hin.
        - intros ->. exact Ho. }
      rewrite object_delete_run by exact Hmode1. cbn [snd].
      rewrite Htakes, Hsel1. apply scene_eq; cbn [objects selected active mode].
      * apply filter_not_in_singleton.
      * apply difference_diag_L.
      * cbn [s1 active]. rewrite decide_True; [ reflexivity | ].
        apply elem_of_singleton. reflexivity.
      * reflexivity.
Qed.

(** X6. In object mode [delete_all_cameras] keeps the interaction mode,
    and the active object stays active unless the call deleted it, in
    which case no object is active afterwards.  On a scene without
    cameras in which every selected object is shown, the call changes
    nothing but the selection, which it empties. *)
Lemma delete_all_cameras_active_and_mode (s : Scene) :
  mode s = "OBJECT" ->
  let r := delete_all_cameras s in
  mode r.2 = mode s
  /\ active r.2 =
     match active s with
     | Some a =>
         if decide (is_Some (objects s !! a) /\ objects r.2 !! a = None)
         then None else Some a
     | None => None
     end
  /\ ((forall k o, objects s !! k = Some o -> type o <> "CAMERA") ->
      selected s ⊆ visible s ->
      r.2 = {| objects := objects s; selected := ∅; active := active s;
               mode := mode s |}).
Proof.
  intros Hmode. cbv zeta.
  destruct (delete_all_cameras_selects_cameras s Hmode)
    as (s2 & -> & Ho & Ha & Hm & Hs).
  unfold delete_selected_objects.
  assert (Hmode2 : mode s2 = "OBJECT") by congruence.
  split; [ rewrite object_delete_run by exact Hmode2; exact Hm | ].
  split; [ rewrite (object_delete_active s2 Hmode2), Ha, Ho; reflexivity | ].
  intros Hnone Hsub.
  assert (Hsel : selected s2 = ∅).
  { apply set_eq. intros k. rewrite Hs. split.
    - intros [[H1 H2]|(_ & o & Hko & Hc)].
      + exfalso. apply H2. apply Hsub. exact H1.
      + exfalso. apply (Hnone k o Hko Hc).
    - intros H. apply not_elem_of_empty in H. contradiction. }
  assert (Htakes : delete_takes s2 = ∅).
  { apply set_eq. intros k. split.
    - intros Hin. apply elem_of_delete_takes in Hin as (_ & _ & Hin & _).
      rewrite Hsel in Hin. exact Hin.
    - intros H. apply not_elem_of_empty in H. contradiction. }
  rewrite (object_delete_nothing s2 Hmode2 Htakes). cbn [snd].
  apply scene_eq; cbn [objects selected active mode]; assumption.
Qed.

(** X23. Deleting the cameras twice is deleting them once: the second
    call deletes nothing and leaves the selection as the first left it;
    outside object mode both raise at the same first call. *)
Lemma delete_all_cameras_twice (s : Scene) :
  (delete_all_cameras;; delete_all_cameras) s = delete_all_cameras s.
Proof.
  rewrite bind_run.
  destruct (decide (mode s = "OBJECT")) as [Hmode|Hmode];
    [ | rewrite delete_all_cameras_fails by exact Hmode; reflexivity ].
  destruct (delete_all_cameras_selects_cameras s Hmode)
    as (s2 & -> & Ho & Ha & Hm & Hs).
  unfold delete_selected_objects.
  assert (Hmode2 : mode s2 = "OBJECT") by congruence.
  pose proof (object_delete_lookup s2) as Hlook.
  pose proof (object_delete_run s2 Hmode2) as Hrun.
  destruct (object_delete s2) as [[[]|e] s'] eqn:Es'; [ | discriminate ].
  injection Hrun as Hs'. cbn [snd] in Hlook.
  assert (Hmode' : mode s' = "OBJECT") by (rewrite Hs'; exact Hmode2).
  assert (Hsel' : forall k, k ∈ selected s' <->
                    k ∈ selected s2 /\ k ∉ delete_takes s2).
  { intros k. rewrite Hs'. cbn [selected]. apply elem_of_difference. }
  destruct (delete_all_cameras_selects_cameras s' Hmode')
    as (t & -> & Ho' & Ha' & Hm' & Ht).
  unfold delete_selected_objects.
  assert (Hmodet : mode t = "OBJECT") by congruence.
  assert (Hlook' : forall k o, objects s' !! k = Some o ->
             objects s !! k = Some o /\ k ∉ delete_takes s2).
  { intros k o. rewrite (Hlook k Hmode2).
    destruct (decide (k ∈ delete_takes s2)); [ discriminate | ].
    rewrite Ho. auto. }
  assert (Hselt : selected t = selected s').
  { apply set_eq. intros k. split.
    - intros H. apply Ht in H as [[H1 _]|(Hh & o & Hko & Hc)];
        [ exact H1 | ].
      apply Hlook' in Hko as [Hko Hn]. apply Hsel'. split; [ | exact Hn ].
      apply Hs. right. split; [ exact Hh | ]. eauto.
    - intros Hin'. pose proof Hin' as H0. apply Hsel' in H0 as [Hin Hn].
      apply Hs in Hin. apply Ht.
      destruct (decide (k ∈ visible s')) as [Hv|Hv];
        [ | left; split; assumption ].
      right. apply elem_of_visible in Hv as (o & Hko & Hh & Hl).
      pose proof (Hlook' k o Hko) as [Hko' _].
      destruct Hin as [[_ H2]|(Hsel & o' & Hko'' & Hc)].
      + exfalso. apply H2. apply elem_of_visible. exists o. auto.
      + split; [ exact Hsel | ]. exists o. split; [ exact Hko | ].
        congruence. }
  assert (Htakes : delete_takes t = ∅).
  { apply set_eq. intros k. split.
    - intros Hin. apply elem_of_delete_takes in Hin as (o & Hko & Hin & Hl & Hh).
      rewrite Ho' in Hko. apply Hlook' in Hko as [Hko Hn].
      rewrite Hselt in Hin. apply Hsel' in Hin as [Hin _].
      exfalso. apply Hn. apply elem_of_delete_takes. exists o.
      rewrite Ho. auto.
    - intros H. apply not_elem_of_empty in H. contradiction. }
  rewrite (object_delete_nothing t Hmodet Htakes). f_equal.
  apply scene_eq; assumption.
Qed.

End more_scene.

(** ** More on layers *)

(** The flags the loop of [move_object_to_layer] leaves, in closed form. *)
Lemma clear_layers_one_flag (t n : nat) (ls : list bool) :
  length ls = n -> t < n ->
  fold_left (fun ls index =>
               if decide (index ≠ t) then <[index := false]> ls else ls)
    (seq 0 n) (<[t := true]> ls)
  = <[t := true]> (replicate n false).
Proof.
  intros Hn Ht. apply list_eq. intros j.
  destruct (decide (j < n)) as [Hj|Hj].
  - rewrite clear_layers_lookup by (rewrite length_insert; lia).
    destruct (decide (j = t)) as [->|Hjt].
    + rewrite decide_False by tauto.
      rewrite !list_lookup_insert_eq; [ reflexivity | | ];
        rewrite ?length_replicate; lia.
    + rewrite decide_True by (split; [ apply elem_of_seq; lia | exact Hjt ]).
      rewrite list_lookup_insert_ne by congruence.
      symmetry. apply lookup_replicate_2. exact Hj.
  - rewrite !(proj2 (lookup_ge_None _ _)); [ reflexivity | | ].
    + rewrite length_insert, length_replicate. lia.
    + rewrite clear_layers_length, length_insert. lia.
Qed.

Lemma move_object_to_layer_run (obj : string) (layer : Z) (s : Scene)
    (o : Object) :
  objects s !! obj = Some o ->
  (layer = 0%Z /\ 10 <= length (layers o))
  \/ (1 <= layer <= Z.of_nat (length (layers o)))%Z ->
  move_object_to_layer obj layer s =
  (Returns tt,
   {| objects :=
        <[obj := {| type := type o; location := location o;
                    layers := <[layer_index layer := true]>
                                (replicate (length (layers o)) false) |}]>
          (objects s);
      selected := selected s; active := active s; mode := mode s |}).
Proof.
  intros Ho Hlayer.
  set (n := length (layers o)) in *.
  set (t := layer_index layer).
  assert (Ht : t < n).
  { unfold t, layer_index. case_decide; lia. }
  assert (Hi : (if decide (layer = 0%Z) then 9%Z else (layer - 1)%Z)
               = Z.of_nat t).
  { unfold t, layer_index. case_decide; lia. }
  set (o1 := {| type := type o; location := location o;
                layers := <[t := true]> (layers o) |}).
  set (s1 := {| objects := <[obj := o1]> (objects s); selected := selected s;
                active := active s; mode := mode s |}).
  assert (Ho1 : objects s1 !! obj = Some o1) by apply lookup_insert_eq.
  assert (Hn1 : length (layers o1) = n) by apply length_insert.
  unfold move_object_to_layer. cbv zeta. rewrite Hi.
  rewrite bind_run, (layers_setitem_run obj t true s o Ho Ht).
  fold o1. fold s1. rewrite bind_run. unfold layers_len.
  rewrite Ho1, Hn1.
  rewrite (clear_layers_run obj t (seq 0 n) s1 o1 Ho1).
  - simpl. rewrite insert_insert_eq.
    rewrite clear_layers_one_flag by (reflexivity || exact Ht).
    reflexivity.
  - intros index Hin. apply elem_of_seq in Hin. lia.
Qed.

(** X7. For an object of the scene and a layer number of the editor,
    [move_object_to_layer] changes the layer flags of that object and
    nothing else: every other object, the object's type and location, the
    selection, the active object and the mode are what they were.  The
    new flags do not depend on the old ones: all are cleared but the one
    of the layer. *)
Lemma move_object_to_layer_changes_only_the_flags
    (obj : string) (layer : Z) (s : Scene) (o : Object) :
  objects s !! obj = Some o ->
  (layer = 0%Z /\ 10 <= length (layers o))
  \/ (1 <= layer <= Z.of_nat (length (layers o)))%Z ->
  let r := move_object_to_layer obj layer s in
  r.1 = Returns tt
  /\ objects r.2 !! obj =
     Some {| type := type o; location := location o;
             layers := <[layer_index layer := true]>
                         (replicate (length (layers o)) false) |}
  /\ (forall k, k ≠ obj -> objects r.2 !! k = objects s !! k)
  /\ selected r.2 = selected s
  /\ active r.2 = active s
  /\ mode r.2 = mode s.
Proof.
  intros Ho Hlayer. cbv zeta.
  rewrite (move_object_to_layer_run obj layer s o Ho Hlayer). simpl.
  split; [ reflexivity | ]. split; [ apply lookup_insert_eq | ].
  split; [ | auto ].
  intros k Hk. apply lookup_insert_ne. congruence.
Qed.

(** X8. Moving an object to a layer and then to another one leaves the
    scene that moving it to the second layer alone leaves: the last move
    decides, and a repeated move changes nothing more. *)
Lemma move_object_to_layer_last_move_decides
    (obj : string) (layer1 layer2 : Z) (s : Scene) (o : Object) :
  objects s !! obj = Some o ->
  (layer1 = 0%Z /\ 10 <= length (layers o))
  \/ (1 <= layer1 <= Z.of_nat (length (layers o)))%Z ->
  (layer2 = 0%Z /\ 10 <= length (layers o))
  \/ (1 <= layer2 <= Z.of_nat (length (layers o)))%Z ->
  (move_object_to_layer obj layer1;; move_object_to_layer obj layer2) s
  = move_object_to_layer obj layer2 s.
Proof.
  intros Ho H1 H2. rewrite bind_run.
  rewrite (move_object_to_layer_run obj layer1 s o Ho H1).
  set (n := length (layers o)) in *.
  assert (Ht : layer_index layer1 < n).
  { unfold layer_index. case_decide; lia. }
  erewrite move_object_to_layer_run; cycle 1.
  - simpl. apply lookup_insert_eq.
  - simpl. rewrite length_insert, length_replicate. exact H2.
  - rewrite (move_object_to_layer_run obj layer2 s o Ho H2). simpl.
    rewrite length_insert, length_replicate, insert_insert_eq. reflexivity.
Qed.

(** X9. A layer number that stands for no layer flag of the object (for
    the 20 flags of Blender: above 20, or below -19) makes
    [move_object_to_layer] raise [IndexError] at its first assignment, and
    the scene is left as it was. *)
Lemma move_object_to_layer_out_of_range
    (obj : string) (layer : Z) (s : Scene) (o : Object) :
  objects s !! obj = Some o ->
  let n := Z.of_nat (length (layers o)) in
  (layer = 0 /\ n < 10)%Z \/ (n < layer)%Z \/ (layer < 0 /\ layer ≤ - n)%Z ->
  move_object_to_layer obj layer s = (Raises IndexError, s).
Proof.
  intros Ho n Hlayer. unfold move_object_to_layer. cbv zeta.
  rewrite bind_run. unfold layers_setitem. rewrite Ho. fold n.
  unfold py_index.
  destruct (decide (layer = 0%Z)) as [->|Hz].
  - rewrite decide_False by lia. rewrite decide_False by lia. reflexivity.
  - rewrite decide_False by lia. rewrite decide_False by lia. reflexivity.
Qed.

(** ** More on the decimation loop *)

Section decimate_more.
Context {libm : math.Libm}.

(** [collapse_points_on_line] puts no new coordinates into the mesh. *)
Lemma collapse_points_on_line_positions
    (v0 v1 v2 : BMVert) (angle : float) (bm : BMesh) (i : nat) (c : Vector) :
  verts (collapse_points_on_line v0 v1 v2 angle bm).2 !! i = Some c ->
  c ∈ verts bm.
Proof.
  unfold collapse_points_on_line. rewrite bind_run.
  pose proof (readonly_get_planar_angle v0 v1 v2 bm) as Hr.
  destruct (get_planar_angle v0 v1 v2 bm) as [[a|e] bm1]; simpl in Hr;
    subst bm1; [ | apply list_elem_of_lookup_2 ].
  rewrite bind_run, print_run.
  destruct (angle <? math.degrees a)%float;
    [ | apply list_elem_of_lookup_2 ].
  rewrite bind_run, print_run, bind_run. unfold co, set_co. simpl.
  destruct (verts bm !! v0) as [c0|] eqn:E0; simpl;
    [ | apply list_elem_of_lookup_2 ].
  destruct (verts bm !! v1) as [c1|]; simpl;
    [ | apply list_elem_of_lookup_2 ].
  intros H. apply list_lookup_insert_Some in H as [(_ & <- & _)|[_ H]].
  - apply (list_elem_of_lookup_2 _ v0). exact E0.
  - apply (list_elem_of_lookup_2 _ i). exact H.
Qed.

Lemma collapse_vertex_positions
    (angle : float) (v : BMVert) (bm : BMesh) (i : nat) (c : Vector) :
  verts (collapse_vertex angle v bm).2 !! i = Some c -> c ∈ verts bm.
Proof.
  rewrite collapse_vertex_run. cbv zeta.
  set (ns := neighbors_of (edges bm) v).
  set (bm1 := {| verts := verts bm; edges := edges bm;
                 stdout := stdout bm ++ [PList ns] |}).
  destruct (decide (length ns = 2)).
  - destruct (decide (nth 0 ns 0 < length (verts bm)));
      [ | apply list_elem_of_lookup_2 ].
    destruct (decide (nth 1 ns 0 < length (verts bm)));
      [ | apply list_elem_of_lookup_2 ].
    apply (collapse_points_on_line_positions _ _ _ _ bm1).
  - rewrite print_run. apply list_elem_of_lookup_2.
Qed.

Lemma for_each_collapse_vertex_positions
    (angle : float) (l : list nat) (bm : BMesh) (i : nat) (c : Vector) :
  verts (for_each l (collapse_vertex angle) bm).2 !! i = Some c ->
  c ∈ verts bm.
Proof.
  revert bm i c. induction l as [|v l IH]; intros bm i c.
  - apply list_elem_of_lookup_2.
  - simpl for_each. rewrite bind_run.
    pose proof (collapse_vertex_positions angle v bm) as Hv.
    destruct (collapse_vertex angle v bm) as [[[]|e] bm1]; simpl in *.
    + intros H. apply IH in H. apply list_elem_of_lookup_1 in H as [j Hj].
      apply (Hv j). exact Hj.
    + apply Hv.
Qed.

(** X10. [collapse_edges_in_order] moves vertices and does nothing else
    to the mesh: however the call ends, the mesh has the edges and the
    number of vertices it had, and every vertex is at a position that
    some vertex of the mesh had before the call. *)
Lemma collapse_edges_in_order_only_moves_vertices
    (angle : float) (bm : BMesh) :
  let r := collapse_edges_in_order angle bm in
  edges r.2 = edges bm
  /\ length (verts r.2) = length (verts bm)
  /\ (forall i c, verts r.2 !! i = Some c -> c ∈ verts bm).
Proof.
  cbv zeta. unfold collapse_edges_in_order. rewrite bind_run. simpl.
  destruct (for_each_collapse_vertex_frame angle
              (seq 0 (length (verts bm))) bm 0) as (He & Hl & _).
  split; [ exact He | ]. split; [ exact Hl | ].
  apply for_each_collapse_vertex_positions.
Qed.

(** The neighbour list has one entry for every edge that touches the
    vertex. *)
Lemma neighbors_of_length (es : list (nat * nat)) (v : nat) :
  length (neighbors_of es v)
  = length (filter (fun e : nat * nat => e.1 = v \/ e.2 = v) es).
Proof.
  induction es as [|e es IH].
  - reflexivity.
  - rewrite neighbors_of_cons, length_app, IH, filter_cons.
    destruct (decide (e.1 = v)) as [H1|H1].
    + rewrite decide_True by auto. reflexivity.
    + destruct (decide (e.2 = v)) as [H2|H2].
      * rewrite decide_True by auto. reflexivity.
      * rewrite decide_False by tauto. reflexivity.
Qed.

(** X11. [get_vertex_neighbors] returns a list with one entry for every
    edge that has the vertex at one of its ends (an edge from the vertex
    to itself counts once), prints that list, and changes nothing in the
    mesh.  A vertex that does not have exactly two such edges is only
    reported by the loop of [collapse_edges_in_order]: the turn prints the
    count and returns. *)
Lemma get_vertex_neighbors_counts_edges (v : nat) (bm : BMesh) :
  let touching := filter (fun e : nat * nat => e.1 = v \/ e.2 = v) (edges bm) in
  exists ns,
    length ns = length touching
    /\ get_vertex_neighbors v bm =
       (Returns ns, {| verts := verts bm; edges := edges bm;
                       stdout := stdout bm ++ [PList ns] |})
    /\ forall angle,
         length touching <> 2 ->
         collapse_vertex angle v bm =
         (Returns tt,
          {| verts := verts bm; edges := edges bm;
             stdout := stdout bm ++
               [PList ns;
                PStr ("The length of the neighbors was " +:+
                      pretty (length touching))] |}).
Proof.
  cbv zeta. exists (neighbors_of (edges bm) v).
  split; [ apply neighbors_of_length | ].
  split; [ apply get_vertex_neighbors_run | ].
  intros angle Hn. rewrite collapse_vertex_run. cbv zeta.
  rewrite <- neighbors_of_length in *.
  rewrite decide_False by exact Hn.
  rewrite print_run. simpl. rewrite <- app_assoc. reflexivity.
Qed.

(** The angle at a vertex between two vertices of the mesh: the only
    exceptions are those of the [math] module. *)
Lemma get_planar_angle_raises
    (v0 v1 v2 : BMVert) (bm : BMesh) (e : exn) :
  v0 < length (verts bm) -> v1 < length (verts bm) ->
  v2 < length (verts bm) ->
  (get_planar_angle v0 v1 v2 bm).1 = Raises e ->
  e = ValueError "math domain error" \/ e = OverflowError "math range error".
Proof.
  intros H0 H1 H2.
  assert (Hd : forall u w e',
    u < length (verts bm) -> w < length (verts bm) ->
    (get_distance_between_points u w bm).1 = Raises e' ->
    e' = ValueError "math domain error"
    \/ e' = OverflowError "math range error").
  { intros u w e' Hu Hw He.
    pose proof He as He'.
    apply get_distance_between_points_raises in He as [->|He]; [ | exact He ].
    exfalso. rewrite get_distance_between_points_run in He'.
    cbn [fst] in He'. unfold BMVert in He'.
    apply lookup_lt_is_Some in Hu as [cu Hu], Hw as [cw Hw].
    rewrite Hu, Hw in He'. cbv [mbind outcome_bind] in He'.
    destruct (math.pow2 (x cu - x cw)) as [dx|ex] eqn:Ex;
      [ | apply pow2_raises in Ex; intuition congruence ].
    destruct (math.pow2 (y cu - y cw)) as [dy|ey] eqn:Ey;
      [ | apply pow2_raises in Ey; intuition congruence ].
    destruct (math.pow2 (z cu - z cw)) as [dz|ez] eqn:Ez;
      [ | apply pow2_raises in Ez; intuition congruence ].
    apply math_1_raises in He'. intuition discriminate. }
  rewrite get_planar_angle_run. simpl.
  destruct (get_distance_between_points v0 v2 bm).1 as [a|ea] eqn:Ha;
    [ | simpl; intros [= <-]; eapply Hd; [ | | exact Ha ]; assumption ].
  destruct (get_distance_between_points v0 v1 bm).1 as [b|eb] eqn:Hb;
    [ | simpl; intros [= <-]; eapply Hd; [ | | exact Hb ]; assumption ].
  destruct (get_distance_between_points v1 v2 bm).1 as [c|ec] eqn:Hc;
    [ | simpl; intros [= <-]; eapply Hd; [ | | exact Hc ]; assumption ].
  cbv [mbind outcome_bind].
  destruct ((b =? 0) || (c =? 0))%float eqn:Hz; [ discriminate | ].
  apply get_distance_between_points_sqrt in Hb as [s ->], Hc as [t ->].
  apply orb_false_iff in Hz as [Hs Ht].
  unfold truediv. rewrite (sqrt_product_nonzero s t Hs Ht).
  apply math_1_raises.
Qed.

Lemma collapse_points_on_line_raises
    (v0 v1 v2 : BMVert) (angle : float) (bm : BMesh) (e : exn) :
  v0 < length (verts bm) -> v1 < length (verts bm) ->
  v2 < length (verts bm) ->
  (collapse_points_on_line v0 v1 v2 angle bm).1 = Raises e ->
  e = ValueError "math domain error" \/ e = OverflowError "math range error".
Proof.
  intros H0 H1 H2. unfold collapse_points_on_line. rewrite bind_run.
  pose proof (get_planar_angle_raises v0 v1 v2 bm) as Hr.
  pose proof (readonly_get_planar_angle v0 v1 v2 bm) as Hro.
  destruct (get_planar_angle v0 v1 v2 bm) as [[a|e'] bm1]; simpl in *;
    subst bm1; [ | intros [= <-]; apply Hr; auto ].
  rewrite bind_run, print_run.
  destruct (angle <? math.degrees a)%float; [ | discriminate ].
  rewrite bind_run, print_run, bind_run. unfold co, set_co, BMVert. simpl.
  apply lookup_lt_is_Some in H0 as [c0 H0], H1 as [c1 H1].
  rewrite H0. simpl. rewrite H1. discriminate.
Qed.

(** A neighbour is an end of an edge. *)
Lemma neighbors_of_endpoints (es : list (nat * nat)) (v n : nat) :
  n ∈ neighbors_of es v -> exists e, e ∈ es /\ (n = e.1 \/ n = e.2).
Proof.
  induction es as [|e es IH].
  - intros H. inversion H.
  - rewrite neighbors_of_cons, elem_of_app. intros [H|H].
    + exists e. split; [ left | ].
      destruct (decide (e.1 = v)); [ | destruct (decide (e.2 = v)) ].
      * apply list_elem_of_singleton in H. auto.
      * apply list_elem_of_singleton in H. auto.
      * inversion H.
    + destruct (IH H) as (e' & He' & Hn). exists e'.
      split; [ right; exact He' | exact Hn ].
Qed.

Lemma collapse_vertex_raises
    (angle : float) (v : BMVert) (bm : BMesh) (e : exn) :
  (forall ed, ed ∈ edges bm ->
     ed.1 < length (verts bm) /\ ed.2 < length (verts bm)) ->
  v < length (verts bm) ->
  (collapse_vertex angle v bm).1 = Raises e ->
  e = ValueError "math domain error" \/ e = OverflowError "math range error".
Proof.
  intros Hed Hv. rewrite collapse_vertex_run. cbv zeta.
  set (ns := neighbors_of (edges bm) v).
  assert (Hns : forall k, k < length ns -> nth k ns 0 < length (verts bm)).
  { intros k Hk.
    assert (Hin : nth k ns 0 ∈ ns).
    { apply list_elem_of_In. apply nth_In. exact Hk. }
    apply neighbors_of_endpoints in Hin as (ed & Hin & Hcase).
    destruct (Hed ed Hin) as [Ha Hb].
    destruct Hcase as [->| ->]; assumption. }
  destruct (decide (length ns = 2)) as [Hl|Hl];
    [ | rewrite print_run; discriminate ].
  rewrite decide_True by (apply Hns; lia).
  rewrite decide_True by (apply Hns; lia).
  apply collapse_points_on_line_raises; simpl; try assumption;
    apply Hns; lia.
Qed.

Lemma for_each_collapse_vertex_raises
    (angle : float) (l : list nat) (bm : BMesh) (e : exn) :
  (forall ed, ed ∈ edges bm ->
     ed.1 < length (verts bm) /\ ed.2 < length (verts bm)) ->
  (forall v, v ∈ l -> v < length (verts bm)) ->
  (for_each l (collapse_vertex angle) bm).1 = Raises e ->
  e = ValueError "math domain error" \/ e = OverflowError "math range error".
Proof.
  revert bm. induction l as [|v l IH]; intros bm Hed Hl.
  - discriminate.
  - simpl for_each. rewrite bind_run.
    pose proof (collapse_vertex_raises angle v bm) as Hv.
    destruct (collapse_vertex_frame angle v bm) as (He & Hlen & _).
    destruct (collapse_vertex angle v bm) as [[[]|e'] bm1]; simpl in *.
    + apply IH.
      * rewrite He, Hlen. exact Hed.
      * intros w Hw. rewrite Hlen. apply Hl. right. exact Hw.
    + intros [= <-]. apply Hv; [ exact Hed | apply Hl; left | reflexivity ].
Qed.

(** X12. On a mesh whose edges join vertices of the mesh,
    [collapse_edges_in_order] raises nothing but the two errors of the
    [math] module ('math domain error', 'math range error'): no lookup of
    a vertex fails and no division by zero happens. *)
Lemma collapse_edges_in_order_raises_only_math_errors
    (angle : float) (bm : BMesh) (e : exn) :
  (forall ed, ed ∈ edges bm ->
     ed.1 < length (verts bm) /\ ed.2 < length (verts bm)) ->
  (collapse_edges_in_order angle bm).1 = Raises e ->
  e = ValueError "math domain error" \/ e = OverflowError "math range error".
Proof.
  intros Hed. unfold collapse_edges_in_order. rewrite bind_run. simpl.
  apply for_each_collapse_vertex_raises; [ exact Hed | ].
  intros v Hv. apply elem_of_seq in Hv. lia.
Qed.

End decimate_more.

(** ** More on importing a scan *)

Section import_more.
Context {vp : Viewport} {host : Host}.

(** X13. [import_agisoft_scan] counts every object of the scene, not only
    the imported ones.  When the importer leaves a scene in object mode
    that holds two objects that are not cameras (the imported model and
    an object that was in the scene before, say), each of them shown in
    the viewport or not selected, the call raises [ValueError]; both
    objects are still in the scene, and the cameras that the viewport
    shows and that are selectable are gone.  An exception of the importer
    is passed on, and then nothing is deleted; when the importer leaves a
    scene that is not in object mode, the call raises [RuntimeError] and
    nothing is deleted either. *)
Lemma import_agisoft_scan_counts_every_object
    (fbx_filepath : string) (s s1 : Scene) :
  (forall e, import_fbx fbx_filepath s = (Raises e, s1) ->
     import_agisoft_scan fbx_filepath s = (Raises e, s1))
  /\ (import_fbx fbx_filepath s = (Returns tt, s1) ->
      mode s1 <> "OBJECT" ->
      import_agisoft_scan fbx_filepath s =
      (Raises (poll_failed "object.select_all"), s1))
  /\ (forall k1 k2 o1 o2,
        import_fbx fbx_filepath s = (Returns tt, s1) ->
        mode s1 = "OBJECT" ->
        k1 ≠ k2 ->
        objects s1 !! k1 = Some o1 -> type o1 ≠ "CAMERA" ->
        k1 ∈ visible s1 \/ k1 ∉ selected s1 ->
        objects s1 !! k2 = Some o2 -> type o2 ≠ "CAMERA" ->
        k2 ∈ visible s1 \/ k2 ∉ selected s1 ->
        let r := import_agisoft_scan fbx_filepath s in
        r.1 = Raises (ValueError
          "Error: There should be only one object imported - check the contents of the fbx file")
        /\ objects r.2 !! k1 = Some o1
        /\ objects r.2 !! k2 = Some o2
        /\ (forall k o, objects s1 !! k = Some o -> type o = "CAMERA" ->
              k ∈ visible s1 -> hide_select k = false ->
              objects r.2 !! k = None)).
Proof.
  split; [ intros e; apply import_agisoft_scan_import_raises | ].
  split.
  - intros Hi Hmode.
    apply (import_agisoft_scan_delete_raises _ _ _ _ _ Hi).
    apply delete_all_cameras_fails. exact Hmode.
  - intros k1 k2 o1 o2 Hi Hmode Hne H1 Hc1 Hv1 H2 Hc2 Hv2. cbv zeta.
    destruct (delete_all_cameras_run s1 Hmode)
      as (Hr & Hgone & Hkept & _).
    destruct (delete_all_cameras s1) as [[[]|e] s2] eqn:Ed;
      simpl in Hr; [ | discriminate ].
    cbn [snd] in Hgone, Hkept.
    rewrite (import_agisoft_scan_run _ _ _ _ Hi Ed).
    pose proof (Hkept k1 o1 H1 Hc1 Hv1) as K1.
    pose proof (Hkept k2 o2 H2 Hc2 Hv2) as K2.
    destruct (decide (size (objects s2) ≠ 1)) as [Hn|Hn].
    + simpl. split; [ reflexivity | ]. split; [ exact K1 | ].
      split; [ exact K2 | exact Hgone ].
    + exfalso. apply Hne.
      assert (Hsize : size (objects s2) = 1).
      { destruct (decide (size (objects s2) = 1)); [ assumption | ].
        contradiction. }
      apply map_size_one in Hsize as (k & o & Hk). rewrite Hk in K1, K2.
      apply lookup_singleton_Some in K1 as [<- _].
      apply lookup_singleton_Some in K2 as [<- _]. reflexivity.
Qed.

End import_more.

(** ** The distance as a function of two points *)

Section signs.
Local Open Scope Z_scope.

(** Rounding does not look at the sign. *)
Lemma binary_round_aux_opp (sx : bool) (mx ex : Z) (lx : SpecFloat.location) :
  binary_round_aux prec emax (negb sx) mx ex lx
  = SFopp (binary_round_aux prec emax sx mx ex lx).
Proof.
  unfold binary_round_aux.
  destruct (shr_fexp prec emax mx ex lx) as [mrs1 e1].
  destruct (shr_fexp prec emax _ e1 loc_Exact) as [mrs2 e2].
  destruct (shr_m mrs2); try reflexivity.
  destruct (e2 <=? emax - prec); reflexivity.
Qed.

Lemma binary_round_opp (sx : bool) (mx : positive) (ex : Z) :
  binary_round prec emax (negb sx) mx ex
  = SFopp (binary_round prec emax sx mx ex).
Proof.
  unfold binary_round. destruct (shl_align mx ex _) as [mz ez].
  apply binary_round_aux_opp.
Qed.

Lemma binary_normalize_opp (m e : Z) :
  m <> 0 ->
  binary_normalize prec emax (- m) e false
  = SFopp (binary_normalize prec emax m e false).
Proof.
  destruct m as [|p|p]; intros Hm; [ contradiction | | ]; simpl.
  - apply (binary_round_opp false).
  - rewrite <- (binary_round_opp true). reflexivity.
Qed.

(** [x - y] is the opposite of [y - x], unless both are zero. *)
Lemma SFsub_swap (x y : spec_float) :
  SF64sub x y = SFopp (SF64sub y x)
  \/ exists s1 s2, SF64sub x y = S754_zero s1 /\ SF64sub y x = S754_zero s2.
Proof.
  unfold SF64sub.
  destruct x as [[]|[]| |sx mx ex], y as [[]|[]| |sy my ey];
    try (left; reflexivity); try (right; eexists _, _; split; reflexivity).
  - left. simpl. rewrite negb_involutive. reflexivity.
  - left. simpl. rewrite negb_involutive. reflexivity.
  - unfold SFsub. rewrite (Z.min_comm ey ex).
    set (ez := Z.min ex ey).
    set (a := cond_Zopp sx (Zpos (shl_align mx ex ez).1)).
    set (b := cond_Zopp sy (Zpos (shl_align my ey ez).1)).
    destruct (Z.eq_dec (a - b) 0) as [Hz|Hz].
    + right. exists false, false.
      replace (b - a) with 0 by lia. rewrite Hz. split; reflexivity.
    + left. replace (a - b) with (- (b - a)) by lia.
      apply binary_normalize_opp. lia.
Qed.

End signs.

Lemma SFeqb_finite_refl (s : bool) (m : positive) (e : Z) :
  SFeqb (S754_finite s m e) (S754_finite s m e) = true.
Proof.
  unfold SFeqb, SFcompare.
  rewrite Z.compare_refl, Pos.compare_cont_refl. destruct s; reflexivity.
Qed.

Lemma opp_nan (t : float) : is_nan t = true -> (- t)%float = t.
Proof.
  unfold is_nan. rewrite FloatAxioms.eqb_spec. intros H.
  apply Prim2SF_inj. rewrite FloatAxioms.opp_spec.
  destruct (Prim2SF t) as [[]|[]| |s m e]; try reflexivity;
    try discriminate.
  rewrite SFeqb_finite_refl in H. discriminate.
Qed.

Lemma is_nan_opp (t : float) : is_nan (- t) = is_nan t.
Proof.
  unfold is_nan. rewrite !FloatAxioms.eqb_spec, FloatAxioms.opp_spec.
  destruct (Prim2SF t) as [[]|[]| |s m e]; try reflexivity.
  simpl SFopp. rewrite !SFeqb_finite_refl. reflexivity.
Qed.

Lemma abs_opp (t : float) : abs (- t) = abs t.
Proof.
  apply Prim2SF_inj.
  rewrite !FloatAxioms.abs_spec, FloatAxioms.opp_spec.
  destruct (Prim2SF t); reflexivity.
Qed.

Lemma eqb_zero_opp (t : float) : (- t =? 0)%float = (t =? 0)%float.
Proof.
  rewrite !FloatAxioms.eqb_spec, FloatAxioms.opp_spec.
  change (Prim2SF 0) with (S754_zero false).
  destruct (Prim2SF t) as [[]|[]| |[] m e]; reflexivity.
Qed.

(** A square root is never below zero. *)
Lemma sqrt_not_negative (s : float) : (PrimFloat.sqrt s <? 0)%float = false.
Proof.
  rewrite FloatAxioms.ltb_spec, FloatAxioms.sqrt_spec.
  change (Prim2SF 0) with (S754_zero false).
  destruct (Prim2SF s) as [[]|[]| |[] m e]; try reflexivity.
  unfold SF64sqrt, SFsqrt.
  destruct (SFsqrt_core_binary prec emax (Zpos m) e) as [[mz ez] lz].
  unfold binary_round_aux.
  destruct (shr_fexp prec emax mz ez lz) as [mrs1 e1].
  destruct (shr_fexp prec emax _ e1 loc_Exact) as [mrs2 e2].
  destruct (shr_m mrs2); try reflexivity.
  destruct (e2 <=? emax - prec)%Z; reflexivity.
Qed.

Section distance.
Context {libm : math.Libm}.

Lemma pow2_opp (t : float) :
  pow_is_even -> math.pow2 (- t)%float = math.pow2 t.
Proof.
  intros Heven. unfold math.pow2.
  rewrite is_nan_opp. destruct (is_nan t) eqn:Hn.
  - rewrite (opp_nan t Hn). reflexivity.
  - unfold is_infinity. rewrite abs_opp, Heven, eqb_zero_opp. reflexivity.
Qed.

Lemma pow2_sub_swap (a b : float) :
  pow_is_even -> math.pow2 (a - b)%float = math.pow2 (b - a)%float.
Proof.
  intros Heven.
  destruct (SFsub_swap (Prim2SF a) (Prim2SF b)) as [H|(s1 & s2 & H1 & H2)].
  - rewrite <- !FloatAxioms.sub_spec, <- FloatAxioms.opp_spec in H.
    apply Prim2SF_inj in H. rewrite H. apply pow2_opp. exact Heven.
  - rewrite <- FloatAxioms.sub_spec in H1, H2.
    assert (Hz : forall (t : float) (s : bool),
              Prim2SF t = S754_zero s -> math.pow2 t = math.pow2 0%float).
    { intros t [] Ht.
      - assert (t = (- 0)%float) as -> by (apply Prim2SF_inj; exact Ht).
        apply pow2_opp. exact Heven.
      - assert (t = 0%float) as -> by (apply Prim2SF_inj; exact Ht).
        reflexivity. }
    rewrite (Hz _ _ H1), (Hz _ _ H2). reflexivity.
Qed.

(** X14. A distance that [get_distance_between_points] returns is not
    negative: it is a square root. *)
Lemma get_distance_between_points_not_negative
    (v0 v1 : BMVert) (bm : BMesh) (d : float) :
  (get_distance_between_points v0 v1 bm).1 = Returns d ->
  (d <? 0)%float = false.
Proof.
  intros Hd. apply get_distance_between_points_sqrt in Hd as [s ->].
  apply sqrt_not_negative.
Qed.

(** X15. The distance is the same in both directions:
    [get_distance_between_points] returns the same value, or raises the
    same exception, on [(v0, v1)] and on [(v1, v0)], for a C library whose
    [pow] squares a number and its opposite to the same value.  The
    differences of the coordinates are opposite binary64 numbers, or both
    zero. *)
Lemma get_distance_between_points_symmetric
    (v0 v1 : BMVert) (bm : BMesh) :
  pow_is_even ->
  get_distance_between_points v0 v1 bm
  = get_distance_between_points v1 v0 bm.
Proof.
  intros Heven. rewrite !get_distance_between_points_run.
  unfold BMVert in *.
  destruct (verts bm !! v0) as [c0|], (verts bm !! v1) as [c1|];
    try reflexivity.
  rewrite (pow2_sub_swap (x c0) (x c1) Heven),
          (pow2_sub_swap (y c0) (y c1) Heven),
          (pow2_sub_swap (z c0) (z c1) Heven).
  reflexivity.
Qed.

End distance.

(** ** More on the UV block *)

(** X16. The UV block of [render_360_for_camera] needs the 24 face
    corners of a cube.  On fewer it raises [IndexError]: at once and
    without a write when there are no more than eight, after the writes
    that came first otherwise.  On 24 or more it returns, and it never
    changes the number of entries nor any entry from index 24 on. *)
Lemma render_360_for_camera_uv_needs_24_loops (data : UVData) :
  let r := render_360_for_camera_uv data in
  length r.2 = length data
  /\ (length data <= 8 -> r = (Raises IndexError, data))
  /\ (length data < 24 -> r.1 = Raises IndexError)
  /\ (24 <= length data ->
      r.1 = Returns tt /\ forall j, 24 <= j -> r.2 !! j = data !! j).
Proof.
  cbv zeta.
  do 24 (destruct data as [|? data];
         [ vm_compute; repeat split; intros; try reflexivity; lia | ]).
  split; [ vm_compute; reflexivity | ].
  split; [ simpl; intros; lia | ].
  split; [ simpl; intros; lia | ].
  intros _. split; [ vm_compute; reflexivity | ].
  intros j Hj. replace j with (24 + (j - 24)) by lia.
  vm_compute. reflexivity.
Qed.

(** ** The context of the 3D viewport *)

Lemma for_break_first {A} (test : A -> bool) (l1 : list A) (a : A)
    (l2 : list A) (var : option A) :
  Forall (fun b => test b = false) l1 -> test a = true ->
  for_break test (l1 ++ a :: l2) var = Some a.
Proof.
  intros H1 Ha. revert var. induction H1 as [|b l1 Hb _ IH]; intros var; simpl.
  - rewrite Ha. reflexivity.
  - rewrite Hb. apply IH.
Qed.

Lemma for_break_last {A} (test : A -> bool) (l : list A) (a : A)
    (var : option A) :
  Forall (fun b => test b = false) (l ++ [a]) ->
  for_break test (l ++ [a]) var = Some a.
Proof.
  revert var. induction l as [|b l IH]; intros var H; simpl.
  - destruct (test a); reflexivity.
  - apply Forall_cons in H as [Hb H]. rewrite Hb. apply IH. exact H.
Qed.

Lemma for_break_cons {A} (test : A -> bool) (a : A) (l : list A)
    (var : option A) :
  exists b, for_break test (a :: l) var = Some b /\ b ∈ a :: l.
Proof.
  revert a var. induction l as [|a' l IH]; intros a var; simpl.
  - exists a. split; [ destruct (test a); reflexivity | left ].
  - destruct (test a).
    + exists a. split; [ reflexivity | left ].
    + destruct (IH a' (Some a)) as (b & Hb & Hin). simpl in Hb.
      exists b. split; [ exact Hb | right; exact Hin ].
Qed.

Lemma for_break_unbound {A} (test : A -> bool) (l : list A) :
  for_break test l None = None <-> l = [].
Proof.
  split; [ | intros ->; reflexivity ].
  destruct l as [|a l]; [ reflexivity | ].
  destruct (for_break_cons test a l None) as (b & -> & _). discriminate.
Qed.

Lemma type_test_false {A} (f : A -> string) (t : string) (l : list A) :
  Forall (fun a => f a ≠ t) l ->
  Forall (fun a => bool_decide (f a = t) = false) l.
Proof.
  intros H. eapply Forall_impl; [ exact H | ].
  intros a. apply bool_decide_eq_false_2.
Qed.

(** X17. With a 3D viewport in the layout, the override is the copy of
    the context with three entries replaced: 'area' is the first area of
    the screen whose type is 'VIEW_3D', 'region' is the first region of
    that area whose type is 'WINDOW', and 'space_data' is the first space
    of that area.  Every other entry of the copy is as it was. *)
Lemma get_context_override_view3d_first_view3d
    (context : Context) (l1 l2 : list Area.t) (area : Area.t)
    (r1 r2 : list Region.t) (region : Region.t)
    (space_data : Space.t) (rest : list Space.t) :
  screen_areas context = l1 ++ area :: l2 ->
  Forall (fun a => Area.type a ≠ "VIEW_3D") l1 ->
  Area.type area = "VIEW_3D" ->
  Area.regions area = r1 ++ region :: r2 ->
  Forall (fun r => Region.type r ≠ "WINDOW") r1 ->
  Region.type region = "WINDOW" ->
  Area.spaces area = space_data :: rest ->
  exists override,
    get_context_override_view3d context = inr override
    /\ override !! "area" = Some (MArea area)
    /\ override !! "region" = Some (MRegion region)
    /\ override !! "space_data" = Some (MSpace space_data)
    /\ forall k, k ≠ "area" -> k ≠ "region" -> k ≠ "space_data" ->
         override !! k = copy context !! k.
Proof.
  intros Ha Hl1 Harea Hr Hr1 Hregion Hs.
  unfold get_context_override_view3d.
  rewrite Ha, (for_break_first _ l1 area l2)
    by (apply type_test_false || apply bool_decide_eq_true_2; assumption).
  rewrite Hr, (for_break_first _ r1 region r2)
    by (apply type_test_false || apply bool_decide_eq_true_2; assumption).
  rewrite Hs. cbv zeta. simpl. eexists. split; [ reflexivity | ].
  split; [ | split; [ | split ] ].
  - rewrite lookup_insert_ne by discriminate.
    rewrite lookup_insert_ne by discriminate. apply lookup_insert_eq.
  - rewrite lookup_insert_ne by discriminate. apply lookup_insert_eq.
  - apply lookup_insert_eq.
  - intros k K1 K2 K3. rewrite !lookup_insert_ne by congruence. reflexivity.
Qed.

(** X18. Without a 3D viewport the function raises nothing: the loop over
    the areas leaves its variable at the last area of the screen, and the
    override is built from that area, whatever its type; likewise the
    last region of the area is taken when none is a 'WINDOW' region. *)
Lemma get_context_override_view3d_without_view3d
    (context : Context) (l : list Area.t) (area : Area.t)
    (r : list Region.t) (region : Region.t)
    (space_data : Space.t) (rest : list Space.t) :
  screen_areas context = l ++ [area] ->
  Forall (fun a => Area.type a ≠ "VIEW_3D") (screen_areas context) ->
  Area.regions area = r ++ [region] ->
  Forall (fun r => Region.type r ≠ "WINDOW") (Area.regions area) ->
  Area.spaces area = space_data :: rest ->
  get_context_override_view3d context =
  inr (<["space_data" := MSpace space_data]>
         (<["region" := MRegion region]>
            (<["area" := MArea area]> (copy context)))).
Proof.
  intros Ha Hl Hr Hrs Hs. unfold get_context_override_view3d.
  rewrite Ha in *. rewrite for_break_last by (apply type_test_false, Hl).
  rewrite Hr in *. rewrite for_break_last by (apply type_test_false, Hrs).
  rewrite Hs. reflexivity.
Qed.

(** X19. The function raises [UnboundLocalError] for 'area' exactly when
    the screen has no area.  When the screen has an area and every area
    has a region and a space, as in a running Blender, it returns, and
    the area of the override is an area of the screen. *)
Lemma get_context_override_view3d_raises (context : Context) :
  (get_context_override_view3d context = inl (UnboundLocalError "area")
   <-> screen_areas context = [])
  /\ (screen_areas context ≠ [] ->
      Forall (fun a => Area.regions a ≠ [] /\ Area.spaces a ≠ [])
        (screen_areas context) ->
      exists override area,
        get_context_override_view3d context = inr override
        /\ override !! "area" = Some (MArea area)
        /\ area ∈ screen_areas context).
Proof.
  unfold get_context_override_view3d. split.
  - split.
    + destruct (for_break _ (screen_areas context) None) as [area|] eqn:E.
      * destruct (for_break _ (Area.regions area) None);
          [ destruct (Area.spaces area !! 0) | ]; discriminate.
      * intros _. apply for_break_unbound in E. exact E.
    + intros ->. reflexivity.
  - intros Hne Hall.
    destruct (screen_areas context) as [|a l] eqn:E; [ contradiction | ].
    destruct (for_break_cons
                (fun area => bool_decide (Area.type area = "VIEW_3D"))
                a l None) as (area & -> & Hin).
    rewrite Forall_forall in Hall. destruct (Hall area Hin) as [Hr Hs].
    destruct (Area.regions area) as [|r rs]; [ contradiction | ].
    destruct (for_break_cons
                (fun region => bool_decide (Region.type region = "WINDOW"))
                r rs None) as (region & -> & _).
    destruct (Area.spaces area) as [|sp sps]; [ contradiction | ].
    simpl. eexists _, area. split; [ reflexivity | ].
    split; [ | exact Hin ].
    rewrite lookup_insert_ne by discriminate.
    rewrite lookup_insert_ne by discriminate. apply lookup_insert_eq.
Qed.

(** ** Paths *)

Section strings.
Local Open Scope Z_scope.

Lemma append_nil (t : string) : "" +:+ t = t.
Proof. reflexivity. Qed.

Lemma append_cons (a : ascii) (s t : string) :
  String a s +:+ t = String a (s +:+ t).
Proof. reflexivity. Qed.

Lemma chars_app (s t : string) :
  list_ascii_of_string (s +:+ t)
  = list_ascii_of_string s ++ list_ascii_of_string t.
Proof.
  induction s as [|a s IH]; [ reflexivity | ].
  rewrite append_cons. simpl. rewrite IH. reflexivity.
Qed.

Lemma length_app_string (s t : string) :
  String.length (s +:+ t) = (String.length s + String.length t)%nat.
Proof.
  induction s as [|a s IH]; [ reflexivity | ].
  rewrite append_cons. simpl. rewrite IH. reflexivity.
Qed.

Lemma app_assoc_string (s t u : string) : (s +:+ t) +:+ u = s +:+ (t +:+ u).
Proof.
  induction s as [|a s IH]; [ reflexivity | ].
  rewrite !append_cons, IH. reflexivity.
Qed.

Lemma rfind_bounds (s : string) (c : ascii) :
  -1 <= str.rfind s c < Z.of_nat (String.length s).
Proof.
  induction s as [|a s IH]; simpl str.rfind; simpl String.length; [ lia | ].
  destruct (0 <=? str.rfind s c) eqn:E; [ lia | ].
  destruct (Ascii.eqb a c); lia.
Qed.

Lemma rfind_absent (s : string) (c : ascii) :
  ~ In c (list_ascii_of_string s) -> str.rfind s c = -1.
Proof.
  induction s as [|a s IH]; simpl; intros H; [ reflexivity | ].
  rewrite IH by tauto. simpl.
  destruct (Ascii.eqb_spec a c) as [->|_]; [ | reflexivity ].
  exfalso. apply H. left. reflexivity.
Qed.

(** Characters after the last [c] do not move it. *)
Lemma rfind_app_absent (s t : string) (c : ascii) :
  ~ In c (list_ascii_of_string t) -> str.rfind (s +:+ t) c = str.rfind s c.
Proof.
  intros H. induction s as [|a s IH].
  - apply rfind_absent. exact H.
  - rewrite append_cons. simpl. rewrite IH. reflexivity.
Qed.

Lemma rfind_app_last (s t : string) (c : ascii) :
  ~ In c (list_ascii_of_string t) ->
  str.rfind (s +:+ String c t) c = Z.of_nat (String.length s).
Proof.
  intros H. induction s as [|a s IH].
  - rewrite append_nil. simpl. rewrite rfind_absent by exact H. simpl.
    rewrite Ascii.eqb_refl. reflexivity.
  - rewrite append_cons. simpl str.rfind. rewrite IH.
    destruct (0 <=? Z.of_nat (String.length s)) eqn:E; [ | lia ].
    simpl String.length. lia.
Qed.

Lemma substring_app (s t : string) :
  substring 0 (String.length s) (s +:+ t) = s.
Proof.
  induction s as [|a s IH].
  - destruct t; reflexivity.
  - rewrite append_cons. simpl. rewrite IH. reflexivity.
Qed.

Lemma length_substring_le (n : nat) (s : string) :
  (String.length (substring 0 n s) <= n)%nat.
Proof.
  revert s. induction n as [|n IH]; intros s; simpl.
  - destruct s; simpl; lia.
  - destruct s as [|a s]; simpl; [ lia | ]. specialize (IH s). lia.
Qed.

Lemma length_rstrip_le (s : string) (c : ascii) :
  (String.length (str.rstrip s c) <= String.length s)%nat.
Proof.
  induction s as [|a s IH]; simpl; [ lia | ].
  destruct (str.rstrip s c); [ destruct (Ascii.eqb a c) | ]; simpl in *; lia.
Qed.

Lemma rstrip_seps (c : ascii) (n : nat) : str.rstrip (str.mul c n) c = "".
Proof.
  induction n as [|n IH]; simpl; [ reflexivity | ].
  rewrite IH, Ascii.eqb_refl. reflexivity.
Qed.

(** [rstrip] stops at the last character that is not [c]. *)
Lemma rstrip_app (s : string) (a c : ascii) (n : nat) :
  a <> c ->
  str.rstrip (s +:+ String a (str.mul c n)) c = s +:+ String a "".
Proof.
  intros Hne.
  assert (H0 : str.rstrip (String a (str.mul c n)) c = String a "").
  { simpl. rewrite rstrip_seps.
    destruct (Ascii.eqb_spec a c); [ contradiction | reflexivity ]. }
  induction s as [|b s IH]; [ exact H0 | ].
  rewrite append_cons. simpl str.rstrip. rewrite IH.
  destruct s; reflexivity.
Qed.

Lemma chars_mul (c a : ascii) (n : nat) : In a (list_ascii_of_string (str.mul c n)) -> a = c.
Proof.
  induction n as [|n IH]; simpl; [ contradiction | ].
  intros [H|H]; [ congruence | auto ].
Qed.

(** The directory of a file in a directory whose name does not end in a
    slash is that directory. *)
Lemma dirname_of_file (d : string) (c : ascii) (f : string) :
  c <> "/"%char -> ~ In "/"%char (list_ascii_of_string f) ->
  posixpath.dirname (d +:+ String c (String "/" f)) = d +:+ String c "".
Proof.
  intros Hc Hf. unfold posixpath.dirname, posixpath.sep.
  replace (d +:+ String c (String "/" f))
    with ((d +:+ String c "") +:+ String "/" f)
    by (rewrite app_assoc_string; reflexivity).
  rewrite rfind_app_last by exact Hf. cbv zeta.
  set (dc := d +:+ String c "").
  unfold str.slice_to.
  replace (Z.to_nat (Z.of_nat (String.length dc) + 1))
    with (String.length (dc +:+ String "/" "")).
  2:{ rewrite length_app_string. simpl. lia. }
  replace (dc +:+ String "/" f) with ((dc +:+ String "/" "") +:+ f)
    by (rewrite app_assoc_string; reflexivity).
  rewrite substring_app.
  set (head := dc +:+ String "/" "").
  assert (H1 : (head =? "")%string = false).
  { apply String.eqb_neq. unfold head, dc. intros H.
    apply (f_equal String.length) in H.
    rewrite !length_app_string in H. simpl in H. lia. }
  assert (H2 : (head =? str.mul "/" (String.length head))%string = false).
  { apply String.eqb_neq. intros H. apply Hc.
    apply (chars_mul "/" c (String.length head)). rewrite <- H.
    unfold head, dc. rewrite !chars_app. apply in_or_app. left.
    apply in_or_app. right. left. reflexivity. }
  rewrite H1, H2. simpl negb. simpl andb. cbv iota.
  unfold head, dc. rewrite app_assoc_string, append_cons, append_nil.
  apply (rstrip_app d c "/" 1). exact Hc.
Qed.

(** The directory of a path is shorter than the path up to its last
    slash. *)
Lemma length_dirname (p : string) :
  (String.length (posixpath.dirname p)
   <= Z.to_nat (str.rfind p posixpath.sep + 1))%nat.
Proof.
  unfold posixpath.dirname. cbv zeta. unfold str.slice_to.
  set (n := Z.to_nat (str.rfind p posixpath.sep + 1)).
  pose proof (length_substring_le n p) as H1.
  pose proof (length_rstrip_le (substring 0 n p) posixpath.sep) as H2.
  destruct (negb _ && negb _)%bool; lia.
Qed.

(** X20. [render_360_images_for_cameras] joins the directory of the blend
    file and the file name without a separator.  For a blend file in a
    directory whose name does not end in a slash, the FBX file is
    therefore written beside that directory, under the name of the
    directory followed by '360_cameras.fbx', and not into it.  Only for
    a blend file right under the root, and for an unsaved one, whose path
    is empty, the place is the directory of the blend file. *)
Lemma cameras_fbx_filepath_is_beside_the_directory
    (d : string) (c : ascii) (f : string) :
  c <> "/"%char -> ~ In "/"%char (list_ascii_of_string f) ->
  let filepath := d +:+ String c (String "/" f) in
  posixpath.dirname filepath = d +:+ String c ""
  /\ cameras_fbx_filepath filepath = d +:+ String c "360_cameras.fbx"
  /\ posixpath.dirname (cameras_fbx_filepath filepath)
     <> posixpath.dirname filepath
  /\ cameras_fbx_filepath (String "/" f) = "/360_cameras.fbx"
  /\ cameras_fbx_filepath "" = "360_cameras.fbx".
Proof.
  intros Hc Hf. cbv zeta.
  pose proof (dirname_of_file d c f Hc Hf) as Hd.
  assert (Hp : cameras_fbx_filepath (d +:+ String c (String "/" f))
               = d +:+ String c "360_cameras.fbx").
  { unfold cameras_fbx_filepath. cbv zeta. rewrite Hd.
    rewrite app_assoc_string. reflexivity. }
  split; [ exact Hd | ]. split; [ exact Hp | ].
  split; [ | split; [ | reflexivity ] ].
  - rewrite Hp, Hd. intros H. apply (f_equal String.length) in H.
    pose proof (length_dirname (d +:+ String c "360_cameras.fbx")) as Hl.
    rewrite rfind_app_absent in Hl.
    2:{ simpl. intros [H1|H1]; [ apply Hc; exact H1 | ].
        repeat (destruct H1 as [H1|H1]; [ discriminate H1 | ]).
        exact H1. }
    pose proof (rfind_bounds d posixpath.sep) as Hb.
    rewrite length_app_string in H. simpl in H. lia.
  - unfold cameras_fbx_filepath, posixpath.dirname, posixpath.sep. cbv zeta.
    rewrite (rfind_app_last "" f "/" Hf : str.rfind (String "/" f) "/" = 0).
    unfold str.slice_to. change (Z.to_nat (0 + 1)) with 1%nat.
    simpl substring.
    replace (substring 0 0 f) with "" by (destruct f; reflexivity).
    reflexivity.
Qed.

End strings.

(** ** The names of the proxies and the cleanup *)

(** [s.find(sub) == 0] says that [s] starts with [sub]. *)
Lemma find_0_prefix (s sub : string) :
  str.find s sub = 0%Z <-> String.prefix sub s = true.
Proof.
  unfold str.find. destruct s as [|b s].
  - destruct sub; simpl; split; intros H; try reflexivity; discriminate.
  - cbn [String.index]. destruct (String.prefix sub (String b s)).
    + split; reflexivity.
    + destruct (String.index 0 sub s); split; intros H; try discriminate;
        lia.
Qed.

(** Replacing the dots by underscores and adding a suffix that starts
    with an underscore does not change whether a name starts with a word
    that has neither a dot nor an underscore. *)
Lemma prefix_replace (word s t : string) :
  Forall (fun p => p <> "."%char /\ p <> "_"%char)
    (list_ascii_of_string word) ->
  String.prefix word (str.replace s "." "_" +:+ String "_" t)
  = String.prefix word s.
Proof.
  revert s. induction word as [|p word IH]; intros s Hw.
  - destruct s; reflexivity.
  - apply Forall_cons in Hw as [[Hdot Hund] Hw].
    destruct s as [|a s].
    + rewrite append_nil. simpl.
      destruct (ascii_dec p "_"); [ contradiction | reflexivity ].
    + simpl str.replace. rewrite append_cons. simpl.
      destruct (Ascii.eqb_spec a ".") as [->|Ha].
      * destruct (ascii_dec p "_"); [ contradiction | ].
        destruct (ascii_dec p "."); [ contradiction | reflexivity ].
      * destruct (ascii_dec p a); [ apply IH; exact Hw | reflexivity ].
Qed.

Lemma replace_replace (s : string) (old new : ascii) :
  old <> new ->
  str.replace (str.replace s old new) old new = str.replace s old new.
Proof.
  intros Hne. induction s as [|a s IH]; simpl; [ reflexivity | ].
  rewrite IH. destruct (Ascii.eqb_spec a old) as [->|Ha].
  - destruct (Ascii.eqb_spec new old); [ congruence | reflexivity ].
  - destruct (Ascii.eqb_spec a old); [ contradiction | reflexivity ].
Qed.

(** A string that starts with [s] is [s] followed by a rest. *)
Lemma prefix_rest (s t : string) :
  String.prefix s t = true -> exists rest, t = s +:+ rest.
Proof.
  revert t. induction s as [|a s IH]; intros t H.
  - exists t. reflexivity.
  - destruct t as [|b t]; simpl in H; [ discriminate | ].
    destruct (ascii_dec a b) as [->|]; [ | discriminate ].
    destruct (IH t H) as [rest ->]. exists rest. reflexivity.
Qed.

Lemma chars_replace (s : string) (old new : ascii) :
  old <> new -> ~ In old (list_ascii_of_string (str.replace s old new)).
Proof.
  intros Hne. induction s as [|a s IH]; simpl; [ tauto | ].
  intros [H|H]; [ | tauto ].
  destruct (Ascii.eqb_spec a old); congruence.
Qed.

(** A name that the host stores for the string of [proxy_name], be it
    the string or the string with a suffix, starts with 'Camera' exactly
    when the name of the camera does. *)
Lemma stored_name_starts_with_camera (name stored : string) :
  String.prefix (proxy_name name) stored = true ->
  str.find stored "Camera" = 0%Z <-> str.find name "Camera" = 0%Z.
Proof.
  intros H. apply prefix_rest in H as [rest ->]. unfold proxy_name.
  rewrite !find_0_prefix, app_assoc_string.
  change ("_360" +:+ rest) with (String "_" ("360" +:+ rest)).
  rewrite (prefix_replace "Camera" name ("360" +:+ rest)); [ reflexivity | ].
  repeat (apply Forall_cons; split; [ split; discriminate | ]).
  apply Forall_nil. exact I.
Qed.

(** X21. [render_360_for_camera] assigns the string of [proxy_name] to
    the name of the proxy, reads the name back and asks for an image and
    a material of that name.  The assigned string has no dot, so a number
    that the host adds after a dot to keep names unique follows the whole
    string.  Every name that is the assigned string, or the assigned
    string followed by a suffix, starts with 'Camera' exactly when the
    name of the camera does: this is the test of [cleanup_360_cameras].
    The cameras 'A.B' and 'A_B' have the same string assigned to their
    proxies. *)
Lemma proxy_name_starts_with_camera (name stored : string) :
  String.prefix (proxy_name name) stored = true ->
  (str.find stored "Camera" = 0%Z <-> str.find name "Camera" = 0%Z)
  /\ ~ In "."%char (list_ascii_of_string (proxy_name name))
  /\ proxy_name (str.replace name "." "_") = proxy_name name.
Proof.
  intros Hs. split; [ | split ].
  - apply stored_name_starts_with_camera. exact Hs.
  - unfold proxy_name. rewrite chars_app. intros H.
    apply in_app_or in H as [H|H].
    + apply chars_replace in H; [ exact H | discriminate ].
    + simpl in H. repeat (destruct H as [H|H]; [ discriminate H | ]).
      exact H.
  - unfold proxy_name. rewrite replace_replace by discriminate. reflexivity.
Qed.




Section cleanup.
Context {vp : Viewport}.



End cleanup.

(** ** The domain of the arc cosine *)

Lemma SFcompare_antisym (f1 f2 : spec_float) :
  SFcompare f2 f1 = CompOpp <$> SFcompare f1 f2.
Proof.
  destruct f1 as [[]|[]| |[] m1 e1], f2 as [[]|[]| |[] m2 e2];
    try reflexivity; simpl;
    rewrite (Z.compare_antisym e1 e2);
    destruct (e1 ?= e2)%Z; simpl; try reflexivity;
    rewrite (Pos.compare_cont_antisym m1 m2 Eq); simpl;
    rewrite ?CompOpp_involutive; reflexivity.
Qed.

(** A float that compares equal to a finite number is that number. *)
Lemma SFcompare_Eq_finite (f : spec_float) (s : bool) (m : positive) (e : Z) :
  SFcompare f (S754_finite s m e) = Some Eq -> f = S754_finite s m e.
Proof.
  destruct f as [[]|[]| |s1 m1 e1]; simpl; try discriminate;
    try (destruct s; discriminate).
  destruct s1, s; try discriminate;
    destruct (e1 ?= e)%Z eqn:Ee; try discriminate;
    apply Z.compare_eq in Ee; subst e1;
    destruct (Pos.compare_cont Eq m1 m) eqn:Em; try discriminate;
    apply Pos.compare_eq in Em; subst; reflexivity.
Qed.

Lemma eqb_finite (t c : float) (s : bool) (m : positive) (e : Z) :
  Prim2SF c = S754_finite s m e -> (t =? c)%float = true -> t = c.
Proof.
  intros Hc. rewrite FloatAxioms.eqb_spec, Hc. unfold SFeqb.
  destruct (SFcompare (Prim2SF t) (S754_finite s m e)) as [[]|] eqn:E;
    try discriminate.
  intros _. apply SFcompare_Eq_finite in E. apply Prim2SF_inj. congruence.
Qed.

Lemma ltb_asym (t u : float) :
  (t <? u)%float = true -> (u <? t)%float = false /\ (u =? t)%float = false
                           /\ (t =? u)%float = false.
Proof.
  rewrite !FloatAxioms.ltb_spec, !FloatAxioms.eqb_spec.
  unfold SFltb, SFeqb. rewrite (SFcompare_antisym (Prim2SF t) (Prim2SF u)).
  destruct (SFcompare (Prim2SF t) (Prim2SF u)) as [[]|]; try discriminate.
  auto.
Qed.

(** The C library of the examples reports the domain error of [acos]. *)
Lemma sample_libm_acos_domain_error : acos_domain_error (libm := sample_libm).
Proof.
  intros t H. simpl.
  assert (H1 : (t =? 1)%float = false).
  { destruct (t =? 1)%float eqn:E; [ | reflexivity ].
    apply (eqb_finite t 1 false 4503599627370496 (-52) eq_refl) in E.
    subst t. discriminate H. }
  assert (H2 : (t =? -1)%float = false).
  { destruct (t =? -1)%float eqn:E; [ | reflexivity ].
    apply (eqb_finite t (-1) true 4503599627370496 (-52) eq_refl) in E.
    subst t. discriminate H. }
  rewrite H1, H2.
  apply orb_true_iff in H as [H|H]; apply ltb_asym in H as (H & _).
  - rewrite H. reflexivity.
  - rewrite H, andb_false_r. reflexivity.
Qed.

Section domain.
Context {libm : math.Libm}.

(** X24. With [a], [b], [c] the three distances and [b], [c] not zero,
    [get_planar_angle] raises [ValueError] ('math domain error') whenever
    the quotient it computes for the cosine is below -1 or above 1, as
    rounding makes it for points on a line, for a C library that reports
    the domain error of [acos] by a NaN; the quotient is not clamped.
    Whenever the C library has a number for the arc cosine of the
    quotient, the function returns that number. *)
Lemma get_planar_angle_raises_outside_domain
    (v0 v1 v2 : BMVert) (bm : BMesh) (a b c : float) :
  (get_distance_between_points v0 v2 bm).1 = Returns a ->
  (get_distance_between_points v0 v1 bm).1 = Returns b ->
  (get_distance_between_points v1 v2 bm).1 = Returns c ->
  ((b =? 0) || (c =? 0))%float = false ->
  let cos_a := ((b * b + c * c - a * a) / (2 * b * c))%float in
  (acos_domain_error ->
   ((cos_a <? -1) || (1 <? cos_a))%float = true ->
   get_planar_angle v0 v1 v2 bm
   = (Raises (ValueError "math domain error"), bm))
  /\ (is_nan (math.libm_acos cos_a) = false ->
      is_infinity (math.libm_acos cos_a) = false ->
      get_planar_angle v0 v1 v2 bm = (Returns (math.libm_acos cos_a), bm)).
Proof.
  intros Ha Hb Hc Hz cos_a.
  assert (Hrun : get_planar_angle v0 v1 v2 bm = (math.acos cos_a, bm)).
  { rewrite get_planar_angle_run, Ha, Hb, Hc. cbv [mbind outcome_bind].
    rewrite Hz.
    apply get_distance_between_points_sqrt in Hb as [s ->], Hc as [t ->].
    apply orb_false_iff in Hz as [Hs Ht].
    unfold truediv. rewrite (sqrt_product_nonzero s t Hs Ht). reflexivity. }
  rewrite Hrun. unfold math.acos, math.math_1. split.
  - intros Hdom Hout. rewrite (Hdom cos_a Hout).
    assert (Hn : is_nan cos_a = false).
    { unfold is_nan. apply negb_false_iff.
      rewrite FloatAxioms.eqb_spec.
      rewrite !FloatAxioms.ltb_spec in Hout. unfold SFltb in Hout.
      change (Prim2SF 1) with (S754_finite false 4503599627370496 (-52))
        in Hout.
      change (Prim2SF (-1)) with (S754_finite true 4503599627370496 (-52))
        in Hout.
      destruct (Prim2SF cos_a) as [[]|[]| |s m e]; try reflexivity.
      - discriminate Hout.
      - apply SFeqb_finite_refl. }
    rewrite Hn. reflexivity.
  - intros Hn Hi. rewrite Hn, Hi. reflexivity.
Qed.

End domain.

(** The diagonal line: the quotient is below -1. *)
Lemma get_planar_angle_raises_outside_domain_sample :
  get_planar_angle (libm := sample_libm) 0 1 2 diagonal_line
  = (Raises (ValueError "math domain error"), diagonal_line).
Proof.
  apply (proj1 (get_planar_angle_raises_outside_domain (libm := sample_libm)
                  0 1 2 diagonal_line (PrimFloat.sqrt 27) (PrimFloat.sqrt 3)
                  (PrimFloat.sqrt 12) eq_refl eq_refl eq_refl eq_refl)).
  - exact sample_libm_acos_domain_error.
  - reflexivity.
Defined.

(** ** The angle as a function of the two outer vertices *)

Section sqrt_bounds.
Local Open Scope Z_scope.

(** Rounding adds at most one to the magnitude. *)
Lemma binary_round_aux_magnitude_le
    (prec emax : Z) (sx : bool) (mx ex : Z) (lx : SpecFloat.location) :
  0 < prec -> 0 < mx -> SpecFloat.emin prec emax < Zdigits2 mx + ex ->
  match binary_round_aux prec emax sx mx ex lx with
  | S754_finite _ m e => Zdigits2 (Zpos m) + e <= Zdigits2 mx + ex + 1
  | _ => True
  end.
Proof.
  intros Hprec Hm He. unfold binary_round_aux.
  pose proof (shr_fexp_magnitude prec emax Hprec mx ex lx Hm He) as H1.
  destruct (shr_fexp prec emax mx ex lx) as [mrs1 e1]. destruct H1 as [P1 D1].
  set (m2 := round_nearest_even (shr_m mrs1) (loc_of_shr_record mrs1)).
  pose proof (round_nearest_even_bounds (shr_m mrs1) (loc_of_shr_record mrs1))
    as Hr. fold m2 in Hr.
  assert (Hd : Zdigits2 (shr_m mrs1) <= Zdigits2 m2)
    by (apply Zdigits2_mono; lia).
  assert (Hd' : Zdigits2 m2 <= Zdigits2 (shr_m mrs1) + 1).
  { transitivity (Zdigits2 (shr_m mrs1 + 1)).
    - apply Zdigits2_mono; lia.
    - rewrite !Zdigits2_log2 by lia.
      pose proof (Z.log2_succ_le (shr_m mrs1)). unfold Z.succ in *. lia. }
  assert (P2 : 0 < m2) by lia.
  assert (E2 : SpecFloat.emin prec emax < Zdigits2 m2 + e1) by lia.
  pose proof (shr_fexp_magnitude prec emax Hprec m2 e1 loc_Exact P2 E2) as H2.
  destruct (shr_fexp prec emax m2 e1 loc_Exact) as [mrs2 e2].
  destruct H2 as [P3 D3].
  destruct (shr_m mrs2) as [|m|m]; try exact I.
  destruct (e2 <=? emax - prec); [ lia | exact I ].
Qed.

(** The square root of a positive float has at most half its magnitude,
    rounded up, and one more. *)
Lemma SFsqrt_magnitude_le (prec emax : Z) (mx : positive) (ex : Z) :
  0 < prec -> SpecFloat.emin prec emax <= 0 ->
  SpecFloat.emin prec emax < Zdigits2 (Zpos mx) + ex ->
  match SFsqrt prec emax (S754_finite false mx ex) with
  | S754_finite _ m e =>
      Zdigits2 (Zpos m) + e <= Z.div2 (Zdigits2 (Zpos mx) + ex + 1) + 1
  | _ => True
  end.
Proof.
  intros Hprec Hemin Hv. unfold SFsqrt, SFsqrt_core_binary.
  set (d := Zdigits2 (Zpos mx)) in *.
  set (e' := Z.min (fexp prec emax (Z.div2 (d + ex + 1))) (Z.div2 ex)).
  set (s := ex - 2 * e').
  pose proof (Z.div2_odd ex) as Hex.
  assert (Hb : 0 <= Z.b2z (Z.odd ex) <= 1) by (destruct (Z.odd ex); simpl; lia).
  assert (Hs : 0 <= s) by (unfold s, e'; lia).
  set (m' := match s with
             | Z0 => Zpos mx
             | Zpos _ => Z.shiftl (Zpos mx) s
             | Zneg _ => 0
             end).
  assert (Hm' : m' = Zpos mx * 2 ^ s) by (apply sqrt_shift; assumption).
  clearbody m'.
  pose proof (Z.sqrtrem_sqrt m') as Hq.
  destruct (Z.sqrtrem m') as [q r]. simpl in Hq. subst q.
  set (l := if r =? 0 then loc_Exact
            else loc_Inexact (if r <=? Z.sqrt m' then Lt else Gt)).
  clearbody l.
  assert (Hd : d = Z.log2 (Zpos mx) + 1) by (apply Zdigits2_log2; lia).
  pose proof (Z.log2_spec (Zpos mx) ltac:(lia)) as [Hlo Hhi].
  pose proof (Z.log2_nonneg (Zpos mx)) as Hl0.
  (* from below *)
  set (k := Z.div2 (d - 1 + s)).
  pose proof (Z.div2_odd (d - 1 + s)) as Hk. fold k in Hk.
  assert (Hkb : 0 <= Z.b2z (Z.odd (d - 1 + s)) <= 1)
    by (destruct (Z.odd (d - 1 + s)); simpl; lia).
  assert (Hk0 : 0 <= k) by lia.
  assert (Hpow : 2 ^ (2 * k) <= m').
  { rewrite Hm'. transitivity (2 ^ (d - 1 + s)).
    - apply Z.pow_le_mono_r; lia.
    - rewrite Z.pow_add_r by lia.
      apply Z.mul_le_mono_nonneg_r; [ apply Z.pow_nonneg; lia | ].
      replace (d - 1) with (Z.log2 (Zpos mx)) by lia. assumption. }
  pose proof (pow2_le_sqrt k m' Hk0 Hpow) as Hsq.
  assert (Hqpos : 0 < Z.sqrt m').
  { assert (0 < 2 ^ k) by (apply Z.pow_pos_nonneg; lia). lia. }
  assert (Hlog : k <= Z.log2 (Z.sqrt m')) by (apply Z.log2_le_pow2; lia).
  pose proof (Zdigits2_log2 (Z.sqrt m') Hqpos) as Hdq.
  (* from above *)
  set (j := Z.div2 (d + s + 1)).
  pose proof (Z.div2_odd (d + s + 1)) as Hj. fold j in Hj.
  assert (Hjb : 0 <= Z.b2z (Z.odd (d + s + 1)) <= 1)
    by (destruct (Z.odd (d + s + 1)); simpl; lia).
  assert (Hj0 : 0 <= j) by lia.
  assert (Hup : m' < 2 ^ j * 2 ^ j).
  { rewrite <- Z.pow_add_r by lia. rewrite Hm'.
    apply Z.lt_le_trans with (2 ^ (d + s)).
    - rewrite Z.pow_add_r by lia.
      apply Z.mul_lt_mono_pos_r; [ apply Z.pow_pos_nonneg; lia | ].
      replace d with (Z.succ (Z.log2 (Zpos mx))) by lia. assumption.
    - apply Z.pow_le_mono_r; lia. }
  assert (Hsqj : Z.sqrt m' < 2 ^ j).
  { apply Z.sqrt_lt_square; [ lia | apply Z.pow_nonneg; lia | exact Hup ]. }
  assert (Hlogj : Z.log2 (Z.sqrt m') < j) by (apply Z.log2_lt_pow2; lia).
  pose proof (Z.div2_odd (d + ex + 1)) as HU.
  assert (HUb : 0 <= Z.b2z (Z.odd (d + ex + 1)) <= 1)
    by (destruct (Z.odd (d + ex + 1)); simpl; lia).
  pose proof (Z.div2_odd (d + ex - 1)) as HL.
  assert (HLb : 0 <= Z.b2z (Z.odd (d + ex - 1)) <= 1)
    by (destruct (Z.odd (d + ex - 1)); simpl; lia).
  assert (Hlow : SpecFloat.emin prec emax < Zdigits2 (Z.sqrt m') + e')
    by (unfold s in *; lia).
  pose proof (binary_round_aux_magnitude_le prec emax false (Z.sqrt m') e' l
                Hprec Hqpos Hlow) as Hbra.
  destruct (binary_round_aux prec emax false (Z.sqrt m') e' l);
    try exact I.
  unfold s in *. lia.
Qed.

(** A binary64 square root that is a number is positive and normal, and
    its double does not overflow. *)
Lemma sqrt_finite (t : float) (sg : bool) (m : positive) (e : Z) :
  Prim2SF (PrimFloat.sqrt t) = S754_finite sg m e ->
  sg = false /\ Zdigits2 (Zpos m) = 53 /\ -1074 <= e /\ e + 1 <= 971.
Proof.
  intros H.
  pose proof (Prim2SF_valid (PrimFloat.sqrt t)) as Hvalid.
  pose proof (sqrt_not_negative t) as Hsign.
  rewrite FloatAxioms.ltb_spec, H in Hsign.
  rewrite H in Hvalid.
  rewrite FloatAxioms.sqrt_spec in H.
  pose proof (SF64sqrt_magnitude _ (Prim2SF_valid t)) as Hlow.
  rewrite H in Hlow. simpl in Hlow.
  assert (Hhigh : Zdigits2 (Zpos m) + e <= 513).
  { pose proof (Prim2SF_valid t) as Hvt.
    unfold SF64sqrt in H.
    destruct (Prim2SF t) as [?|[]| |[] mt et]; try discriminate.
    pose proof (valid_binary_magnitude _ _ _ Hvt) as Hmt.
    pose proof (SFsqrt_magnitude_le prec emax mt et ltac:(reflexivity)
                  ltac:(discriminate) Hmt) as Hle.
    rewrite H in Hle.
    simpl in Hvt. unfold bounded, canonical_mantissa, SpecFloat.fexp in Hvt.
    apply andb_prop in Hvt as [Hc Hb].
    apply Z.eqb_eq in Hc. apply Z.leb_le in Hb.
    change (SpecFloat.emin prec emax) with (-1074) in *.
    change (emax - prec) with 971 in *. change prec with 53 in *.
    change (Zdigits2 (Zpos mt)) with (Zpos (digits2_pos mt)) in *.
    pose proof (Z.div2_odd (Z.pos (digits2_pos mt) + et + 1)) as Hdiv.
    destruct (Z.odd (Z.pos (digits2_pos mt) + et + 1)); simpl Z.b2z in *;
      lia. }
  simpl in Hvalid. unfold bounded, canonical_mantissa, SpecFloat.fexp in Hvalid.
  apply andb_prop in Hvalid as [Hc Hb]. apply Z.eqb_eq in Hc.
  change (SpecFloat.emin prec emax) with (-1074) in *.
  change prec with 53 in *.
  change (Zdigits2 (Zpos m)) with (Zpos (digits2_pos m)) in *.
  split; [ destruct sg; [ discriminate Hsign | reflexivity ] | ]. lia.
Qed.

Lemma shr_52_exact (m : positive) :
  SpecFloat.iter_pos shr_1 52
    {| shr_m := Zpos (4503599627370496 * m); shr_r := false;
       shr_s := false |}
  = {| shr_m := Zpos m; shr_r := false; shr_s := false |}.
Proof. vm_compute. reflexivity. Qed.

(** Doubling a normal binary64 number below the overflow threshold adds
    one to its exponent. *)
Lemma mul2_exact (s : bool) (m : positive) (e : Z) :
  Zdigits2 (Zpos m) = 53 -> -1074 <= e -> e + 1 <= 971 ->
  SF64mul (S754_finite false 4503599627370496 (-51)) (S754_finite s m e)
  = S754_finite s m (e + 1).
Proof.
  intros Hd Hlo Hhi. unfold SF64mul, SFmul. simpl xorb.
  unfold binary_round_aux.
  assert (Hd2 : Zdigits2 (Zpos (4503599627370496 * m)) = 105).
  { rewrite Zdigits2_log2 in * by lia. rewrite Pos2Z.inj_mul, Z.mul_comm.
    change (Zpos 4503599627370496) with (2 ^ 52).
    rewrite Z.log2_mul_pow2 by lia. lia. }
  assert (H1 : shr_fexp prec emax (Zpos (4503599627370496 * m)) (-51 + e)
                 loc_Exact
               = ({| shr_m := Zpos m; shr_r := false; shr_s := false |},
                  e + 1)).
  { unfold shr_fexp. rewrite Hd2.
    replace (SpecFloat.fexp prec emax (105 + (-51 + e)) - (-51 + e)) with 52.
    2:{ unfold SpecFloat.fexp, SpecFloat.emin.
        change prec with 53. change emax with 1024. lia. }
    unfold shr. simpl shr_record_of_loc. rewrite shr_52_exact.
    f_equal. lia. }
  rewrite H1. simpl round_nearest_even.
  assert (H2 : shr_fexp prec emax (Zpos m) (e + 1) loc_Exact
               = ({| shr_m := Zpos m; shr_r := false; shr_s := false |},
                  e + 1)).
  { unfold shr_fexp. rewrite Hd.
    replace (SpecFloat.fexp prec emax (53 + (e + 1)) - (e + 1)) with 0.
    2:{ unfold SpecFloat.fexp, SpecFloat.emin.
        change prec with 53. change emax with 1024. lia. }
    reflexivity. }
  rewrite H2. simpl shr_m.
  change (emax - prec) with 971.
  destruct (Z.leb_spec (e + 1) 971); [ reflexivity | lia ].
Qed.

Lemma SFmul_finite_comm (s1 s2 : bool) (m1 m2 : positive) (e1 e2 : Z) :
  SF64mul (S754_finite s1 m1 e1) (S754_finite s2 m2 e2)
  = SF64mul (S754_finite s2 m2 e2) (S754_finite s1 m1 e1).
Proof.
  unfold SF64mul, SFmul.
  rewrite (xorb_comm s1 s2), (Pos.mul_comm m1 m2), (Z.add_comm e1 e2).
  reflexivity.
Qed.

Lemma SFadd_comm (f1 f2 : spec_float) : SF64add f1 f2 = SF64add f2 f1.
Proof.
  unfold SF64add.
  destruct f1 as [[]|[]| |s1 m1 e1], f2 as [[]|[]| |s2 m2 e2];
    try reflexivity.
  unfold SFadd. rewrite (Z.min_comm e2 e1).
  rewrite (Z.add_comm (cond_Zopp s2 _)). reflexivity.
Qed.

End sqrt_bounds.

Lemma add_comm_float (u v : float) : (u + v)%float = (v + u)%float.
Proof.
  apply Prim2SF_inj. rewrite !FloatAxioms.add_spec. apply SFadd_comm.
Qed.

(** Twice the product of two square roots that are not zero does not
    depend on their order. *)
Lemma sqrt_product_comm (s t : float) :
  (PrimFloat.sqrt s =? 0)%float = false ->
  (PrimFloat.sqrt t =? 0)%float = false ->
  (2 * PrimFloat.sqrt s * PrimFloat.sqrt t)%float
  = (2 * PrimFloat.sqrt t * PrimFloat.sqrt s)%float.
Proof.
  intros Hs Ht. apply Prim2SF_inj.
  rewrite !FloatAxioms.mul_spec.
  rewrite FloatAxioms.eqb_spec in Hs, Ht.
  change (Prim2SF 0) with (S754_zero false) in Hs, Ht.
  change (Prim2SF 2) with (S754_finite false 4503599627370496 (-51)).
  pose proof (sqrt_finite s) as Fs. pose proof (sqrt_finite t) as Ft.
  pose proof (sqrt_not_negative s) as Ns.
  pose proof (sqrt_not_negative t) as Nt.
  rewrite FloatAxioms.ltb_spec in Ns, Nt.
  change (Prim2SF 0) with (S754_zero false) in Ns, Nt.
  destruct (Prim2SF (PrimFloat.sqrt s)) as [?|[]| |sb mb eb];
    try discriminate Hs; try discriminate Ns;
    destruct (Prim2SF (PrimFloat.sqrt t)) as [?|[]| |sc mc ec];
    try discriminate Ht; try discriminate Nt; try reflexivity.
  - destruct (Ft sc mc ec eq_refl) as (-> & Hd & Hlo & Hhi).
    rewrite (mul2_exact false mc ec Hd Hlo Hhi). reflexivity.
  - destruct (Ft sc mc ec eq_refl) as (-> & Hd & Hlo & Hhi).
    rewrite (mul2_exact false mc ec Hd Hlo Hhi). reflexivity.
  - destruct (Fs sb mb eb eq_refl) as (-> & Hd & Hlo & Hhi).
    rewrite (mul2_exact false mb eb Hd Hlo Hhi). reflexivity.
  - destruct (Fs sb mb eb eq_refl) as (-> & Hd & Hlo & Hhi).
    rewrite (mul2_exact false mb eb Hd Hlo Hhi). reflexivity.
  - destruct (Fs sb mb eb eq_refl) as (-> & Hdb & Hlob & Hhib).
    destruct (Ft sc mc ec eq_refl) as (-> & Hdc & Hloc & Hhic).
    rewrite (mul2_exact false mb eb Hdb Hlob Hhib).
    rewrite (mul2_exact false mc ec Hdc Hloc Hhic).
    unfold SF64mul, SFmul.
    rewrite (Pos.mul_comm mb mc).
    replace (eb + 1 + ec)%Z with (ec + 1 + eb)%Z by lia. reflexivity.
Qed.

Section angle.
Context {libm : math.Libm}.

(** X25. The angle at [v1] does not depend on the order of the two outer
    vertices: when [get_planar_angle] returns a value on [(v0, v1, v2)],
    it returns the same binary64 value on [(v2, v1, v0)], for a C library
    whose [pow] squares a number and its opposite to the same value. *)
Lemma get_planar_angle_symmetric
    (v0 v1 v2 : BMVert) (bm : BMesh) (angle : float) :
  pow_is_even ->
  (get_planar_angle v0 v1 v2 bm).1 = Returns angle ->
  get_planar_angle v2 v1 v0 bm = get_planar_angle v0 v1 v2 bm.
Proof.
  intros Heven. rewrite !get_planar_angle_run. cbn [fst].
  rewrite (get_distance_between_points_symmetric v2 v0 bm Heven),
          (get_distance_between_points_symmetric v2 v1 bm Heven),
          (get_distance_between_points_symmetric v1 v0 bm Heven).
  destruct (get_distance_between_points v0 v2 bm).1 as [a|ea];
    [ | discriminate ].
  destruct (get_distance_between_points v0 v1 bm).1 as [b|eb] eqn:Hb;
    [ | discriminate ].
  destruct (get_distance_between_points v1 v2 bm).1 as [c|ec] eqn:Hc;
    [ | discriminate ].
  cbv [mbind outcome_bind]. intros _.
  rewrite (orb_comm (c =? 0)%float).
  destruct ((b =? 0) || (c =? 0))%float eqn:Hz; [ reflexivity | ].
  apply get_distance_between_points_sqrt in Hb as [s ->], Hc as [t ->].
  apply orb_false_iff in Hz as [Hs Ht].
  rewrite (sqrt_product_comm t s Ht Hs).
  rewrite (add_comm_float (PrimFloat.sqrt t * PrimFloat.sqrt t)).
  reflexivity.
Qed.

End angle.

(** ** Runs that move nothing *)

Lemma leb_not_ltb (u v : float) :
  (u <=? v)%float = true -> (v <? u)%float = false.
Proof.
  rewrite FloatAxioms.leb_spec, FloatAxioms.ltb_spec.
  unfold SFleb, SFltb. rewrite (SFcompare_antisym (Prim2SF u) (Prim2SF v)).
  destruct (SFcompare (Prim2SF u) (Prim2SF v)) as [[]|]; try discriminate;
    reflexivity.
Qed.

Section stable.
Context {libm : math.Libm}.

Lemma for_each_collapse_vertex_returns
    (angle : float) (l : list nat) (bm : BMesh) :
  (forall v, v ∈ l -> length (neighbors_of (edges bm) v) <> 2) ->
  let r := for_each l (collapse_vertex angle) bm in
  r.1 = Returns tt /\ verts r.2 = verts bm /\ edges r.2 = edges bm
  /\ length (stdout r.2) = length (stdout bm) + 2 * length l.
Proof.
  revert bm. induction l as [|v l IH]; intros bm Hl; cbv zeta.
  - simpl. repeat split. lia.
  - simpl for_each. rewrite bind_run, collapse_vertex_run. cbv zeta.
    rewrite decide_False by (apply Hl; left).
    rewrite print_run.
    match goal with |- context [for_each l _ ?bm1] =>
      destruct (IH bm1) as (Hr & Hv & He & Hs) end.
    { intros w Hw. simpl. apply Hl. right. exact Hw. }
    simpl in Hv, He, Hs. rewrite !length_app in Hs. simpl in Hs.
    split; [ exact Hr | ]. split; [ exact Hv | ]. split; [ exact He | ].
    etransitivity; [ exact Hs | simpl; lia ].
Qed.

(** X26. On a mesh in which no vertex has exactly two edges (a mesh
    without edges, say) [collapse_edges_in_order] returns and moves
    nothing; it prints two lines for every vertex, the neighbour list and
    its length. *)
Lemma collapse_edges_in_order_without_candidates
    (angle : float) (bm : BMesh) :
  (forall v, v < length (verts bm) ->
     length (neighbors_of (edges bm) v) <> 2) ->
  let r := collapse_edges_in_order angle bm in
  r.1 = Returns tt /\ verts r.2 = verts bm /\ edges r.2 = edges bm
  /\ length (stdout r.2) = length (stdout bm) + 2 * length (verts bm).
Proof.
  intros H. cbv zeta. unfold collapse_edges_in_order. rewrite bind_run.
  simpl.
  destruct (for_each_collapse_vertex_returns angle
              (seq 0 (length (verts bm))) bm) as (Hr & Hv & He & Hs).
  { intros v Hv. apply H. apply elem_of_seq in Hv. lia. }
  rewrite length_seq in Hs. auto.
Qed.

Lemma get_planar_angle_returns_distance
    (v0 v1 v2 : BMVert) (bm bm' : BMesh) (a : float) :
  get_planar_angle v0 v1 v2 bm = (Returns a, bm') ->
  returned (get_distance_between_points v0 v2 bm).1.
Proof.
  rewrite get_planar_angle_run.
  destruct (get_distance_between_points v0 v2 bm).1 as [d|e];
    [ eexists; reflexivity | discriminate ].
Qed.

(** The distance reads the coordinates of its two vertices and nothing
    else. *)
Lemma get_distance_between_points_reads
    (v0 v1 : BMVert) (bm bm' : BMesh) :
  verts bm' !! v0 = verts bm !! v0 -> verts bm' !! v1 = verts bm !! v1 ->
  (get_distance_between_points v0 v1 bm').1
  = (get_distance_between_points v0 v1 bm).1.
Proof.
  intros H0 H1. rewrite !get_distance_between_points_run. cbn [fst].
  unfold BMVert in *. rewrite H0, H1. reflexivity.
Qed.

(** X27. A collapse is not repeated: after [collapse_points_on_line] has
    moved [v1] onto [v0], a second call with the same arguments and a
    threshold that is not negative finds the angle 0 and moves nothing,
    for finite coordinates of [v0] and a C library whose [pow] maps 0 to
    0. *)
Lemma collapse_points_on_line_once
    (v0 v1 v2 : BMVert) (angle : float) (bm : BMesh) (p : Vector) :
  math.libm_pow 0%float 2%float = 0%float ->
  (0 <=? angle)%float = true ->
  verts bm !! v0 = Some p ->
  is_finite (x p) && is_finite (y p) && is_finite (z p) = true ->
  angle_exceeds v0 v1 v2 angle bm ->
  let bm1 := (collapse_points_on_line v0 v1 v2 angle bm).2 in
  verts bm1 !! v1 = Some p
  /\ verts (collapse_points_on_line v0 v1 v2 angle bm1).2 = verts bm1.
Proof.
  intros Hpow Hangle H0 Hfin (a & Ha & Hlt). cbv zeta.
  pose proof (leb_not_ltb _ _ Hangle) as Hneg.
  destruct (get_planar_angle v0 v1 v2 bm) as [o bm'] eqn:Ea.
  simpl in Ha. subst o.
  pose proof Ea as Eret.
  apply get_planar_angle_returns in Eret as (-> & _ & [c1 H1] & [c2 H2]).
  (* the three vertices differ from [v1], or the first call found 0 *)
  assert (Hne : v0 <> v1).
  { intros <-. rewrite (get_planar_angle_coincident v0 v0 v2 bm p) in Ea;
      try assumption; [ | left; exact H0 | ].
    - injection Ea as <-. change (math.degrees 0) with 0%float in Hlt.
      congruence.
    - apply (get_planar_angle_returns_distance _ _ _ _ _ _ Ea). }
  assert (Hrun1 : collapse_points_on_line v0 v1 v2 angle bm =
    (Returns tt,
     {| verts := <[v1 := p]> (verts bm); edges := edges bm;
        stdout := (stdout bm ++ [PFloat (math.degrees a)])
                    ++ [PStr "collapse"] |})).
  { unfold collapse_points_on_line. rewrite bind_run, Ea, bind_run, print_run.
    rewrite Hlt, bind_run, print_run, bind_run.
    erewrite co_run by exact H0. erewrite set_co_run by exact H1.
    reflexivity. }
  rewrite Hrun1. cbn [snd].
  set (bm1 := {| verts := <[v1 := p]> (verts bm); edges := edges bm;
                 stdout := _ |}).
  assert (K1 : verts bm1 !! v1 = Some p).
  { apply list_lookup_insert_eq. apply lookup_lt_Some in H1. exact H1. }
  assert (K0 : verts bm1 !! v0 = Some p).
  { simpl. rewrite list_lookup_insert_ne by congruence. exact H0. }
  split; [ exact K1 | ].
  assert (Hd : returned (get_distance_between_points v0 v2 bm1).1).
  { destruct (decide (v2 = v1)) as [->|Hne2].
    - rewrite (get_distance_between_points_coincident v0 v1 bm1 p)
        by assumption. eexists. reflexivity.
    - rewrite (get_distance_between_points_reads v0 v2 bm bm1).
      + apply (get_planar_angle_returns_distance _ _ _ _ _ _ Ea).
      + rewrite K0, H0. reflexivity.
      + simpl. apply list_lookup_insert_ne. congruence. }
  assert (Hangle0 : get_planar_angle v0 v1 v2 bm1 = (Returns 0%float, bm1)).
  { apply (get_planar_angle_coincident v0 v1 v2 bm1 p); auto. }
  unfold collapse_points_on_line. rewrite bind_run, Hangle0, bind_run, print_run.
  change (math.degrees 0) with 0%float. rewrite Hneg. reflexivity.
Qed.

End stable.

(** ** The further properties at work *)

(** In the default scene the viewport shows the cube and the camera, and
    both are selectable. *)
Lemma cube_and_camera_shown (k : string) :
  k ∈ dom (objects cube_and_camera) ->
  k ∈ visible (vp := default_viewport) cube_and_camera
  /\ hide_select (Viewport := default_viewport) k = false.
Proof.
  intros Hk. split; [ | reflexivity ].
  apply elem_of_dom in Hk as [o Ho]. apply elem_of_visible. exists o.
  split; [ exact Ho | ]. split; [ reflexivity | ].
  unfold cube_and_camera in Ho. cbn [objects] in Ho.
  apply lookup_insert_Some in Ho as [[_ <-]|[_ Ho]]; [ reflexivity | ].
  apply lookup_singleton_Some in Ho as [_ <-]. reflexivity.
Qed.

Lemma cube_and_camera_selected_shown :
  selected cube_and_camera ⊆ visible (vp := default_viewport) cube_and_camera.
Proof.
  intros k Hk. apply cube_and_camera_shown.
  unfold cube_and_camera in Hk. cbn [selected] in Hk.
  apply elem_of_singleton in Hk as ->. apply elem_of_dom.
  exists mesh_object. reflexivity.
Qed.

(** [delete_all] on the default scene leaves no object. *)
Lemma delete_all_deletes_every_object_sample :
  objects (delete_all (vp := default_viewport) cube_and_camera).2 = ∅.
Proof.
  destruct (proj2 (delete_all_deletes_every_object (vp := default_viewport)
                     cube_and_camera) eq_refl) as (_ & _ & _ & _ & _ & H).
  apply H. exact cube_and_camera_shown.
Defined.

Example delete_all_cube_and_camera :
  delete_all (vp := default_viewport) cube_and_camera =
  (Returns tt,
   {| objects := ∅; selected := ∅; active := None; mode := "OBJECT" |}).
Proof. vm_compute. reflexivity. Qed.

(** A hidden cube that is not selected survives [delete_all]. *)
Example delete_all_hidden_cube :
  objects (delete_all (vp := hidden_cube_viewport)
             {| objects := objects cube_and_camera; selected := ∅;
                active := None; mode := "OBJECT" |}).2
  = {["Cube" := mesh_object]}.
Proof. vm_compute. reflexivity. Qed.

Example delete_all_edit_mode :
  delete_all (vp := default_viewport) cube_and_camera_edit
  = (Raises (RuntimeError
       "Operator bpy.ops.object.select_all.poll() failed, context is incorrect"),
     cube_and_camera_edit).
Proof. vm_compute. reflexivity. Qed.

(** Deleting the camera of a scene in which the cube is selected and
    active: the cube stays. *)
Lemma delete_object_deletes_only_the_object_sample :
  (delete_object (vp := default_viewport) (Some "Camera") cube_and_camera).2 =
  {| objects := delete "Camera" (objects cube_and_camera); selected := ∅;
     active := None; mode := "OBJECT" |}.
Proof.
  destruct (proj2 (proj2 (delete_object_deletes_only_the_object
                            (vp := default_viewport)))
              "Camera" cube_and_camera eq_refl
              (proj1 (cube_and_camera_shown "Camera"
                        ltac:(apply elem_of_dom; exists camera_object;
                              vm_compute; reflexivity)))
              eq_refl) as (_ & _ & _ & _ & _ & _ & H).
  apply H. exact cube_and_camera_selected_shown.
Defined.

Example delete_object_camera :
  delete_object (vp := default_viewport) (Some "Camera") cube_and_camera =
  (Returns tt,
   {| objects := {["Cube" := mesh_object]}; selected := ∅;
      active := None; mode := "OBJECT" |}).
Proof. vm_compute. reflexivity. Qed.

(** Without a camera in the scene only the selection is lost. *)
Lemma delete_all_cameras_active_and_mode_sample :
  (delete_all_cameras (vp := default_viewport) cube_only).2 =
  {| objects := objects cube_only; selected := ∅; active := active cube_only;
     mode := mode cube_only |}.
Proof.
  apply (proj2 (proj2 (delete_all_cameras_active_and_mode
                         (vp := default_viewport) cube_only eq_refl))).
  - intros k o H. unfold cube_only in H. cbn [objects] in H.
    apply lookup_singleton_Some in H as [_ <-]. discriminate.
  - intros k Hk. unfold cube_only in Hk. cbn [selected] in Hk.
    apply elem_of_singleton in Hk as ->.
    apply elem_of_visible. exists mesh_object.
    split; [ reflexivity | split; reflexivity ].
Defined.

Example delete_all_cameras_twice_cube_and_camera :
  (delete_all_cameras (vp := default_viewport);;
   delete_all_cameras (vp := default_viewport)) cube_and_camera
  = (Returns tt,
     {| objects := {["Cube" := mesh_object]}; selected := ∅;
        active := Some "Cube"; mode := "OBJECT" |}).
Proof. vm_compute. reflexivity. Qed.

(** The cube moved to layer 3: the camera and the selection are as they
    were. *)
Lemma move_object_to_layer_changes_only_the_flags_sample :
  let r := move_object_to_layer "Cube" 3 cube_and_camera in
  r.1 = Returns tt
  /\ objects r.2 !! "Cube" =
     Some {| type := type mesh_object; location := location mesh_object;
             layers := <[layer_index 3 := true]>
                         (replicate (length (layers mesh_object)) false) |}
  /\ (forall k, k ≠ "Cube" ->
        objects r.2 !! k = objects cube_and_camera !! k)
  /\ selected r.2 = selected cube_and_camera
  /\ active r.2 = active cube_and_camera
  /\ mode r.2 = mode cube_and_camera.
Proof.
  apply (move_object_to_layer_changes_only_the_flags "Cube" 3 cube_and_camera
           mesh_object).
  - reflexivity.
  - right. simpl. lia.
Defined.

(** To layer 3 and then to layer 0 is to layer 0. *)
Lemma move_object_to_layer_last_move_decides_sample :
  (move_object_to_layer "Cube" 3;; move_object_to_layer "Cube" 0)
    cube_and_camera
  = move_object_to_layer "Cube" 0 cube_and_camera.
Proof.
  apply (move_object_to_layer_last_move_decides "Cube" 3 0 cube_and_camera
           mesh_object).
  - reflexivity.
  - right. simpl. lia.
  - left. simpl. split; [ reflexivity | lia ].
Defined.

(** Blender has no layer 21. *)
Lemma move_object_to_layer_out_of_range_sample :
  move_object_to_layer "Cube" 21 cube_and_camera
  = (Raises IndexError, cube_and_camera).
Proof.
  apply (move_object_to_layer_out_of_range "Cube" 21 cube_and_camera
           mesh_object).
  - reflexivity.
  - right. left. simpl. lia.
Defined.

(** The model imported into the default scene, which has a cube: the call
    raises, the cube and the model are in the scene, the camera is not. *)
Lemma import_agisoft_scan_counts_every_object_sample :
  let s1 := (import_fbx (host := model_host) "scan.fbx" cube_and_camera).2 in
  let r := import_agisoft_scan (vp := default_viewport) (host := model_host)
             "scan.fbx" cube_and_camera in
  r.1 = Raises (ValueError
    "Error: There should be only one object imported - check the contents of the fbx file")
  /\ objects r.2 !! "Cube" = Some mesh_object
  /\ objects r.2 !! "Model" = Some mesh_object
  /\ (forall k o, objects s1 !! k = Some o -> type o = "CAMERA" ->
        k ∈ visible (vp := default_viewport) s1 ->
        hide_select (Viewport := default_viewport) k = false ->
        objects r.2 !! k = None).
Proof.
  apply (proj2 (proj2 (import_agisoft_scan_counts_every_object
                         (vp := default_viewport) (host := model_host)
                         "scan.fbx" cube_and_camera
                         (import_fbx (host := model_host) "scan.fbx"
                            cube_and_camera).2))
           "Cube" "Model" mesh_object mesh_object).
  - reflexivity.
  - reflexivity.
  - discriminate.
  - reflexivity.
  - discriminate.
  - left. apply elem_of_visible. exists mesh_object.
    split; [ vm_compute; reflexivity | split; reflexivity ].
  - reflexivity.
  - discriminate.
  - left. apply elem_of_visible. exists mesh_object.
    split; [ vm_compute; reflexivity | split; reflexivity ].
Defined.

Example import_agisoft_scan_into_default_scene :
  objects (import_agisoft_scan (vp := default_viewport) (host := model_host)
             "scan.fbx" cube_and_camera).2
  = <["Model" := mesh_object]> {["Cube" := mesh_object]}.
Proof. vm_compute. reflexivity. Qed.

(** The sample C library squares by a multiplication, which does not see
    the sign. *)
Lemma sample_libm_pow_is_even : pow_is_even (libm := sample_libm).
Proof.
  intros t. simpl. apply Prim2SF_inj.
  rewrite !FloatAxioms.mul_spec, FloatAxioms.opp_spec.
  destruct (Prim2SF t) as [[]|[]| |[] m e]; reflexivity.
Qed.

Section more_examples.
#[local] Existing Instance sample_libm.

(** The vertices at the two ends of the diagonal line stay where they
    are, and so does the middle one: the run raised. *)
Lemma collapse_edges_in_order_only_moves_vertices_sample :
  vec 1 1 1 ∈ verts diagonal_line.
Proof.
  apply (proj2 (proj2
           (collapse_edges_in_order_only_moves_vertices 170 diagonal_line))
           1 (vec 1 1 1)).
  reflexivity.
Defined.

(** Vertex 0 of the axis line has one edge. *)
Lemma get_vertex_neighbors_counts_edges_sample :
  exists ns,
    length ns = 1
    /\ get_vertex_neighbors 0 axis_line =
       (Returns ns, {| verts := verts axis_line; edges := edges axis_line;
                       stdout := [PList ns] |})
    /\ collapse_vertex 170 0 axis_line =
       (Returns tt,
        {| verts := verts axis_line; edges := edges axis_line;
           stdout := [PList ns; PStr "The length of the neighbors was 1"] |}).
Proof.
  destruct (get_vertex_neighbors_counts_edges 0 axis_line)
    as (ns & Hlen & Hrun & Hturn).
  exists ns. split; [ exact Hlen | ]. split; [ exact Hrun | ].
  apply (Hturn 170%float). simpl. lia.
Defined.

(** What the run on the diagonal line raises is an error of [math]. *)
Lemma collapse_edges_in_order_raises_only_math_errors_sample :
  ValueError "math domain error" = ValueError "math domain error"
  \/ ValueError "math domain error" = OverflowError "math range error".
Proof.
  apply (collapse_edges_in_order_raises_only_math_errors 170 diagonal_line).
  - intros ed Hin. simpl in Hin.
    repeat (apply elem_of_cons in Hin as [->|Hin]; [ simpl; lia | ]).
    inversion Hin.
  - reflexivity.
Defined.

(** The sides of the corner are 3 and 4 long. *)
Lemma get_distance_between_points_not_negative_sample :
  (3 <? 0)%float = false.
Proof.
  apply (get_distance_between_points_not_negative 0 1 corner 3).
  reflexivity.
Defined.

Lemma get_distance_between_points_symmetric_sample :
  get_distance_between_points 0 2 corner
  = get_distance_between_points 2 0 corner.
Proof.
  apply (get_distance_between_points_symmetric 0 2 corner).
  exact sample_libm_pow_is_even.
Defined.

Example get_distance_between_points_corner :
  get_distance_between_points 0 2 corner = (Returns 5%float, corner).
Proof. reflexivity. Qed.

(** The right angle of the corner, measured from either side. *)
Lemma get_planar_angle_symmetric_sample :
  get_planar_angle 2 1 0 corner = get_planar_angle 0 1 2 corner.
Proof.
  apply (get_planar_angle_symmetric 0 1 2 corner (math.pi / 2 - 0)%float).
  - exact sample_libm_pow_is_even.
  - reflexivity.
Defined.

(** Neither end of a single edge is a candidate. *)
Lemma collapse_edges_in_order_without_candidates_sample :
  let r := collapse_edges_in_order 170 single_edge in
  r.1 = Returns tt /\ verts r.2 = verts single_edge
  /\ edges r.2 = edges single_edge
  /\ length (stdout r.2)
     = length (stdout single_edge) + 2 * length (verts single_edge).
Proof.
  apply (collapse_edges_in_order_without_candidates 170 single_edge).
  intros v Hv. destruct v as [|[|v]]; simpl in *; lia.
Defined.

(** On the axis the middle vertex is moved once. *)
Lemma collapse_points_on_line_once_sample :
  let bm1 := (collapse_points_on_line 0 1 2 170 axis_line).2 in
  verts bm1 !! 1 = Some (vec 0 0 0)
  /\ verts (collapse_points_on_line 0 1 2 170 bm1).2 = verts bm1.
Proof.
  apply (collapse_points_on_line_once 0 1 2 170 axis_line (vec 0 0 0)).
  - reflexivity.
  - reflexivity.
  - reflexivity.
  - reflexivity.
  - exists math.pi. split; reflexivity.
Defined.

End more_examples.

(** A UV layer of a mesh with eight face corners: nothing is written. *)
Lemma render_360_for_camera_uv_needs_24_loops_sample :
  render_360_for_camera_uv (replicate 8 (0%float, 0%float))
  = (Raises IndexError, replicate 8 (0%float, 0%float)).
Proof.
  apply (proj1 (proj2 (render_360_for_camera_uv_needs_24_loops
                         (replicate 8 (0%float, 0%float))))).
  simpl. lia.
Defined.

(** In the default layout the override points at the 3D viewport and at
    its window region. *)
Lemma get_context_override_view3d_first_view3d_sample :
  exists override,
    get_context_override_view3d default_layout = inr override
    /\ override !! "area" = Some (MArea view3d_area)
    /\ override !! "region" = Some (MRegion (region "WINDOW"))
    /\ override !! "space_data" = Some (MSpace (space "VIEW_3D"))
    /\ forall k, k ≠ "area" -> k ≠ "region" -> k ≠ "space_data" ->
         override !! k = copy default_layout !! k.
Proof.
  apply (get_context_override_view3d_first_view3d default_layout
           [info_area] [text_area] view3d_area
           [region "HEADER"; region "TOOLS"] [] (region "WINDOW")
           (space "VIEW_3D") [space "IMAGE_EDITOR"]).
  - reflexivity.
  - repeat constructor. discriminate.
  - reflexivity.
  - reflexivity.
  - repeat constructor; discriminate.
  - reflexivity.
  - reflexivity.
Defined.

(** Without a 3D viewport the override points at the text editor, the
    last area, and at its last region. *)
Lemma get_context_override_view3d_without_view3d_sample :
  get_context_override_view3d scripting_layout =
  inr (<["space_data" := MSpace (space "TEXT_EDITOR")]>
         (<["region" := MRegion (region "UI")]>
            (<["area" := MArea text_area]> (copy scripting_layout)))).
Proof.
  apply (get_context_override_view3d_without_view3d scripting_layout
           [info_area] text_area [region "HEADER"] (region "UI")
           (space "TEXT_EDITOR") []).
  - reflexivity.
  - repeat constructor; discriminate.
  - reflexivity.
  - repeat constructor; discriminate.
  - reflexivity.
Defined.

Lemma get_context_override_view3d_raises_sample :
  exists override area,
    get_context_override_view3d default_layout = inr override
    /\ override !! "area" = Some (MArea area)
    /\ area ∈ screen_areas default_layout.
Proof.
  apply (proj2 (get_context_override_view3d_raises default_layout)).
  - discriminate.
  - repeat constructor; discriminate.
Defined.

Example get_context_override_view3d_no_area :
  get_context_override_view3d {| screen_areas := []; copy := script_members |}
  = inl (UnboundLocalError "area").
Proof. reflexivity. Qed.

(** A blend file in /home/me/scan: the FBX file is written to /home/me. *)
Lemma cameras_fbx_filepath_is_beside_the_directory_sample :
  let filepath := "/home/me/sca" +:+ String "n" (String "/" "model.blend") in
  posixpath.dirname filepath = "/home/me/sca" +:+ String "n" ""
  /\ cameras_fbx_filepath filepath
     = "/home/me/sca" +:+ String "n" "360_cameras.fbx"
  /\ posixpath.dirname (cameras_fbx_filepath filepath)
     <> posixpath.dirname filepath
  /\ cameras_fbx_filepath (String "/" "model.blend") = "/360_cameras.fbx"
  /\ cameras_fbx_filepath "" = "360_cameras.fbx".
Proof.
  apply (cameras_fbx_filepath_is_beside_the_directory "/home/me/sca" "n"
           "model.blend").
  - discriminate.
  - simpl. intros H.
    repeat (destruct H as [H|H]; [ discriminate H | ]). exact H.
Defined.

Example cameras_fbx_filepath_scan :
  cameras_fbx_filepath "/home/me/scan/model.blend"
  = "/home/me/scan360_cameras.fbx"
  /\ posixpath.dirname "/home/me/scan360_cameras.fbx" = "/home/me".
Proof. split; reflexivity. Qed.

Example proxy_name_camera_001 :
  proxy_name "Camera.001" = "Camera_001_360"
  /\ proxy_name "Camera_001" = "Camera_001_360".
Proof. split; reflexivity. Qed.

(** The proxy of 'Camera.001' when the name 'Camera_001_360' is taken:
    the host stores a name with a number, and the test of the cleanup
    finds it. *)
Lemma proxy_name_starts_with_camera_sample :
  (str.find "Camera_001_360.001" "Camera" = 0%Z
   <-> str.find "Camera.001" "Camera" = 0%Z)
  /\ ~ In "."%char (list_ascii_of_string (proxy_name "Camera.001"))
  /\ proxy_name (str.replace "Camera.001" "." "_") = proxy_name "Camera.001".
Proof.
  apply (proxy_name_starts_with_camera "Camera.001" "Camera_001_360.001").
  reflexivity.
Defined.


Example cleanup_360_cameras_rendered :
  let r := cleanup_360_cameras (vp := default_viewport) rendered in
  images r.2 = {["Camera_360" := 0; "Cam_2_360" := 1; "Camera ref" := 0]}
  /\ materials r.2 = {["Camera_360" := 0; "Cam_2_360" := 1; "Wood" := 3]}
  /\ objects (scene r.2) = {["Camera" := camera_object]}.
Proof. vm_compute. repeat split; reflexivity. Qed.
